(** * keyboard-stats-tracker: durable store, ingestion buffer, aggregation cache

    A shallow embedding of
      - [KeystrokeRepository] (SQLite-backed durable store),
      - [KeystrokeBuffer]     (in-memory ingestion buffer with retry),
      - [StatisticsService]   (day / month / year roll-ups with a TTL cache),
    together with the part of the ECMAScript [Date] API those classes call.

    Conventions.
      - A JavaScript [number] that the program uses as an integer is a [Z];
        a number that may be [NaN] (a getter of an invalid [Date]) is an
        [option Z] with [None] for [NaN].
      - A [Date] object is its time value: [option Z], [None] being
        "Invalid Date".
      - The machine's time zone is a fixed offset [tza] (milliseconds east of
        UTC), passed to every function that reads or builds local time.
      - A rejected promise / thrown error is [Err e]; a resolved one is [Ok v].
      - The table of a database is what the open connection reads: the rows
        of INSERTs that ran in a transaction [save] has not committed (its
        loop threw, or its COMMIT failed) are rows of the table.
      - One call of an async method of the repository or of the service runs
        against one state of the store.  The buffer, whose flush spans
        several turns of the event loop, is a transition system over the
        events that can occur between two turns.
      - SQL statements are the list operations they denote; where SQL leaves
        an order open (rows with equal sort keys, the order of groups) the
        order is that of the functions below, and no statement proved here
        depends on it. *)

From Stdlib Require Import ZArith List String Ascii Bool Lia Permutation.
From Stdlib Require Import DecimalString DecimalZ.
From stdpp Require Import gmap strings sorting.
Import ListNotations.

(** ** ECMAScript time arithmetic (ECMA-262, "Time Values and Time Range") *)
Module JSDate.
Local Open Scope Z_scope.

Definition msPerDay : Z := 86400000.
Definition msPerHour : Z := 3600000.
Definition msPerMinute : Z := 60000.
Definition msPerSecond : Z := 1000.
Definition HoursPerDay : Z := 24.

(** Largest magnitude of a time value: 8.64e15 ms. *)
Definition maxTimeValue : Z := 8640000000000000.

Definition Day (t : Z) : Z := t / msPerDay.
Definition TimeWithinDay (t : Z) : Z := t mod msPerDay.

Definition isLeapYear (y : Z) : bool :=
  (y mod 4 =? 0) && (negb (y mod 100 =? 0) || (y mod 400 =? 0)).

Definition DaysInYear (y : Z) : Z := if isLeapYear y then 366 else 365.

Definition DayFromYear (y : Z) : Z :=
  365 * (y - 1970) + (y - 1969) / 4 - (y - 1901) / 100 + (y - 1601) / 400.

Definition TimeFromYear (y : Z) : Z := msPerDay * DayFromYear y.

(** The largest [y] with [DayFromYear y <= d]: an estimate from the mean
    length of a Gregorian year, corrected by at most one. *)
Definition YearFromDay (d : Z) : Z :=
  let y := 1970 + (d * 400) / 146097 in
  if d <? DayFromYear y then y - 1
  else if DayFromYear (y + 1) <=? d then y + 1
  else y.

Definition YearFromTime (t : Z) : Z := YearFromDay (Day t).

Definition InLeapYear (t : Z) : Z :=
  if isLeapYear (YearFromTime t) then 1 else 0.

Definition DayWithinYear (t : Z) : Z := Day t - DayFromYear (YearFromTime t).

Definition MonthFromTime (t : Z) : Z :=
  let d := DayWithinYear t in
  let l := InLeapYear t in
  if d <? 31 then 0
  else if d <? 59 + l then 1
  else if d <? 90 + l then 2
  else if d <? 120 + l then 3
  else if d <? 151 + l then 4
  else if d <? 181 + l then 5
  else if d <? 212 + l then 6
  else if d <? 243 + l then 7
  else if d <? 273 + l then 8
  else if d <? 304 + l then 9
  else if d <? 334 + l then 10
  else 11.

Definition DateFromTime (t : Z) : Z :=
  let d := DayWithinYear t in
  let l := InLeapYear t in
  match MonthFromTime t with
  | 0 => d + 1
  | 1 => d - 30
  | 2 => d - 58 - l
  | 3 => d - 89 - l
  | 4 => d - 119 - l
  | 5 => d - 150 - l
  | 6 => d - 180 - l
  | 7 => d - 211 - l
  | 8 => d - 242 - l
  | 9 => d - 272 - l
  | 10 => d - 303 - l
  | _ => d - 333 - l
  end.

Definition HourFromTime (t : Z) : Z := (t / msPerHour) mod HoursPerDay.

(** Days from 1 January to the first day of month [mn] (0-based). *)
Definition DayFromMonth (mn : Z) (leap : Z) : Z :=
  match mn with
  | 0 => 0
  | 1 => 31
  | 2 => 59 + leap
  | 3 => 90 + leap
  | 4 => 120 + leap
  | 5 => 151 + leap
  | 6 => 181 + leap
  | 7 => 212 + leap
  | 8 => 243 + leap
  | 9 => 273 + leap
  | 10 => 304 + leap
  | _ => 334 + leap
  end.

(** [MakeDay]: the day number of the first of month [month mod 12] of year
    [year + month / 12], plus [date - 1]. *)
Definition MakeDay (year month date : Z) : Z :=
  let ym := year + month / 12 in
  let mn := month mod 12 in
  DayFromYear ym + DayFromMonth mn (if isLeapYear ym then 1 else 0) + date - 1.

Definition MakeTime (hour min sec ms : Z) : Z :=
  hour * msPerHour + min * msPerMinute + sec * msPerSecond + ms.

Definition MakeDate (day time : Z) : Z := day * msPerDay + time.

(** [TimeClip]: a time value outside +-8.64e15 is [NaN]. *)
Definition TimeClip (time : Z) : option Z :=
  if Z.abs time <=? maxTimeValue then Some time else None.

(** A year argument between 0 and 99 means 1900 + year. *)
Definition fullYear (y : Z) : Z :=
  if (0 <=? y) && (y <=? 99) then 1900 + y else y.

(** [Date] objects and possibly-NaN numbers. *)
Definition Date : Type := option Z.
Definition Num : Type := option Z.

Definition NaN : Num := None.

Definition numAdd (a : Num) (b : Z) : Num :=
  match a with Some x => Some (x + b) | None => None end.

(** [new Date(value)] *)
Definition ofTime (value : Z) : Date := TimeClip value.

(** [new Date(num)] for a possibly-NaN number. *)
Definition ofNum (value : Num) : Date :=
  match value with Some v => TimeClip v | None => None end.

Definition getTime (d : Date) : Num := d.

(** [Date.UTC(year, month, date, hours, minutes, seconds, ms)] *)
Definition UTC (year month date hours minutes seconds ms : Num) : Num :=
  match year, month, date, hours, minutes, seconds, ms with
  | Some y, Some m, Some dt, Some h, Some mi, Some s, Some milli =>
      TimeClip (MakeDate (MakeDay (fullYear y) m dt) (MakeTime h mi s milli))
  | _, _, _, _, _, _, _ => None
  end.

(** Local time with a fixed zone offset [tza]. *)
Definition LocalTime (tza t : Z) : Z := t + tza.
Definition UTCofLocal (tza t : Z) : Z := t - tza.

(** [new Date(year, month, date)]: the arguments are local time. *)
Definition ofLocalYMD (tza : Z) (year month date : Num) : Date :=
  match year, month, date with
  | Some y, Some m, Some dt =>
      TimeClip (UTCofLocal tza (MakeDate (MakeDay (fullYear y) m dt) 0))
  | _, _, _ => None
  end.

Definition getUTCFullYear (d : Date) : Num := option_map YearFromTime d.
Definition getUTCMonth (d : Date) : Num := option_map MonthFromTime d.
Definition getUTCDate (d : Date) : Num := option_map DateFromTime d.
Definition getUTCHours (d : Date) : Num := option_map HourFromTime d.

Definition getFullYear (tza : Z) (d : Date) : Num :=
  option_map (fun t => YearFromTime (LocalTime tza t)) d.
Definition getMonth (tza : Z) (d : Date) : Num :=
  option_map (fun t => MonthFromTime (LocalTime tza t)) d.
Definition getDate (tza : Z) (d : Date) : Num :=
  option_map (fun t => DateFromTime (LocalTime tza t)) d.

End JSDate.

(** ** Strings: number formatting and the byte order SQLite compares text by *)
Module JSString.
Local Open Scope Z_scope.

Definition digit (n : Z) : ascii := ascii_of_N (48 + Z.to_N n).

(** [numeral w n]: the last [w] decimal digits of [n], most significant
    first, zero padded. *)
Fixpoint numeral (w : nat) (n : Z) : string :=
  match w with
  | O => EmptyString
  | S w' => String (digit ((n / 10 ^ Z.of_nat w') mod 10)) (numeral w' n)
  end.

(** [String(n)] for an integer [n] (below 1e21 in magnitude, where
    JavaScript switches to exponent notation). *)
Definition decimal (n : Z) : string := NilZero.string_of_int (Z.to_int n).

(** [String(x)] / template interpolation of a possibly-NaN number. *)
Definition numToString (x : JSDate.Num) : string :=
  match x with Some n => decimal n | None => "NaN"%string end.

(** [s.padStart(2, '0')] *)
Definition padStart2 (s : string) : string :=
  match String.length s with
  | O => "00"%string
  | S O => String "0"%char s
  | _ => s
  end.

(** The year field of the ISO format: four digits, or a sign and six digits
    outside 0..9999. *)
Definition isoYear (y : Z) : string :=
  if (0 <=? y) && (y <=? 9999) then numeral 4 y
  else String (if y <? 0 then "-"%char else "+"%char) (numeral 6 (Z.abs y)).

(** [new Date(t).toISOString().split('T')[0]] for a valid time value [t]. *)
Definition isoDateOfTime (t : Z) : string :=
  isoYear (JSDate.YearFromTime t) +:+ "-" +:+
  numeral 2 (JSDate.MonthFromTime t + 1) +:+ "-" +:+
  numeral 2 (JSDate.DateFromTime t).

(** [d.toISOString().split('T')[0]]; [toISOString] throws a RangeError on
    an invalid date, which is [None] here. *)
Definition toISODate (d : JSDate.Date) : option string :=
  option_map isoDateOfTime d.

(** Text comparison of SQLite's default BINARY collation. *)
Definition text_le (a b : string) : bool := String.leb a b.

End JSString.

(** ** Domain models ([domain/models.ts]) and errors *)

Record Keystroke := {
  id : option Z;
  keyCode : Z;
  keyName : string;
  timestamp : Z
}.

Record KeyStats := {
  stat_keyName : string;
  count : Z
}.

(** The logical fields of a record: everything but the assigned [id]. *)
Definition logical (k : Keystroke) : Z * string * Z :=
  (keyCode k, keyName k, timestamp k).

(** The errors the modelled code throws or rejects with. *)
Inductive Error :=
| NotInitialized                 (* Error('Database not initialized') *)
| InvalidTime                    (* RangeError: Invalid time value (toISOString) *)
| BackupNotFound (path : string) (* Error(`Backup file not found: ${backupPath}`) *)
| InvalidPeriod                  (* Error('Month must be between 1 and 12') *)
| FileNotFound (path : string)   (* fs.copyFile: ENOENT *)
| WriteFailed                    (* an I/O error reported by the database *)
| ShapeMismatch.                 (* not an error of the program: see [StatisticsService] *)

Inductive result (A : Type) :=
| Ok (a : A)
| Err (e : Error).
Arguments Ok {A} a.
Arguments Err {A} e.

(** ** The SQLite database ([schema.sql]) and the statements run on it *)
Module Sql.
Local Open Scope Z_scope.

(** A row of table [keystrokes]. *)
Record Row := {
  row_id : Z;
  key_code : Z;
  key_name : string;
  row_timestamp : Z;
  date : string;
  hour : Z
}.

(** A row of table [backups]. *)
Record BackupRow := {
  backup_id : Z;
  backup_path : string;
  created_at : Z
}.

(** The contents of one database file.  The [_seq] fields are the
    AUTOINCREMENT counters of the two tables. *)
Record Database := {
  keystrokes : list Row;
  keystrokes_seq : Z;
  backups : list BackupRow;
  backups_seq : Z
}.

(** A fresh file after [schema.sql] has run. *)
Definition emptyDatabase : Database :=
  {| keystrokes := []; keystrokes_seq := 0; backups := []; backups_seq := 0 |}.

(** [INSERT INTO keystrokes (key_code, key_name, timestamp, date, hour)
     VALUES (?, ?, ?, ?, ?)] *)
Definition insertKeystroke (code : Z) (name : string) (ts : Z)
    (dateStr : string) (hr : Z) (d : Database) : Database :=
  let newId := keystrokes_seq d + 1 in
  {| keystrokes := keystrokes d ++
       [{| row_id := newId; key_code := code; key_name := name;
           row_timestamp := ts; date := dateStr; hour := hr |}];
     keystrokes_seq := newId;
     backups := backups d;
     backups_seq := backups_seq d |}.

(** [INSERT INTO backups (backup_path, created_at) VALUES (?, ?)] *)
Definition insertBackup (path : string) (createdAt : Z) (d : Database) : Database :=
  let newId := backups_seq d + 1 in
  {| keystrokes := keystrokes d;
     keystrokes_seq := keystrokes_seq d;
     backups := backups d ++
       [{| backup_id := newId; backup_path := path; created_at := createdAt |}];
     backups_seq := newId |}.

(** [DELETE FROM keystrokes] *)
Definition deleteKeystrokes (d : Database) : Database :=
  {| keystrokes := [];
     keystrokes_seq := keystrokes_seq d;
     backups := backups d;
     backups_seq := backups_seq d |}.

(** [ORDER BY timestamp]: ascending; the order of rows with equal
    timestamps is the sorter's. *)
Definition timestamp_le (a b : Row) : Prop := row_timestamp a <= row_timestamp b.

#[export] Instance timestamp_le_dec : RelDecision timestamp_le :=
  fun a b => Z_le_dec (row_timestamp a) (row_timestamp b).

Definition toKeystroke (r : Row) : Keystroke :=
  {| id := Some (row_id r); keyCode := key_code r; keyName := key_name r;
     timestamp := row_timestamp r |}.

(** [SELECT id, key_code as keyCode, key_name as keyName, timestamp
     FROM keystrokes WHERE timestamp >= ? AND timestamp <= ? ORDER BY timestamp] *)
Definition selectByTimestamp (startTs endTs : Z) (d : Database) : list Keystroke :=
  map toKeystroke
    (merge_sort timestamp_le
       (List.filter (fun r => (startTs <=? row_timestamp r) && (row_timestamp r <=? endTs))
          (keystrokes d))).

(** [GROUP BY key_name] with [COUNT( * )]: one entry per distinct name. *)
Fixpoint bump (name : string) (acc : list KeyStats) : list KeyStats :=
  match acc with
  | [] => [{| stat_keyName := name; count := 1 |}]
  | s :: acc' =>
      if String.eqb (stat_keyName s) name
      then {| stat_keyName := name; count := count s + 1 |} :: acc'
      else s :: bump name acc'
  end.

Definition groupByKeyName (rows : list Row) : list KeyStats :=
  fold_left (fun acc r => bump (key_name r) acc) rows [].

(** [ORDER BY count DESC] *)
Definition count_ge (a b : KeyStats) : Prop := count b <= count a.

#[export] Instance count_ge_dec : RelDecision count_ge :=
  fun a b => Z_le_dec (count b) (count a).

(** [SELECT key_name as keyName, COUNT( * ) as count FROM keystrokes
     WHERE <cond> GROUP BY key_name ORDER BY count DESC] *)
Definition selectStats (cond : Row -> bool) (d : Database) : list KeyStats :=
  merge_sort count_ge (groupByKeyName (List.filter cond (keystrokes d))).

(** [WHERE date = ?] *)
Definition dateIs (dateStr : string) (r : Row) : bool :=
  String.eqb (date r) dateStr.

(** [WHERE date >= ? AND date <= ?] *)
Definition dateBetween (startDate endDate : string) (r : Row) : bool :=
  JSString.text_le startDate (date r) && JSString.text_le (date r) endDate.

(** [ORDER BY created_at DESC] *)
Definition created_ge (a b : BackupRow) : Prop := created_at b <= created_at a.

#[export] Instance created_ge_dec : RelDecision created_ge :=
  fun a b => Z_le_dec (created_at b) (created_at a).

(** [SELECT backup_path as backupPath, created_at as createdAt FROM backups
     ORDER BY created_at DESC], before the projection. *)
Definition selectBackups (d : Database) : list BackupRow :=
  merge_sort created_ge (backups d).

(** [MIN(timestamp)] and [MAX(timestamp)]: NULL over no rows. *)
Definition minTimestamp (rows : list Row) : option Z :=
  match rows with
  | [] => None
  | r :: rest =>
      Some (fold_left (fun m x => Z.min m (row_timestamp x)) rest (row_timestamp r))
  end.

Definition maxTimestamp (rows : list Row) : option Z :=
  match rows with
  | [] => None
  | r :: rest =>
      Some (fold_left (fun m x => Z.max m (row_timestamp x)) rest (row_timestamp r))
  end.

(** [COUNT(DISTINCT key_name)] *)
Definition countDistinctKeyName (rows : list Row) : Z :=
  Z.of_nat (length (remove_dups (map key_name rows))).

(** The one row of
    [SELECT COUNT( * ) as total, MIN(timestamp) as oldest,
            MAX(timestamp) as newest, COUNT(DISTINCT key_name) as uniqueKeys
     FROM keystrokes] *)
Record Totals := {
  row_total : Z;
  row_oldest : option Z;
  row_newest : option Z;
  row_uniqueKeys : Z
}.

Definition selectTotals (d : Database) : Totals :=
  {| row_total := Z.of_nat (length (keystrokes d));
     row_oldest := minTimestamp (keystrokes d);
     row_newest := maxTimestamp (keystrokes d);
     row_uniqueKeys := countDistinctKeyName (keystrokes d) |}.

End Sql.

(** ** KeystrokeRepository *)
Module KeystrokeRepository.
Import Sql.
Local Open Scope Z_scope.

(** [db] is [this.db !== null]; [fs] is the disk: database files by path.
    The open connection reads and writes the file at [dbPath]. *)
Record t := {
  dbPath : string;
  db : bool;
  fs : gmap string Database
}.

(** [new KeystrokeRepository(dbPath)] on a disk [disk]. *)
Definition create (path : string) (disk : gmap string Database) : t :=
  {| dbPath := path; db := false; fs := disk |}.

(** The database the connection sees. *)
Definition current (r : t) : Database :=
  match fs r !! dbPath r with
  | Some d => d
  | None => emptyDatabase
  end.

(** The connection is open and its file is on disk, as after
    [initialize]. *)
Definition opened (r : t) : bool :=
  db r && match fs r !! dbPath r with Some _ => true | None => false end.

Definition write (d : Database) (r : t) : t :=
  {| dbPath := dbPath r; db := db r; fs := <[dbPath r := d]> (fs r) |}.

(** [initialize]: open (creating the file if missing) and run the schema,
    whose statements are all [IF NOT EXISTS].  The schema file is taken to
    be installed and the open to succeed. *)
Definition initialize (r : t) : result unit * t :=
  (Ok tt,
   {| dbPath := dbPath r;
      db := true;
      fs := match fs r !! dbPath r with
            | Some _ => fs r
            | None => <[dbPath r := emptyDatabase]> (fs r)
            end |}).

(** The loop of [save]: derive [date] and [hour] from the timestamp in UTC
    and queue the INSERT.  [toISOString] throws on an invalid time value,
    which ends the loop; the result is what was thrown, if anything, and
    the table with the rows of the INSERTs queued until then. *)
Fixpoint insertAll (keystrokes : list Keystroke) (d : Database) : result unit * Database :=
  match keystrokes with
  | [] => (Ok tt, d)
  | keystroke :: rest =>
      let date := JSDate.ofTime (timestamp keystroke) in
      match JSString.toISODate date, JSDate.getUTCHours date with
      | Some dateStr, Some hour =>
          insertAll rest
            (insertKeystroke (keyCode keystroke) (keyName keystroke)
               (timestamp keystroke) dateStr hour d)
      | _, _ => (Err InvalidTime, d)
      end
  end.

(** [save(keystrokes)].  When the loop throws, the promise is rejected
    with BEGIN and the INSERTs of the earlier records queued and neither
    COMMIT nor ROLLBACK after them: their rows are in the table the
    connection reads from then on. *)
Definition save (keystrokes : list Keystroke) (r : t) : result unit * t :=
  if negb (db r) then (Err NotInitialized, r)
  else match keystrokes with
       | [] => (Ok tt, r)
       | _ =>
           let (thrown, d') := insertAll keystrokes (current r) in
           (thrown, write d' r)
       end.

(** The same loop when the database reports an error on a statement of
    the batch: [written] tells, for each record in turn, whether the row
    of its INSERT is in the table afterwards. *)
Fixpoint insertWritten (written : list bool) (keystrokes : list Keystroke) (d : Database)
    : Database :=
  match keystrokes with
  | [] => d
  | keystroke :: rest =>
      let date := JSDate.ofTime (timestamp keystroke) in
      match JSString.toISODate date, JSDate.getUTCHours date with
      | Some dateStr, Some hour =>
          insertWritten (tl written) rest
            (if hd false written
             then insertKeystroke (keyCode keystroke) (keyName keystroke)
                    (timestamp keystroke) dateStr hour d
             else d)
      | _, _ => d
      end
  end.

(** [save(keystrokes)] when the database reports an error on an INSERT or
    on the COMMIT: the promise is rejected.  The only ROLLBACK of [save] is
    issued from the callback of a failed INSERT, by when the remaining
    INSERTs and the COMMIT are queued, and none is issued when the COMMIT
    fails; so rows of the batch can be in the table afterwards, and which
    of them is for the database to tell ([written]). *)
Definition saveWithError (written : list bool) (keystrokes : list Keystroke) (r : t)
    : result unit * t :=
  if negb (db r) then (Err NotInitialized, r)
  else match keystrokes with
       | [] => (Ok tt, r)
       | _ =>
           (match fst (insertAll keystrokes (current r)) with
            | Err e => Err e
            | Ok _ => Err WriteFailed
            end,
            write (insertWritten written keystrokes (current r)) r)
       end.

(** [getByDateRange(start, end)]: a NaN bound is bound as NULL, and no row
    compares with NULL. *)
Definition getByDateRange (start end_ : JSDate.Date) (r : t) : result (list Keystroke) :=
  if negb (db r) then Err NotInitialized
  else match JSDate.getTime start, JSDate.getTime end_ with
       | Some startTimestamp, Some endTimestamp =>
           Ok (selectByTimestamp startTimestamp endTimestamp (current r))
       | _, _ => Ok []
       end.

(** ['day' | 'month' | 'year'] *)
Inductive Period := PerDay | PerMonth | PerYear.

(** [getStatsByPeriod(period, date)] on a machine in time zone [tza]. *)
Definition getStatsByPeriod (tza : Z) (period : Period) (date : JSDate.Date)
    (r : t) : result (list KeyStats) :=
  if negb (db r) then Err NotInitialized
  else match period with
       | PerDay =>
           match JSString.toISODate date with
           | Some dateStr => Ok (selectStats (dateIs dateStr) (current r))
           | None => Err InvalidTime
           end
       | PerMonth =>
           let year := JSDate.getFullYear tza date in
           let month := JSDate.numAdd (JSDate.getMonth tza date) 1 in
           let startDate :=
             JSString.numToString year +:+ "-" +:+
             JSString.padStart2 (JSString.numToString month) +:+ "-01" in
           let lastDay :=
             JSDate.getDate tza (JSDate.ofLocalYMD tza year month (Some 0)) in
           let endDate :=
             JSString.numToString year +:+ "-" +:+
             JSString.padStart2 (JSString.numToString month) +:+ "-" +:+
             JSString.padStart2 (JSString.numToString lastDay) in
           Ok (selectStats (dateBetween startDate endDate) (current r))
       | PerYear =>
           let year := JSDate.getFullYear tza date in
           let startDate := JSString.numToString year +:+ "-01-01" in
           let endDate := JSString.numToString year +:+ "-12-31" in
           Ok (selectStats (dateBetween startDate endDate) (current r))
       end.

(** [clear()] *)
Definition clear (r : t) : result unit * t :=
  if negb (db r) then (Err NotInitialized, r)
  else (Ok tt, write (deleteKeystrokes (current r)) r).

(** [fs.copyFile(src, dest)] *)
Definition copyFile (src dest : string) (disk : gmap string Database)
    : result (gmap string Database) :=
  match disk !! src with
  | Some contents => Ok (<[dest := contents]> disk)
  | None => Err (FileNotFound src)
  end.

(** [backup()] when [Date.now()] is [now]: copy the file, then record the
    backup in the live database. *)
Definition backup (now : Z) (r : t) : result string * t :=
  if negb (db r) then (Err NotInitialized, r)
  else
    let timestamp := now in
    let backupPath := dbPath r +:+ ".backup." +:+ JSString.decimal timestamp in
    match copyFile (dbPath r) backupPath (fs r) with
    | Err e => (Err e, r)
    | Ok disk =>
        let r1 := {| dbPath := dbPath r; db := db r; fs := disk |} in
        (Ok backupPath, write (insertBackup backupPath timestamp (current r1)) r1)
    end.

(** [restore(backupPath)]: existence check, close, copy over the database
    file, reopen. *)
Definition restore (backupPath : string) (r : t) : result unit * t :=
  if negb (db r) then (Err NotInitialized, r)
  else match fs r !! backupPath with
       | None => (Err (BackupNotFound backupPath), r)
       | Some _ =>
           match copyFile backupPath (dbPath r) (fs r) with
           | Err e => (Err e, r)
           | Ok disk => initialize {| dbPath := dbPath r; db := db r; fs := disk |}
           end
       end.

(** [close()] *)
Definition close (r : t) : result unit * t :=
  if negb (db r) then (Ok tt, r)
  else (Ok tt, {| dbPath := dbPath r; db := false; fs := fs r |}).

(** [fs.existsSync(path)] *)
Definition existsSync (path : string) (disk : gmap string Database) : bool :=
  match disk !! path with Some _ => true | None => false end.

(** An entry of the list [getBackups] resolves with. *)
Record Backup := {
  backupPath : string;
  createdAt : Z
}.

(** [getBackups()]: newest first, without the backups whose file is gone. *)
Definition getBackups (r : t) : result (list Backup) :=
  if negb (db r) then Err NotInitialized
  else
    let rows :=
      map (fun b => {| backupPath := backup_path b; createdAt := created_at b |})
          (selectBackups (current r)) in
    let existingBackups := List.filter (fun row => existsSync (backupPath row) (fs r)) rows in
    Ok existingBackups.

(** [value || 0] on a number. *)
Definition orZero (value : Z) : Z := if value =? 0 then 0 else value.

Record Stats := {
  totalKeystrokes : Z;
  oldestKeystroke : option Z;
  newestKeystroke : option Z;
  uniqueKeys : Z
}.

(** [getStats()] *)
Definition getStats (r : t) : result Stats :=
  if negb (db r) then Err NotInitialized
  else
    let row := selectTotals (current r) in
    Ok {| totalKeystrokes := orZero (row_total row);
          oldestKeystroke := row_oldest row;
          newestKeystroke := row_newest row;
          uniqueKeys := orZero (row_uniqueKeys row) |}.

End KeystrokeRepository.

(** ** StatisticsService *)
Module StatisticsService.
Import KeystrokeRepository.
Local Open Scope Z_scope.

Record DailyStats := {
  ds_date : JSDate.Date;
  ds_totalKeystrokes : Z;
  ds_keyBreakdown : list KeyStats
}.

Record MonthlyStats := {
  ms_year : Z;
  ms_month : Z;
  ms_totalKeystrokes : Z;
  dailyTrend : list (JSDate.Date * Z);
  ms_keyBreakdown : list KeyStats
}.

Record YearlyStats := {
  ys_year : Z;
  ys_totalKeystrokes : Z;
  monthlyTrend : list (Z * Z);
  ys_keyBreakdown : list KeyStats
}.

(** [CacheEntry<any>]: the three shapes the service stores. *)
Inductive CacheData :=
| DailyData (v : DailyStats)
| MonthlyData (v : MonthlyStats)
| YearlyData (v : YearlyStats).

Record CacheEntry := {
  data : CacheData;
  expiresAt : Z
}.

(** The service's own state.  [queries] records every call made to
    [repository.getStatsByPeriod], oldest first; the repository itself is
    shared with the rest of the program and is passed to each method as it
    is at the time of the call.  [getFromCache<T>] casts what it finds to
    the caller's [T]; a cached value of another method's shape is reported
    here as [ShapeMismatch], which the key prefixes rule out. *)
Record t := {
  cache : gmap string CacheEntry;
  queries : list (Period * JSDate.Date)
}.

Definition create : t := {| cache := ∅; queries := [] |}.

Definition CACHE_TTL_MS : Z := 5 * 60 * 1000.

(** [`${type}:${params.join(':')}`] *)
Definition getCacheKey (type : string) (params : list JSDate.Num) : string :=
  type +:+ ":" +:+ String.concat ":" (map JSString.numToString params).

(** [getFromCache(key)] when [Date.now()] is [now]. *)
Definition getFromCache (now : Z) (key : string) (s : t) : option CacheData * t :=
  match cache s !! key with
  | None => (None, s)
  | Some entry =>
      if expiresAt entry <? now
      then (None, {| cache := delete key (cache s); queries := queries s |})
      else (Some (data entry), s)
  end.

(** [setCache(key, data)] *)
Definition setCache (now : Z) (key : string) (v : CacheData) (s : t) : t :=
  {| cache := <[key := {| data := v; expiresAt := now + CACHE_TTL_MS |}]> (cache s);
     queries := queries s |}.

(** [clearCache()] *)
Definition clearCache (s : t) : t := {| cache := ∅; queries := queries s |}.

(** [await this.repository.getStatsByPeriod(period, date)] *)
Definition query (tza : Z) (period : Period) (date : JSDate.Date)
    (repository : KeystrokeRepository.t) (s : t) : result (list KeyStats) * t :=
  (getStatsByPeriod tza period date repository,
   {| cache := cache s; queries := queries s ++ [(period, date)] |}).

(** [stats.reduce((sum, stat) => sum + stat.count, 0)] *)
Definition sumCounts (stats : list KeyStats) : Z :=
  fold_left (fun sum stat => sum + count stat) stats 0.

(** [getDailyStats(date)] *)
Definition getDailyStats (tza now : Z) (date : JSDate.Date)
    (repository : KeystrokeRepository.t) (s : t) : result DailyStats * t :=
  let normalizedDate :=
    JSDate.ofNum (JSDate.UTC (JSDate.getUTCFullYear date) (JSDate.getUTCMonth date)
                    (JSDate.getUTCDate date) (Some 0) (Some 0) (Some 0) (Some 0)) in
  let cacheKey := getCacheKey "daily" [JSDate.getTime normalizedDate] in
  match getFromCache now cacheKey s with
  | (Some (DailyData cached), s1) => (Ok cached, s1)
  | (Some _, s1) => (Err ShapeMismatch, s1)
  | (None, s1) =>
      match query tza PerDay normalizedDate repository s1 with
      | (Err e, s2) => (Err e, s2)
      | (Ok keyBreakdown, s2) =>
          let totalKeystrokes := sumCounts keyBreakdown in
          let result :=
            {| ds_date := normalizedDate;
               ds_totalKeystrokes := totalKeystrokes;
               ds_keyBreakdown := keyBreakdown |} in
          (Ok result, setCache now cacheKey (DailyData result) s2)
      end
  end.

(** The loop [for (let day = 1; day <= daysInMonth; day++)] of
    [getDailyTrendForMonth], over the values [day] takes. *)
Fixpoint dailyTrendLoop (tza : Z) (year month : Z) (days : list Z)
    (repository : KeystrokeRepository.t) (acc : list (JSDate.Date * Z)) (s : t)
    : result (list (JSDate.Date * Z)) * t :=
  match days with
  | [] => (Ok acc, s)
  | day :: rest =>
      let date :=
        JSDate.ofNum (JSDate.UTC (Some year) (Some (month - 1)) (Some day)
                        (Some 0) (Some 0) (Some 0) (Some 0)) in
      match query tza PerDay date repository s with
      | (Err e, s1) => (Err e, s1)
      | (Ok dayStats, s1) =>
          let count := sumCounts dayStats in
          dailyTrendLoop tza year month rest repository (acc ++ [(date, count)]) s1
      end
  end.

(** The values of a counter running from [1] to [n]; none when [n] is NaN
    or below [1]. *)
Definition upTo (n : JSDate.Num) : list Z :=
  match n with
  | Some k => map Z.of_nat (seq 1 (Z.to_nat k))
  | None => []
  end.

(** [getDailyTrendForMonth(year, month)] *)
Definition getDailyTrendForMonth (tza : Z) (year month : Z)
    (repository : KeystrokeRepository.t) (s : t)
    : result (list (JSDate.Date * Z)) * t :=
  let daysInMonth :=
    JSDate.getDate tza (JSDate.ofLocalYMD tza (Some year) (Some month) (Some 0)) in
  dailyTrendLoop tza year month (upTo daysInMonth) repository [] s.

(** [getMonthlyStats(year, month)] *)
Definition getMonthlyStats (tza now : Z) (year month : Z)
    (repository : KeystrokeRepository.t) (s : t) : result MonthlyStats * t :=
  if (month <? 1) || (month >? 12) then (Err InvalidPeriod, s)
  else
    let cacheKey := getCacheKey "monthly" [Some year; Some month] in
    match getFromCache now cacheKey s with
    | (Some (MonthlyData cached), s1) => (Ok cached, s1)
    | (Some _, s1) => (Err ShapeMismatch, s1)
    | (None, s1) =>
        let monthDate := JSDate.ofLocalYMD tza (Some year) (Some (month - 1)) (Some 1) in
        match query tza PerMonth monthDate repository s1 with
        | (Err e, s2) => (Err e, s2)
        | (Ok keyBreakdown, s2) =>
            let totalKeystrokes := sumCounts keyBreakdown in
            match getDailyTrendForMonth tza year month repository s2 with
            | (Err e, s3) => (Err e, s3)
            | (Ok trend, s3) =>
                let result :=
                  {| ms_year := year;
                     ms_month := month;
                     ms_totalKeystrokes := totalKeystrokes;
                     dailyTrend := trend;
                     ms_keyBreakdown := keyBreakdown |} in
                (Ok result, setCache now cacheKey (MonthlyData result) s3)
            end
        end
    end.

(** The loop [for (let month = 1; month <= 12; month++)] of
    [getMonthlyTrendForYear]. *)
Fixpoint monthlyTrendLoop (tza : Z) (year : Z) (months : list Z)
    (repository : KeystrokeRepository.t) (acc : list (Z * Z)) (s : t)
    : result (list (Z * Z)) * t :=
  match months with
  | [] => (Ok acc, s)
  | month :: rest =>
      let date :=
        JSDate.ofNum (JSDate.UTC (Some year) (Some (month - 1)) (Some 1)
                        (Some 0) (Some 0) (Some 0) (Some 0)) in
      match query tza PerMonth date repository s with
      | (Err e, s1) => (Err e, s1)
      | (Ok monthStats, s1) =>
          let count := sumCounts monthStats in
          monthlyTrendLoop tza year rest repository (acc ++ [(month, count)]) s1
      end
  end.

(** [getMonthlyTrendForYear(year)] *)
Definition getMonthlyTrendForYear (tza : Z) (year : Z)
    (repository : KeystrokeRepository.t) (s : t) : result (list (Z * Z)) * t :=
  monthlyTrendLoop tza year (upTo (Some 12)) repository [] s.

(** [getYearlyStats(year)] *)
Definition getYearlyStats (tza now : Z) (year : Z)
    (repository : KeystrokeRepository.t) (s : t) : result YearlyStats * t :=
  let cacheKey := getCacheKey "yearly" [Some year] in
  match getFromCache now cacheKey s with
  | (Some (YearlyData cached), s1) => (Ok cached, s1)
  | (Some _, s1) => (Err ShapeMismatch, s1)
  | (None, s1) =>
      let yearDate := JSDate.ofLocalYMD tza (Some year) (Some 0) (Some 1) in
      match query tza PerYear yearDate repository s1 with
      | (Err e, s2) => (Err e, s2)
      | (Ok keyBreakdown, s2) =>
          let totalKeystrokes := sumCounts keyBreakdown in
          match getMonthlyTrendForYear tza year repository s2 with
          | (Err e, s3) => (Err e, s3)
          | (Ok trend, s3) =>
              let result :=
                {| ys_year := year;
                   ys_totalKeystrokes := totalKeystrokes;
                   monthlyTrend := trend;
                   ys_keyBreakdown := keyBreakdown |} in
              (Ok result, setCache now cacheKey (YearlyData result) s3)
          end
      end
  end.

(** [arr.slice(0, limit)] for an integer [limit]: a negative [limit]
    counts from the end. *)
Definition slice0 {A : Type} (arr : list A) (limit : Z) : list A :=
  if limit <? 0
  then firstn (Z.to_nat (Z.of_nat (length arr) + limit)) arr
  else firstn (Z.to_nat limit) arr.

(** The adjacent-pair form of "sorted by count, descending". *)
Definition sortedByCountDesc (breakdown : list KeyStats) : Prop :=
  forall (i : nat) (a b : KeyStats),
    breakdown !! i = Some a -> breakdown !! S i = Some b -> count a >= count b.

(** [getTopKeys(period, date, limit)] *)
Definition getTopKeys (tza : Z) (period : Period) (date : JSDate.Date) (limit : Z)
    (repository : KeystrokeRepository.t) (s : t) : result (list KeyStats) * t :=
  match query tza period date repository s with
  | (Err e, s1) => (Err e, s1)
  | (Ok stats, s1) => (Ok (slice0 stats limit), s1)
  end.

(** The states a service can be in: created with an empty cache, then any
    sequence of calls, each at its own time and against whatever the
    repository holds at that moment, on machines and stores that satisfy
    [R]. *)
Inductive reachableWith (R : Z -> KeystrokeRepository.t -> Prop) : t -> Prop :=
| reach_create : reachableWith R create
| reach_clearCache s : reachableWith R s -> reachableWith R (clearCache s)
| reach_getDailyStats tza now date repository s :
    R tza repository -> reachableWith R s ->
    reachableWith R (snd (getDailyStats tza now date repository s))
| reach_getMonthlyStats tza now year month repository s :
    R tza repository -> reachableWith R s ->
    reachableWith R (snd (getMonthlyStats tza now year month repository s))
| reach_getYearlyStats tza now year repository s :
    R tza repository -> reachableWith R s ->
    reachableWith R (snd (getYearlyStats tza now year repository s))
| reach_getTopKeys tza period date limit repository s :
    reachableWith R s ->
    reachableWith R (snd (getTopKeys tza period date limit repository s)).

(** No restriction on machines and stores. *)
Definition reachable : t -> Prop := reachableWith (fun _ _ => True).

End StatisticsService.

(** ** KeystrokeBuffer *)
Module KeystrokeBuffer.
Local Open Scope Z_scope.

Definition maxSize : Z := 100.
Definition flushInterval : Z := 1000.
Definition maxRetries : Z := 3.
Definition retryDelay : Z := 1000.

(** The buffer between two turns of the event loop.  [pending] is the call
    of [flushWithRetry(keystrokes, attempt)] whose [repository.save] has not
    settled yet.  The last three fields observe the run: the arguments of
    every [repository.save] call, every back-off delay waited, and the
    payload of every ['flushed'] event, oldest first. *)
Record t := {
  buffer : list Keystroke;
  isFlushingInProgress : bool;
  pending : option (list Keystroke * Z);
  repository : KeystrokeRepository.t;
  saveCalls : list (list Keystroke);
  delays : list Z;
  flushed : list Z
}.

(** [new KeystrokeBuffer(repository)] *)
Definition create (repo : KeystrokeRepository.t) : t :=
  {| buffer := []; isFlushingInProgress := false; pending := None;
     repository := repo; saveCalls := []; delays := []; flushed := [] |}.

(** What happens between two turns: a key is added, [flush()] is called
    (by the timer, by [stop()] or by hand), or the pending
    [repository.save] settles.  [ioError] is [None] when the database
    reports no error; otherwise it tells which rows of the batch the
    rejected write has left in the table. *)
Inductive Event :=
| Add (keystroke : Keystroke)
| CallFlush
| SaveSettles (ioError : option (list bool)).

(** [flush()] up to its first [await]: the guards, the swap of the queue,
    and the first call of [repository.save]. *)
Definition flush (s : t) : t :=
  if isFlushingInProgress s then s
  else match buffer s with
       | [] => s
       | _ =>
           let keystrokesToFlush := buffer s in
           {| buffer := [];
              isFlushingInProgress := true;
              pending := Some (keystrokesToFlush, 0);
              repository := repository s;
              saveCalls := saveCalls s ++ [keystrokesToFlush];
              delays := delays s;
              flushed := flushed s |}
       end.

(** [add(keystroke)] *)
Definition add (keystroke : Keystroke) (s : t) : t :=
  flush {| buffer := buffer s ++ [keystroke];
           isFlushingInProgress := isFlushingInProgress s;
           pending := pending s;
           repository := repository s;
           saveCalls := saveCalls s;
           delays := delays s;
           flushed := flushed s |}.

(** The outcome of the pending [repository.save(keystrokes)]. *)
Definition attempt_save (ioError : option (list bool)) (keystrokes : list Keystroke)
    (repo : KeystrokeRepository.t) : result unit * KeystrokeRepository.t :=
  match ioError with
  | None => KeystrokeRepository.save keystrokes repo
  | Some written => KeystrokeRepository.saveWithError written keystrokes repo
  end.

(** The rest of [flushWithRetry(keystrokes, attempt)] once its [save] has
    settled, and of [flush()] when it returns or throws. *)
Definition settle (ioError : option (list bool)) (s : t) : t :=
  match pending s with
  | None => s
  | Some (keystrokes, attempt) =>
      match attempt_save ioError keystrokes (repository s) with
      | (Ok _, repo) =>
          {| buffer := buffer s;
             isFlushingInProgress := false;
             pending := None;
             repository := repo;
             saveCalls := saveCalls s;
             delays := delays s;
             flushed := flushed s ++ [Z.of_nat (length keystrokes)] |}
      | (Err _, repo) =>
          if attempt <? maxRetries then
            let delay := retryDelay * 2 ^ attempt in
            {| buffer := buffer s;
               isFlushingInProgress := true;
               pending := Some (keystrokes, attempt + 1);
               repository := repo;
               saveCalls := saveCalls s ++ [keystrokes];
               delays := delays s ++ [delay];
               flushed := flushed s |}
          else
            {| buffer := keystrokes ++ buffer s;
               isFlushingInProgress := false;
               pending := None;
               repository := repo;
               saveCalls := saveCalls s;
               delays := delays s;
               flushed := flushed s |}
      end
  end.

Definition step (s : t) (e : Event) : t :=
  match e with
  | Add keystroke => add keystroke s
  | CallFlush => flush s
  | SaveSettles ioError => settle ioError s
  end.

Definition run (events : list Event) (s : t) : t := fold_left step events s.

(** [size()] *)
Definition size (s : t) : Z := Z.of_nat (length (buffer s)).

(** The buffer with its interval timer: [flushTimer] tells whether an
    interval set by [startFlushTimer] is running. *)
Record timed := {
  core : t;
  flushTimer : bool
}.

(** [new KeystrokeBuffer(repository)]: the constructor starts the timer. *)
Definition createTimed (repo : KeystrokeRepository.t) : timed :=
  {| core := create repo; flushTimer := true |}.

(** [flush()] with its call of [resetFlushTimer()], which clears the timer
    if there is one and starts a new one in any case. *)
Definition flushTimed (s : timed) : timed :=
  if isFlushingInProgress (core s) then s
  else match buffer (core s) with
       | [] => s
       | _ => {| core := flush (core s); flushTimer := true |}
       end.

(** [stop()] up to the first [await] of its [flush()]. *)
Definition stop (s : timed) : timed :=
  flushTimed {| core := core s; flushTimer := false |}.

End KeystrokeBuffer.

(** ** ExportService *)
Module ExportService.
Local Open Scope Z_scope.

(** The double quote. *)
Definition quote : ascii := ascii_of_nat 34.

(** [escapeCSV(value)]: a global [replace] of the double quote by two
    double quotes. *)
Fixpoint escapeCSV (value : string) : string :=
  match value with
  | EmptyString => EmptyString
  | String c rest =>
      if Ascii.eqb c quote then String quote (String quote (escapeCSV rest))
      else String c (escapeCSV rest)
  end.

(** [a < b] and [a > b] for a number [a] and a possibly-NaN number [b]:
    false when [b] is NaN. *)
Definition ltNum (a : Z) (b : JSDate.Num) : bool :=
  match b with Some y => a <? y | None => false end.

Definition gtNum (a : Z) (b : JSDate.Num) : bool :=
  match b with Some y => a >? y | None => false end.

(** [filterByDateRange(data, startDate?, endDate?)]: an argument that is
    left out is [None]; a [Date] object, valid or not, is truthy. *)
Definition filterByDateRange (data : list Keystroke)
    (startDate endDate : option JSDate.Date) : list Keystroke :=
  match startDate, endDate with
  | None, None => data
  | _, _ =>
      List.filter
        (fun keystroke =>
           let timestamp := timestamp keystroke in
           if match startDate with
              | Some d => ltNum timestamp (JSDate.getTime d)
              | None => false
              end
           then false
           else if match endDate with
                   | Some d => gtNum timestamp (JSDate.getTime d)
                   | None => false
                   end
                then false
                else true)
        data
  end.

End ExportService.

(** [KeystrokeEvent] of [domain/models.ts]. *)
Record KeystrokeEvent := {
  event_keyCode : Z;
  event_keyName : string;
  event_timestamp : Z
}.

(** ** KeyboardListener *)
Module KeyboardListener.
Local Open Scope Z_scope.

Definition MIN_EVENT_INTERVAL : Z := 200.

(** The name of key 43, one backslash. *)
Definition backslash : string := String (ascii_of_nat 92) EmptyString.

(** [KEY_CODE_MAP]: uiohook key codes and their names. *)
Definition KEY_CODE_MAP : list (Z * string) :=
  [(30, "A"); (48, "B"); (46, "C"); (32, "D"); (18, "E"); (33, "F"); (34, "G");
   (35, "H"); (23, "I"); (36, "J"); (37, "K"); (38, "L"); (50, "M"); (49, "N");
   (24, "O"); (25, "P"); (16, "Q"); (19, "R"); (31, "S"); (20, "T"); (22, "U");
   (47, "V"); (17, "W"); (45, "X"); (21, "Y"); (44, "Z"); (2, "1"); (3, "2"); (4, "3");
   (5, "4"); (6, "5"); (7, "6"); (8, "7"); (9, "8"); (10, "9"); (11, "0"); (59, "F1");
   (60, "F2"); (61, "F3"); (62, "F4"); (63, "F5"); (64, "F6"); (65, "F7"); (66, "F8");
   (67, "F9"); (68, "F10"); (87, "F11"); (88, "F12"); (42, "Shift"); (29, "Ctrl");
   (56, "Alt"); (3675, "Meta"); (54, "RightShift"); (3613, "RightCtrl");
   (3640, "RightAlt"); (28, "Enter"); (57, "Space"); (14, "Backspace"); (15, "Tab");
   (1, "Escape"); (58, "CapsLock"); (3657, "PageUp"); (3665, "PageDown");
   (3666, "Insert"); (3667, "Delete"); (3655, "Home"); (3663, "End");
   (3639, "PrintScreen"); (3653, "Pause"); (57416, "Up"); (57424, "Down");
   (57419, "Left"); (57421, "Right"); (12, "-"); (13, "="); (26, "["); (27, "]");
   (43, backslash); (39, ";"); (40, "'"); (41, "`"); (51, ","); (52, "."); (53, "/");
   (82, "Numpad0"); (79, "Numpad1"); (80, "Numpad2"); (81, "Numpad3"); (75, "Numpad4");
   (76, "Numpad5"); (77, "Numpad6"); (71, "Numpad7"); (72, "Numpad8"); (73, "Numpad9");
   (55, "NumpadMultiply"); (74, "NumpadMinus"); (78, "NumpadPlus");
   (3612, "NumpadEnter"); (83, "NumpadDecimal"); (3637, "NumpadDivide");
   (69, "NumLock"); (61010, "Insert"); (61007, "End"); (61008, "Down");
   (61009, "PageDown"); (61003, "Left"); (57420, "Clear"); (61005, "Right");
   (60999, "Home"); (61000, "Up"); (61001, "PageUp"); (61011, "Delete");
   (57378, "MediaPlayPause"); (57380, "MediaStop"); (57360, "MediaPrevious");
   (57369, "MediaNext"); (57390, "VolumeMute"); (57392, "VolumeDown");
   (57391, "VolumeUp"); (70, "ScrollLock")]%Z.

(** [KEY_CODE_MAP[keyCode]], [None] for [undefined]. *)
Definition keyName (keyCode : Z) : option string :=
  option_map snd (List.find (fun entry => fst entry =? keyCode) KEY_CODE_MAP).

(** [isValidKeyCode(keyCode)] *)
Definition isValidKeyCode (keyCode : Z) : bool :=
  if keyCode =? 0 then false
  else match keyName keyCode with Some _ => true | None => false end.

(** [keyCodeToName(keyCode)] *)
Definition keyCodeToName (keyCode : Z) : string :=
  match keyName keyCode with
  | Some name => name
  | None => "Key" +:+ JSString.decimal keyCode
  end.

(** The fields [handleKeyEvent] reads and writes, and the ['keystroke']
    events emitted so far, oldest first.  [processingEvent] is left out:
    the handler runs to its end before the next event is delivered, so the
    flag is [false] whenever the handler is entered. *)
Record t := {
  eventCache : gmap string Z;
  lastEventTimestamp : Z;
  lastEventKeyCode : Z;
  emitted : list KeystrokeEvent
}.

(** [new KeyboardListener()] *)
Definition create : t :=
  {| eventCache := ∅; lastEventTimestamp := 0; lastEventKeyCode := -1; emitted := [] |}.

(** [handleKeyEvent(event)] when [Date.now()] is [now]. *)
Definition handleKeyEvent (now : Z) (keycode : Z) (s : t) : t :=
  if negb (isValidKeyCode keycode) then s
  else
    let eventKey := JSString.decimal keycode in
    let lastSeenTime := eventCache s !! eventKey in
    if match lastSeenTime with
       | Some seen => negb (seen =? 0) && (now - seen <? MIN_EVENT_INTERVAL)
       | None => false
       end
    then s
    else if (keycode =? lastEventKeyCode s)
            && (now - lastEventTimestamp s <? MIN_EVENT_INTERVAL)
    then s
    else
      {| eventCache := <[eventKey := now]> (eventCache s);
         lastEventTimestamp := now;
         lastEventKeyCode := keycode;
         emitted := emitted s ++
           [{| event_keyCode := keycode;
               event_keyName := keyCodeToName keycode;
               event_timestamp := now |}] |}.

(** The interval callback of the constructor when [Date.now()] is [now]:
    entries older than twice the minimum interval are deleted. *)
Definition cleanup (now : Z) (s : t) : t :=
  {| eventCache := filter (fun entry => ~ (now - snd entry > MIN_EVENT_INTERVAL * 2))
                          (eventCache s);
     lastEventTimestamp := lastEventTimestamp s;
     lastEventKeyCode := lastEventKeyCode s;
     emitted := emitted s |}.

(** A key goes down, or the cleanup interval fires, at time [now]. *)
Inductive Event :=
| KeyDown (now : Z) (keycode : Z)
| Cleanup (now : Z).

Definition time (e : Event) : Z :=
  match e with KeyDown now _ => now | Cleanup now => now end.

Definition step (s : t) (e : Event) : t :=
  match e with
  | KeyDown now keycode => handleKeyEvent now keycode s
  | Cleanup now => cleanup now s
  end.

Definition run (events : list Event) (s : t) : t := fold_left step events s.

End KeyboardListener.

(** ** The wiring of [main.ts] *)
Module Main.

(** The ['reset-data'] handler: [backup()], then [clear()]; resolves with
    the path of the backup. *)
Definition resetData (now : Z) (repository : KeystrokeRepository.t)
    : result string * KeystrokeRepository.t :=
  match KeystrokeRepository.backup now repository with
  | (Err e, r1) => (Err e, r1)
  | (Ok backupPath, r1) =>
      match KeystrokeRepository.clear r1 with
      | (Err e, r2) => (Err e, r2)
      | (Ok _, r2) => (Ok backupPath, r2)
      end
  end.

End Main.

(** ** Auxiliary definitions for the statements below *)

(** The sum of the counts of a breakdown. *)
Definition countsTotal (l : list KeyStats) : Z :=
  fold_right (fun stat acc => (count stat + acc)%Z) 0%Z l.

(** [WHERE timestamp >= ? AND timestamp <= ?] on a record. *)
Definition inRange (startTs endTs : Z) (k : Keystroke) : bool :=
  ((startTs <=? timestamp k) && (timestamp k <=? endTs))%Z.

(** The logical fields of a stored row. *)
Definition rowLogical (r : Sql.Row) : Z * string * Z :=
  (Sql.key_code r, Sql.key_name r, Sql.row_timestamp r).

(** A row as [save] writes it: [date] and [hour] are the UTC calendar date
    and the UTC hour of a valid [timestamp]. *)
Definition rowDerived (r : Sql.Row) : Prop :=
  (Z.abs (Sql.row_timestamp r) <= JSDate.maxTimeValue)%Z /\
  Sql.date r = JSString.isoDateOfTime (Sql.row_timestamp r) /\
  Sql.hour r = JSDate.HourFromTime (Sql.row_timestamp r).

(** What a cached value must satisfy to be a faithful answer: the total is
    the sum of the breakdown, and the breakdown is in descending order of
    count. *)
Definition breakdownOK (total : Z) (breakdown : list KeyStats) : Prop :=
  total = countsTotal breakdown /\ Sorted Sql.count_ge breakdown.

Definition dataOK (v : StatisticsService.CacheData) : Prop :=
  match v with
  | StatisticsService.DailyData d =>
      breakdownOK (StatisticsService.ds_totalKeystrokes d) (StatisticsService.ds_keyBreakdown d)
  | StatisticsService.MonthlyData m =>
      breakdownOK (StatisticsService.ms_totalKeystrokes m) (StatisticsService.ms_keyBreakdown m)
  | StatisticsService.YearlyData y =>
      breakdownOK (StatisticsService.ys_totalKeystrokes y) (StatisticsService.ys_keyBreakdown y)
  end.

(** *** Calendar and date keys *)

(** The number of days of month [mn] (0-based) of year [y]. *)
Definition daysInMonth (y mn : Z) : Z :=
  match mn with
  | 1 => if JSDate.isLeapYear y then 29 else 28
  | 3 | 5 | 8 | 10 => 30
  | _ => 31
  end%Z.

(** The ten digit constructors of [Decimal.uint], by value. *)
Definition digitConstructors : list (Decimal.uint -> Decimal.uint) :=
  [Decimal.D0; Decimal.D1; Decimal.D2; Decimal.D3; Decimal.D4;
   Decimal.D5; Decimal.D6; Decimal.D7; Decimal.D8; Decimal.D9].

(** The decimal digit [n] put in front of the digits [l]. *)
Definition digitOf (n : Z) (l : Decimal.uint) : Decimal.uint :=
  nth (Z.to_nat n) digitConstructors Decimal.D9 l.

(** Lexicographic combination of three comparisons. *)
Definition lex3 (c1 c2 c3 : comparison) : comparison :=
  match c1 with
  | Eq => match c2 with Eq => c3 | Lt => Lt | Gt => Gt end
  | Lt => Lt
  | Gt => Gt
  end.

(** The ISO date of year [y], month [m] (1-based) and day [d]. *)
Definition iso (y m d : Z) : string :=
  JSString.isoYear y +:+ "-" +:+ JSString.numeral 2 m +:+ "-" +:+ JSString.numeral 2 d.

(** The UTC calendar fields of a stored row. *)
Definition rowYear (r : Sql.Row) : Z := JSDate.YearFromTime (Sql.row_timestamp r).
Definition rowMonth (r : Sql.Row) : Z := (JSDate.MonthFromTime (Sql.row_timestamp r) + 1)%Z.
Definition rowDay (r : Sql.Row) : Z := JSDate.DateFromTime (Sql.row_timestamp r).

(** The sum of [f D] over the [D] of [ds]. *)
Definition sumOver (ds : list Z) (f : Z -> Z) : Z :=
  fold_right (fun D acc => (f D + acc)%Z) 0%Z ds.

(** Every row of the store is as [save] writes rows. *)
Definition storeDerived (repo : KeystrokeRepository.t) : Prop :=
  Forall rowDerived (Sql.keystrokes (KeystrokeRepository.current repo)).

(** Every database file on disk holds only such rows. *)
Definition diskDerived (repo : KeystrokeRepository.t) : Prop :=
  forall path d,
    KeystrokeRepository.fs repo !! path = Some d -> Forall rowDerived (Sql.keystrokes d).

(** The number of rows of the store that satisfy [P]. *)
Definition countRows (P : Sql.Row -> bool) (repo : KeystrokeRepository.t) : Z :=
  Z.of_nat (length (List.filter P (Sql.keystrokes (KeystrokeRepository.current repo)))).

(** A year the date keys and the queries write alike: four digits. *)
Definition fourDigitYear (year : Z) : Prop :=
  (1000 <= JSDate.fullYear year <= 9999)%Z.

(** Machines: any zone within a day of UTC; zones at or east of UTC. *)
Definition anyZone (tza : Z) (repo : KeystrokeRepository.t) : Prop :=
  (Z.abs tza <= JSDate.msPerDay)%Z /\ storeDerived repo.

Definition eastOfUTC (tza : Z) (repo : KeystrokeRepository.t) : Prop :=
  (0 <= tza < JSDate.msPerDay)%Z /\ storeDerived repo.

Definition anyMachine (tza : Z) (repo : KeystrokeRepository.t) : Prop := True.

(** [Q] holds of every cached value. *)
Definition cacheInv (Q : StatisticsService.CacheData -> Prop) (s : StatisticsService.t) : Prop :=
  forall key entry,
    StatisticsService.cache s !! key = Some entry -> Q (StatisticsService.data entry).

(** [trend.reduce((sum, t) => sum + t.count, 0)] *)
Definition trendTotal {A : Type} (trend : list (A * Z)) : Z :=
  fold_left (fun sum t => (sum + snd t)%Z) trend 0%Z.

(** The trend of a monthly, respectively yearly, value of a four-digit
    year adds up to its total. *)
Definition monthlyTrendOK (v : StatisticsService.CacheData) : Prop :=
  match v with
  | StatisticsService.MonthlyData m =>
      fourDigitYear (StatisticsService.ms_year m) ->
      trendTotal (StatisticsService.dailyTrend m) = StatisticsService.ms_totalKeystrokes m
  | _ => True
  end.

Definition yearlyTrendOK (v : StatisticsService.CacheData) : Prop :=
  match v with
  | StatisticsService.YearlyData y =>
      fourDigitYear (StatisticsService.ys_year y) ->
      trendTotal (StatisticsService.monthlyTrend y) = StatisticsService.ys_totalKeystrokes y
  | _ => True
  end.

(** The shape of a cached value, and the shape a key announces by its
    first letter (["daily:..."], ["monthly:..."], ["yearly:..."]). *)
Definition shapeOf (v : StatisticsService.CacheData) : ascii :=
  match v with
  | StatisticsService.DailyData _ => "d"%char
  | StatisticsService.MonthlyData _ => "m"%char
  | StatisticsService.YearlyData _ => "y"%char
  end.

Definition keyShape (key : string) : option ascii :=
  match key with
  | String c _ => Some c
  | EmptyString => None
  end.

Definition shapesOK (s : StatisticsService.t) : Prop :=
  forall key entry,
    StatisticsService.cache s !! key = Some entry ->
    keyShape key = Some (shapeOf (StatisticsService.data entry)).

(** *** Traces of the buffer *)

(** The keys the [Add] events of a trace put in the queue, in order. *)
Definition added (events : list KeystrokeBuffer.Event) : list Keystroke :=
  flat_map (fun e => match e with KeystrokeBuffer.Add k => [k] | _ => [] end) events.

(** Events that leave a pending [save] pending. *)
Definition quiet (e : KeystrokeBuffer.Event) : bool :=
  match e with KeystrokeBuffer.SaveSettles _ => false | _ => true end.

(** One attempt: some turns of the event loop without a settle ([fst w]),
    then the pending [save] settles, with the I/O error [snd w] if any. *)
Definition attemptWindow (w : list KeystrokeBuffer.Event * option (list bool))
    : list KeystrokeBuffer.Event :=
  fst w ++ [KeystrokeBuffer.SaveSettles (snd w)].

Definition windows (ws : list (list KeystrokeBuffer.Event * option (list bool)))
    : list KeystrokeBuffer.Event :=
  flat_map attemptWindow ws.

(** The attempt [save keystrokes] on [repo] is rejected.  (Whether it is
    depends on [repo] through [this.db] only, which no attempt changes.) *)
Definition rejected (ioError : option (list bool)) (keystrokes : list Keystroke)
    (repo : KeystrokeRepository.t) : bool :=
  match fst (KeystrokeBuffer.attempt_save ioError keystrokes repo) with
  | Err _ => true
  | Ok _ => false
  end.

(** A window of quiet turns closed by a rejected attempt. *)
Definition failingWindow (keystrokes : list Keystroke) (repo : KeystrokeRepository.t)
    (w : list KeystrokeBuffer.Event * option (list bool)) : bool :=
  forallb quiet (fst w) && rejected (snd w) keystrokes repo.

(** The records of a batch whose rows an attempt leaves in the table,
    rejected or not: none when the store is not initialized; otherwise
    those whose INSERT was queued before [toISOString] threw, if it did,
    and of these, under an I/O error, the ones the database kept. *)
Fixpoint writtenRecords (written : list bool) (keystrokes : list Keystroke) : list Keystroke :=
  match keystrokes with
  | [] => []
  | keystroke :: rest =>
      let date := JSDate.ofTime (timestamp keystroke) in
      match JSString.toISODate date, JSDate.getUTCHours date with
      | Some _, Some _ =>
          (if hd false written then [keystroke] else [])
          ++ writtenRecords (tl written) rest
      | _, _ => []
      end
  end.

Definition leftBehind (ioError : option (list bool)) (keystrokes : list Keystroke)
    (repo : KeystrokeRepository.t) : list Keystroke :=
  if negb (KeystrokeRepository.db repo) then []
  else writtenRecords (match ioError with
                       | Some written => written
                       | None => repeat true (length keystrokes)
                       end) keystrokes.

(** The store after the attempts of [ws] on [keystrokes], one after the
    other. *)
Definition attempted (keystrokes : list Keystroke)
    (ws : list (list KeystrokeBuffer.Event * option (list bool)))
    (repo : KeystrokeRepository.t) : KeystrokeRepository.t :=
  fold_left (fun r w => snd (KeystrokeBuffer.attempt_save (snd w) keystrokes r)) ws repo.

(** A rejected write that leaves no row: the database kept none. *)
Definition cleanFailure (e : KeystrokeBuffer.Event) : bool :=
  match e with
  | KeystrokeBuffer.SaveSettles (Some written) => negb (existsb (fun b => b) written)
  | _ => true
  end.

(** The delays before retries [attempt + 1], [attempt + 2], ... *)
Fixpoint backoffs (attempt : Z) (n : nat) : list Z :=
  match n with
  | O => []
  | S n' => (KeystrokeBuffer.retryDelay * 2 ^ attempt)%Z :: backoffs (attempt + 1)%Z n'
  end.

Local Open Scope Z_scope.

(** *** Calls on the repository, and its row ids *)

(** A timestamp a [Date] can hold. *)
Definition validTime (k : Keystroke) : Prop :=
  (Z.abs (timestamp k) <= JSDate.maxTimeValue)%Z.

(** The ids [save] gives to [n] rows when the counter is at [counter]. *)
Definition idsFrom (counter : Z) (n : nat) : list Z :=
  map (fun i => (counter + Z.of_nat i)%Z) (seq 1 n).



(** The calls a program makes on a repository. *)
Inductive Call :=
| CallInitialize
| CallSave (keystrokes : list Keystroke)
| CallClear
| CallBackup (now : Z)
| CallRestore (backupPath : string)
| CallClose.

Definition call (r : KeystrokeRepository.t) (c : Call) : KeystrokeRepository.t :=
  match c with
  | CallInitialize => snd (KeystrokeRepository.initialize r)
  | CallSave keystrokes => snd (KeystrokeRepository.save keystrokes r)
  | CallClear => snd (KeystrokeRepository.clear r)
  | CallBackup now => snd (KeystrokeRepository.backup now r)
  | CallRestore backupPath => snd (KeystrokeRepository.restore backupPath r)
  | CallClose => snd (KeystrokeRepository.close r)
  end.

Definition calls (cs : list Call) (r : KeystrokeRepository.t) : KeystrokeRepository.t :=
  fold_left call cs r.

(** A call that, if it is a [save], carries timestamps a [Date] can hold,
    as those of [Date.now()] are: its loop does not throw. *)
Definition validCall (c : Call) : Prop :=
  match c with
  | CallSave keystrokes => Forall validTime keystrokes
  | _ => True
  end.

(** *** Breakdowns *)

(** The sum of the counts a breakdown gives for [name]. *)
Definition tally (name : string) (stats : list KeyStats) : Z :=
  fold_right (fun s acc => if String.eqb (stat_keyName s) name then (count s + acc)%Z else acc)
             0%Z stats.

(** *** What a buffer holds *)

(** The batch whose write is pending, if any. *)
Definition pendingBatch (s : KeystrokeBuffer.t) : list Keystroke :=
  match KeystrokeBuffer.pending s with
  | Some (keystrokes, _) => keystrokes
  | None => []
  end.

(** The logical records a buffer still answers for, oldest first: the
    batch being written, then the queue. *)
Definition queued (s : KeystrokeBuffer.t) : list (Z * string * Z) :=
  map logical (pendingBatch s) ++ map logical (KeystrokeBuffer.buffer s).

(** What holds of a buffer between any two turns of the event loop. *)
Definition bufferOK (s : KeystrokeBuffer.t) : Prop :=
  (KeystrokeBuffer.isFlushingInProgress s = true <-> KeystrokeBuffer.pending s <> None) /\
  (forall keystrokes attempt,
      KeystrokeBuffer.pending s = Some (keystrokes, attempt) ->
      keystrokes <> [] /\ (0 <= attempt <= KeystrokeBuffer.maxRetries)%Z) /\
  Forall (fun batch => batch <> []) (KeystrokeBuffer.saveCalls s) /\
  Forall (fun delay => In delay [1000; 2000; 4000]%Z) (KeystrokeBuffer.delays s).

(** The sum of the payloads of the ['flushed'] events. *)
Definition flushedTotal (s : KeystrokeBuffer.t) : Z :=
  fold_right Z.add 0%Z (KeystrokeBuffer.flushed s).

(** What has become of the keys added by [events], for a buffer that
    started on the store [repo] and is now in state [s]: the keys added
    are [written], the keys of the resolved writes, followed by those
    still queued; [rows] are the rows the store has gained, of which
    [written] is a subsequence; each ['flushed'] event counted its keys;
    and when every record had a valid timestamp and no rejected write left
    a row, the rows gained are [written] and nothing else. *)
Definition accounted (repo : KeystrokeRepository.t) (events : list KeystrokeBuffer.Event)
    (s : KeystrokeBuffer.t) (written : list (Z * string * Z)) (rows : list Sql.Row) : Prop :=
  map logical (added events) = written ++ queued s /\
  Sql.keystrokes (KeystrokeRepository.current (KeystrokeBuffer.repository s))
    = Sql.keystrokes (KeystrokeRepository.current repo) ++ rows /\
  sublist written (map rowLogical rows) /\
  Z.of_nat (length written) = flushedTotal s /\
  (forallb cleanFailure events = true -> Forall validTime (added events) ->
   map rowLogical rows = written).

(** *** Cache keys and fresh entries *)

(** [s] has no colon. *)
Fixpoint colonFree (s : string) : bool :=
  match s with
  | EmptyString => true
  | String c rest => negb (Ascii.eqb c ":"%char) && colonFree rest
  end.

(** [date] at the start of its UTC day, as [getDailyStats] computes it,
    and the keys of the three kinds of cache entries. *)
Definition normalizedDate (date : JSDate.Date) : JSDate.Date :=
  JSDate.ofNum (JSDate.UTC (JSDate.getUTCFullYear date) (JSDate.getUTCMonth date)
                  (JSDate.getUTCDate date) (Some 0) (Some 0) (Some 0) (Some 0)).

Definition dailyKey (date : JSDate.Date) : string :=
  StatisticsService.getCacheKey "daily" [JSDate.getTime (normalizedDate date)].

Definition monthlyKey (year month : Z) : string :=
  StatisticsService.getCacheKey "monthly" [Some year; Some month].

Definition yearlyKey (year : Z) : string :=
  StatisticsService.getCacheKey "yearly" [Some year].

(** The entry [e] under [key] is what a service with an empty cache
    computes on [repo] for every argument that [key] stands for. *)
Definition entryFresh (tza : Z) (repo : KeystrokeRepository.t) (key : string)
    (e : StatisticsService.CacheEntry) : Prop :=
  match StatisticsService.data e with
  | StatisticsService.DailyData v =>
      forall now date, dailyKey date = key ->
        fst (StatisticsService.getDailyStats tza now date repo StatisticsService.create) = Ok v
  | StatisticsService.MonthlyData v =>
      forall now year month, monthlyKey year month = key ->
        fst (StatisticsService.getMonthlyStats tza now year month repo StatisticsService.create)
        = Ok v
  | StatisticsService.YearlyData v =>
      forall now year, yearlyKey year = key ->
        fst (StatisticsService.getYearlyStats tza now year repo StatisticsService.create) = Ok v
  end.

Definition cacheFresh (tza : Z) (repo : KeystrokeRepository.t) (s : StatisticsService.t) : Prop :=
  forall key e, StatisticsService.cache s !! key = Some e -> entryFresh tza repo key e.

(** The calls made on one machine and one store: the time zone is [tza]
    and the store is [repo], as it is, at every call. *)
Definition sameStore (tza : Z) (repo : KeystrokeRepository.t)
    (tza' : Z) (repo' : KeystrokeRepository.t) : Prop :=
  tza' = tza /\ repo' = repo.

(** *** Traces of the listener *)

(** The times of a trace are those of a running clock: positive, and never
    going back ([last] is the time of the event before). *)
Fixpoint clockOK (last : Z) (events : list KeyboardListener.Event) : Prop :=
  match events with
  | [] => True
  | e :: rest =>
      (last <= KeyboardListener.time e)%Z /\ (0 < KeyboardListener.time e)%Z /\
      clockOK (KeyboardListener.time e) rest
  end.

(** The time of the last event of a trace that starts after [last]. *)
Definition lastTime (last : Z) (events : list KeyboardListener.Event) : Z :=
  fold_left (fun _ e => KeyboardListener.time e) events last.

(** Every event of [out] with the key code [keycode] lies at least the
    minimum interval before [now]. *)
Definition farEnough (now keycode : Z) (out : list KeystrokeEvent) : bool :=
  forallb (fun e => negb (event_keyCode e =? keycode)%Z
                    || (KeyboardListener.MIN_EVENT_INTERVAL <=? now - event_timestamp e)%Z)
          out.

(** Two events of [out] with the same key code lie at least the minimum
    interval apart. *)
Definition spaced (out : list KeystrokeEvent) : Prop :=
  forall (i j : nat) (e1 e2 : KeystrokeEvent),
    (i < j)%nat -> out !! i = Some e1 -> out !! j = Some e2 ->
    event_keyCode e1 = event_keyCode e2 ->
    (KeyboardListener.MIN_EVENT_INTERVAL <= event_timestamp e2 - event_timestamp e1)%Z.

(** What the listener's fields say about the events emitted up to time [T]. *)
Definition listenerOK (T : Z) (s : KeyboardListener.t) : Prop :=
  (forall e, In e (KeyboardListener.emitted s) ->
     (0 < event_timestamp e <= T)%Z /\
     KeyboardListener.isValidKeyCode (event_keyCode e) = true /\
     event_keyName e = KeyboardListener.keyCodeToName (event_keyCode e)) /\
  (forall keycode seen,
     KeyboardListener.eventCache s !! JSString.decimal keycode = Some seen ->
     (exists e, In e (KeyboardListener.emitted s) /\
                event_keyCode e = keycode /\ event_timestamp e = seen) /\
     (forall e, In e (KeyboardListener.emitted s) -> event_keyCode e = keycode ->
                (event_timestamp e <= seen)%Z)) /\
  (forall keycode,
     KeyboardListener.eventCache s !! JSString.decimal keycode = None ->
     forall e, In e (KeyboardListener.emitted s) -> event_keyCode e = keycode ->
               (event_timestamp e + 2 * KeyboardListener.MIN_EVENT_INTERVAL < T)%Z) /\
  (KeyboardListener.lastEventKeyCode s = (-1)%Z \/
   exists e, In e (KeyboardListener.emitted s) /\
             event_keyCode e = KeyboardListener.lastEventKeyCode s /\
             event_timestamp e = KeyboardListener.lastEventTimestamp s).

(** *** Exported text *)

(** The number of double quotes of a string. *)
Fixpoint quotes (s : string) : nat :=
  match s with
  | EmptyString => O
  | String c rest => ((if Ascii.eqb c ExportService.quote then 1 else 0) + quotes rest)%nat
  end.

Local Close Scope Z_scope.

(** *** Sample data *)

Definition sampleRepository : KeystrokeRepository.t :=
  snd (KeystrokeRepository.initialize (KeystrokeRepository.create "./keyboard-stats.db" ∅)).

Definition keyA (ts : Z) : Keystroke :=
  {| id := None; keyCode := 65; keyName := "A"; timestamp := ts |}.

Definition keyB (ts : Z) : Keystroke :=
  {| id := None; keyCode := 66; keyName := "B"; timestamp := ts |}.

Definition sampleBuffer : KeystrokeBuffer.t := KeystrokeBuffer.create sampleRepository.

(** 2023-11-14T22:13:20Z, one hour later, and 2023-11-15T00:13:20Z. *)
Definition sampleBatch : list Keystroke :=
  [keyA 1700000000000; keyB 1700007200000; keyA 1700003600000].

Definition sampleStore : KeystrokeRepository.t :=
  snd (KeystrokeRepository.save sampleBatch sampleRepository).

(** One key on 2023-12-15 and one on 2024-01-15, both at 00:00 UTC. *)
Definition turnOfYearStore : KeystrokeRepository.t :=
  snd (KeystrokeRepository.save [keyA 1702598400000; keyB 1705276800000] sampleRepository).

(** One key on 0999-01-01 at 00:00 UTC. *)
Definition year999Store : KeystrokeRepository.t :=
  snd (KeystrokeRepository.save [keyA (-30641760000000)] sampleRepository).

(** One key on 2024-12-25 at 12:00 UTC. *)
Definition decemberStore : KeystrokeRepository.t :=
  snd (KeystrokeRepository.save [keyA 1735128000000] sampleRepository).

(** Eight hours east and five hours west of UTC. *)
Definition utcPlus8 : Z := (8 * JSDate.msPerHour)%Z.

Definition utcMinus5 : Z := (-5 * JSDate.msPerHour)%Z.

(** The sample store after a backup at 2023-11-15T01:00:00Z. *)
Definition backedUpStore : KeystrokeRepository.t :=
  snd (KeystrokeRepository.backup 1700010000000 sampleStore).

(** An idle buffer, its timer running, with two keys in the queue. *)
Definition idleBuffer : KeystrokeBuffer.timed :=
  {| KeystrokeBuffer.core :=
       {| KeystrokeBuffer.buffer := [keyA 1700000000000; keyB 1700000000500];
          KeystrokeBuffer.isFlushingInProgress := false;
          KeystrokeBuffer.pending := None;
          KeystrokeBuffer.repository := sampleRepository;
          KeystrokeBuffer.saveCalls := [];
          KeystrokeBuffer.delays := [];
          KeystrokeBuffer.flushed := [] |};
     KeystrokeBuffer.flushTimer := true |}.

(** * Properties *)

Local Open Scope Z_scope.

(** ** Text *)
Section Text.

Lemma append_ne_self (a b : string) : b <> EmptyString -> a +:+ b <> a.
Proof.
  intros Hb. induction a as [|c a IH]; simpl.
  - exact Hb.
  - intros H. injection H as H. exact (IH H).
Qed.

Lemma backup_path_fresh (path : string) (now : Z) :
  path +:+ ".backup." +:+ JSString.decimal now <> path.
Proof. apply append_ne_self. discriminate. Qed.

End Text.

#[local] Instance timestamp_le_total : Total Sql.timestamp_le.
Proof. intros a b. unfold Sql.timestamp_le. lia. Qed.

#[local] Instance timestamp_le_trans : Transitive Sql.timestamp_le.
Proof. intros a b c. unfold Sql.timestamp_le. lia. Qed.

#[local] Instance count_ge_total : Total Sql.count_ge.
Proof. intros a b. unfold Sql.count_ge. lia. Qed.

#[local] Instance count_ge_trans : Transitive Sql.count_ge.
Proof. intros a b c. unfold Sql.count_ge. lia. Qed.

#[local] Instance created_ge_total : Total Sql.created_ge.
Proof. intros a b. unfold Sql.created_ge. lia. Qed.

#[local] Instance created_ge_trans : Transitive Sql.created_ge.
Proof. intros a b c. unfold Sql.created_ge. lia. Qed.

(** ** KeystrokeRepository: initialization, backup, restore *)
Section Repository.
Import Sql KeystrokeRepository.

Lemma opened_db (r : t) : opened r = true -> db r = true.
Proof. unfold opened. intros H. apply andb_prop in H. tauto. Qed.

Lemma opened_file (r : t) :
  opened r = true -> fs r !! dbPath r = Some (current r).
Proof.
  unfold opened, current. intros H. apply andb_prop in H as [_ H].
  destruct (fs r !! dbPath r); [reflexivity | discriminate].
Qed.

Lemma initialize_opened (r : t) : opened (snd (initialize r)) = true.
Proof.
  unfold opened, initialize; simpl.
  destruct (fs r !! dbPath r) eqn:E.
  - rewrite E. reflexivity.
  - rewrite lookup_insert_eq. reflexivity.
Qed.

Lemma current_write (d : Database) (r : t) : current (write d r) = d.
Proof. unfold current, write; simpl. rewrite lookup_insert_eq. reflexivity. Qed.

(** C10. [save] tests [this.db] before it tests the length of its input:
    on a store that is not initialized every input, the empty batch
    included, is rejected with "Database not initialized"; on an initialized
    store the empty batch resolves and leaves the store as it was. *)
Theorem save_checks_initialization_before_emptiness (r : t) :
  (db r = false -> forall keystrokes, save keystrokes r = (Err NotInitialized, r)) /\
  (db r = true -> save [] r = (Ok tt, r)).
Proof.
  split; intros H.
  - intros keystrokes. unfold save. rewrite H. reflexivity.
  - unfold save. rewrite H. reflexivity.
Qed.

(** C7. [restore] of a path that is not on disk, on an initialized store,
    rejects with "Backup file not found" in one step, and the repository
    (open connection, database file, every other file) is exactly as
    before. *)
Theorem restore_missing_backup_fails_unchanged (r : t) (backupPath : string) :
  db r = true ->
  fs r !! backupPath = None ->
  restore backupPath r = (Err (BackupNotFound backupPath), r).
Proof.
  intros Hdb Hnone. unfold restore. rewrite Hdb, Hnone. reflexivity.
Qed.

(** C6. On an opened store, [backup()], [clear()] and [restore(path)] with
    the path [backup] returned all succeed, and the database the
    connection then sees has the [keystrokes] table it had before. *)
Theorem backup_clear_restore_roundtrip (r : t) (now : Z) :
  opened r = true ->
  exists path r1 r2 r3,
    backup now r = (Ok path, r1) /\
    clear r1 = (Ok tt, r2) /\
    restore path r2 = (Ok tt, r3) /\
    keystrokes (current r2) = [] /\
    db r3 = true /\
    keystrokes (current r3) = keystrokes (current r).
Proof.
  intros Hop.
  pose proof (opened_db r Hop) as Hdb.
  pose proof (opened_file r Hop) as Hfile.
  pose proof (backup_path_fresh (dbPath r) now) as Hfresh.
  set (path := dbPath r +:+ ".backup." +:+ JSString.decimal now) in *.
  set (disk1 := <[path := current r]> (fs r)).
  set (r0 := {| dbPath := dbPath r; db := db r; fs := disk1 |}).
  set (r1 := write (insertBackup path now (current r0)) r0).
  set (r2 := write (deleteKeystrokes (current r1)) r1).
  assert (Hb : backup now r = (Ok path, r1)).
  { unfold backup, copyFile.
    replace (negb (db r)) with false by (rewrite Hdb; reflexivity).
    fold path. rewrite Hfile. reflexivity. }
  assert (Hc : clear r1 = (Ok tt, r2)).
  { unfold clear. replace (negb (db r1)) with false by (simpl; rewrite Hdb; reflexivity).
    reflexivity. }
  assert (Hsnap : fs r2 !! path = Some (current r)).
  { unfold r2, r1, write; simpl.
    rewrite !lookup_insert_ne by (intros E; apply Hfresh; symmetry; exact E).
    unfold disk1. apply lookup_insert_eq. }
  exists path, r1, r2.
  exists (snd (initialize {| dbPath := dbPath r2; db := db r2;
                             fs := <[dbPath r2 := current r]> (fs r2) |})).
  split; [exact Hb | split; [exact Hc | split; [| split; [| split]]]].
  - unfold restore, copyFile.
    replace (negb (db r2)) with false by (simpl; rewrite Hdb; reflexivity).
    rewrite Hsnap. reflexivity.
  - unfold r2. rewrite current_write. reflexivity.
  - reflexivity.
  - unfold initialize, current; simpl. rewrite !lookup_insert_eq. reflexivity.
Qed.

End Repository.

(** ** Save and read back *)
Section RoundTrip.
Import Sql KeystrokeRepository.

Lemma logical_toKeystroke (r : Row) : logical (toKeystroke r) = rowLogical r.
Proof. reflexivity. Qed.

Lemma TimeClip_Some (v t : Z) :
  JSDate.TimeClip v = Some t -> t = v /\ Z.abs v <= JSDate.maxTimeValue.
Proof.
  unfold JSDate.TimeClip. destruct (Z.abs v <=? JSDate.maxTimeValue) eqn:E; [|discriminate].
  intros H; injection H as <-. split; [reflexivity | lia].
Qed.

(** What the loop of [save] appends: one derived row per record, in
    order, with the record's logical fields. *)
Lemma insertAll_rows (ks : list Keystroke) (d d' : Database) :
  insertAll ks d = (Ok tt, d') ->
  exists rows,
    keystrokes d' = keystrokes d ++ rows /\
    map rowLogical rows = map logical ks /\
    Forall rowDerived rows /\
    backups d' = backups d.
Proof.
  revert d. induction ks as [|k ks IH]; intros d; cbn [insertAll].
  - intros H; injection H as <-. exists []. rewrite app_nil_r. repeat split. constructor.
  - unfold JSString.toISODate, JSDate.getUTCHours, JSDate.ofTime.
    destruct (JSDate.TimeClip (timestamp k)) as [t|] eqn:Ht; [|discriminate].
    cbn [option_map]. apply TimeClip_Some in Ht as [-> Hb].
    intros H. apply IH in H as (rows & Hk & Hl & Hd & Hbk).
    cbn [insertKeystroke keystrokes backups] in Hk, Hbk.
    eexists (_ :: rows). split; [|split; [|split]].
    + rewrite Hk, <- app_assoc. reflexivity.
    + cbn [map]. rewrite Hl. reflexivity.
    + constructor; [|exact Hd]. repeat split. exact Hb.
    + exact Hbk.
Qed.

Lemma map_filter_agree {A B C : Type} (f : A -> C) (g : B -> C)
    (p : A -> bool) (q : B -> bool) (c : C -> bool) (l1 : list A) (l2 : list B) :
  (forall x, p x = c (f x)) -> (forall y, q y = c (g y)) ->
  map f l1 = map g l2 ->
  map f (List.filter p l1) = map g (List.filter q l2).
Proof.
  intros Hp Hq. revert l2. induction l1 as [|x l1 IH]; intros [|y l2] H;
    try discriminate; [reflexivity|].
  cbn [map] in H. injection H as Hxy H. cbn [List.filter].
  rewrite Hp, Hq, Hxy. destruct (c (g y)); cbn [map]; rewrite ?Hxy; f_equal; auto.
Qed.

Lemma filter_all {A : Type} (p : A -> bool) (l : list A) :
  (forall x, In x l -> p x = true) -> List.filter p l = l.
Proof.
  induction l as [|x l IH]; intros H; cbn [List.filter]; [reflexivity|].
  rewrite (H x (or_introl eq_refl)). f_equal. apply IH. intros y Hy. apply H. right. exact Hy.
Qed.

Lemma StronglySorted_map {A B : Type} (R : relation A) (R' : relation B) (f : A -> B)
    (l : list A) :
  (forall x y, R x y -> R' (f x) (f y)) ->
  StronglySorted R l -> StronglySorted R' (map f l).
Proof.
  intros Hf. induction 1 as [|x l Hs IH Hx]; cbn [map]; constructor.
  - exact IH.
  - apply Forall_map. eapply Forall_impl; [exact Hx|]. intros y Hy. apply Hf. exact Hy.
Qed.

(** C5. After a successful [save] of a batch into an initialized store
    with no rows, [getByDateRange(start, end)] returns, ignoring the
    assigned ids, exactly the records of the batch whose timestamp lies in
    [[start, end]] (bounds included), each as often as the batch has it, in
    ascending order of timestamp; when the range covers every timestamp of
    the batch, that is the whole batch. *)
Theorem save_then_getByDateRange (keystrokes : list Keystroke) (r r' : t)
    (startTs endTs : Z) :
  db r = true ->
  Sql.keystrokes (current r) = [] ->
  save keystrokes r = (Ok tt, r') ->
  exists found,
    getByDateRange (Some startTs) (Some endTs) r' = Ok found /\
    map logical found ≡ₚ map logical (List.filter (inRange startTs endTs) keystrokes) /\
    StronglySorted (fun a b => timestamp a <= timestamp b) found /\
    (forall k, In k found -> startTs <= timestamp k <= endTs) /\
    ((forall k, In k keystrokes -> startTs <= timestamp k <= endTs) ->
     map logical found ≡ₚ map logical keystrokes).
Proof.
  intros Hdb Hempty Hsave.
  assert (Hrows : db r' = true /\ map rowLogical (Sql.keystrokes (current r')) = map logical keystrokes).
  { unfold save in Hsave. rewrite Hdb in Hsave. cbn [negb] in Hsave.
    destruct keystrokes as [|k ks].
    - injection Hsave as <-. rewrite Hempty. split; [exact Hdb | reflexivity].
    - destruct (insertAll (k :: ks) (current r)) as [thrown d'] eqn:E.
      injection Hsave as -> <-. rewrite current_write.
      apply insertAll_rows in E as (rows & Hk & Hl & _).
      rewrite Hempty in Hk. cbn [app] in Hk. rewrite Hk.
      split; [exact Hdb | exact Hl]. }
  destruct Hrows as [Hdb' Hrows].
  set (cond := fun row => (startTs <=? row_timestamp row) && (row_timestamp row <=? endTs)).
  set (sel := List.filter cond (Sql.keystrokes (current r'))).
  exists (map toKeystroke (merge_sort timestamp_le sel)).
  assert (Hperm : map logical (map toKeystroke (merge_sort timestamp_le sel))
                  ≡ₚ map logical (List.filter (inRange startTs endTs) keystrokes)).
  { rewrite map_map.
    rewrite (Permutation_map _ (merge_sort_Permutation timestamp_le sel)).
    unfold sel.
    rewrite (map_filter_agree (fun x => logical (toKeystroke x)) logical cond
               (inRange startTs endTs)
               (fun c => (startTs <=? snd c) && (snd c <=? endTs))
               (Sql.keystrokes (current r')) keystrokes); try reflexivity.
    exact Hrows. }
  split; [|split; [|split; [|split]]].
  - unfold getByDateRange. rewrite Hdb'. reflexivity.
  - exact Hperm.
  - apply (StronglySorted_map timestamp_le); [intros x y H; exact H|].
    apply StronglySorted_merge_sort; exact _.
  - intros k Hk. apply in_map_iff in Hk as (row & <- & Hrow).
    apply list_elem_of_In in Hrow.
    rewrite (merge_sort_Permutation timestamp_le sel) in Hrow.
    apply list_elem_of_In in Hrow. apply filter_In in Hrow as [_ Hc].
    unfold cond in Hc. cbn [toKeystroke timestamp]. lia.
  - intros Hcover. rewrite Hperm. rewrite filter_all; [reflexivity|].
    intros k Hk. unfold inRange. specialize (Hcover k Hk). lia.
Qed.

(** What a resolved [save] appends. *)
Lemma save_rows (ks : list Keystroke) (r r' : t) :
  save ks r = (Ok tt, r') ->
  exists rows,
    keystrokes (current r')
      = keystrokes (current r) ++ rows /\
    map rowLogical rows = map logical ks /\
    Forall rowDerived rows.
Proof.
  unfold save. destruct (negb (db r)); [discriminate|].
  destruct ks as [|k ks].
  - intros H; injection H as <-. exists []. rewrite app_nil_r. repeat split. constructor.
  - destruct (insertAll (k :: ks) (current r)) as [thrown d'] eqn:E.
    intros H; injection H as -> <-. rewrite current_write.
    apply insertAll_rows in E as (rows & Hk & Hl & Hd & _).
    exists rows. repeat split; assumption.
Qed.

(** What the loop appends when it throws or the database reports an
    error: one derived row per record written, in order. *)
Lemma insertWritten_rows (written : list bool) (ks : list Keystroke) (d : Database) :
  exists rows,
    keystrokes (insertWritten written ks d) = keystrokes d ++ rows /\
    map rowLogical rows = map logical (writtenRecords written ks) /\
    Forall rowDerived rows /\
    backups (insertWritten written ks d) = backups d.
Proof.
  revert written d. induction ks as [|k ks IH]; intros written d;
    cbn [insertWritten writtenRecords].
  - exists []. rewrite app_nil_r. repeat split. constructor.
  - unfold JSString.toISODate, JSDate.getUTCHours, JSDate.ofTime.
    destruct (JSDate.TimeClip (timestamp k)) as [t|] eqn:Ht; cbn [option_map];
      [|exists []; rewrite app_nil_r; repeat split; constructor].
    apply TimeClip_Some in Ht as [-> Hb].
    destruct (hd false written).
    + destruct (IH (tl written) (insertKeystroke (keyCode k) (keyName k) (timestamp k)
                                   (JSString.isoDateOfTime (timestamp k))
                                   (JSDate.HourFromTime (timestamp k)) d))
        as (rows & Hk & Hl & Hd & Hbk).
      cbn [insertKeystroke keystrokes backups] in Hk, Hbk.
      eexists (_ :: rows). split; [|split; [|split]].
      * rewrite Hk, <- app_assoc. reflexivity.
      * cbn [map app]. rewrite Hl. reflexivity.
      * constructor; [|exact Hd]. repeat split. exact Hb.
      * exact Hbk.
    + destruct (IH (tl written) d) as (rows & Hk & Hl & Hd & Hbk).
      exists rows. cbn [app]. repeat split; assumption.
Qed.

Lemma insertAll_written (ks : list Keystroke) (d : Database) :
  snd (insertAll ks d) = insertWritten (repeat true (length ks)) ks d.
Proof.
  revert d. induction ks as [|k ks IH]; intros d;
    cbn [insertAll insertWritten length repeat hd tl]; [reflexivity|].
  destruct (JSString.toISODate (JSDate.ofTime (timestamp k))); [|reflexivity].
  destruct (JSDate.getUTCHours (JSDate.ofTime (timestamp k))); [|reflexivity].
  apply IH.
Qed.

(** What [save] leaves in the table, resolved or rejected: the rows of
    the records whose INSERT was queued. *)
Lemma save_writes (ks : list Keystroke) (r : t) :
  db (snd (save ks r)) = db r /\
  exists rows,
    keystrokes (current (snd (save ks r))) = keystrokes (current r) ++ rows /\
    map rowLogical rows = map logical (leftBehind None ks r) /\
    Forall rowDerived rows.
Proof.
  unfold save, leftBehind. destruct (negb (db r)); cbn [snd].
  - split; [reflexivity|]. exists []. rewrite app_nil_r. repeat split. constructor.
  - destruct ks as [|k ks]; cbn [snd].
    + split; [reflexivity|]. exists []. rewrite app_nil_r. repeat split. constructor.
    + pose proof (insertAll_written (k :: ks) (current r)) as Hw.
      destruct (insertAll (k :: ks) (current r)) as [thrown d'].
      cbn [snd] in *. subst d'. split; [reflexivity|]. rewrite current_write.
      destruct (insertWritten_rows (repeat true (length (k :: ks))) (k :: ks) (current r))
        as (rows & Hk & Hl & Hd & _).
      exists rows. repeat split; assumption.
Qed.

(** Whether the loop throws depends on the batch alone. *)
Lemma insertAll_thrown (ks : list Keystroke) (d d' : Database) :
  fst (insertAll ks d) = fst (insertAll ks d').
Proof.
  revert d d'. induction ks as [|k ks IH]; intros d d'; cbn [insertAll]; [reflexivity|].
  destruct (JSString.toISODate (JSDate.ofTime (timestamp k))); [|reflexivity].
  destruct (JSDate.getUTCHours (JSDate.ofTime (timestamp k))); [|reflexivity].
  apply IH.
Qed.

(** What a write rejected with an I/O error leaves. *)
Lemma saveWithError_rows (written : list bool) (ks : list Keystroke) (r : t) :
  db (snd (saveWithError written ks r)) = db r /\
  (ks <> [] -> exists e, fst (saveWithError written ks r) = Err e) /\
  exists rows,
    keystrokes (current (snd (saveWithError written ks r)))
      = keystrokes (current r) ++ rows /\
    map rowLogical rows = map logical (leftBehind (Some written) ks r) /\
    Forall rowDerived rows.
Proof.
  unfold saveWithError, leftBehind. destruct (negb (db r)); cbn [fst snd].
  - split; [reflexivity|]. split; [intros _; eexists; reflexivity|].
    exists []. rewrite app_nil_r. repeat split. constructor.
  - destruct ks as [|k ks]; cbn [fst snd].
    + split; [reflexivity|]. split; [intros H; contradiction|].
      exists []. rewrite app_nil_r. repeat split. constructor.
    + split; [reflexivity|]. split.
      * intros _. destruct (fst (insertAll (k :: ks) (current r))); eexists; reflexivity.
      * rewrite current_write.
        destruct (insertWritten_rows written (k :: ks) (current r))
          as (rows & Hk & Hl & Hd & _).
        exists rows. repeat split; assumption.
Qed.

(** *** Stores hold derived rows *)

Lemma diskDerived_storeDerived (r : t) : diskDerived r -> storeDerived r.
Proof.
  intros H. unfold storeDerived, current.
  destruct (fs r !! dbPath r) as [d|] eqn:E; [exact (H _ _ E) | constructor].
Qed.

Lemma diskDerived_create (path : string) : diskDerived (create path ∅).
Proof. intros p d H. cbn [create fs] in H. rewrite lookup_empty in H. discriminate. Qed.

Lemma diskDerived_write (d : Database) (r : t) :
  diskDerived r -> Forall rowDerived (keystrokes d) -> diskDerived (write d r).
Proof.
  intros Hr Hd p d' H. cbn [write fs] in H.
  apply lookup_insert_Some in H as [[_ <-]|[_ H]]; [exact Hd | exact (Hr _ _ H)].
Qed.

Lemma diskDerived_initialize (r : t) : diskDerived r -> diskDerived (snd (initialize r)).
Proof.
  intros Hr p d H. cbn [initialize snd fs] in H.
  destruct (fs r !! dbPath r) eqn:E; [exact (Hr _ _ H)|].
  apply lookup_insert_Some in H as [[_ <-]|[_ H]]; [constructor | exact (Hr _ _ H)].
Qed.

Lemma diskDerived_save (ks : list Keystroke) (r : t) :
  diskDerived r -> diskDerived (snd (save ks r)).
Proof.
  intros Hr.
  destruct (save_writes ks r) as (_ & rows & Hk & _ & Hd). revert Hk.
  unfold save. destruct (negb (db r)); [intros _; exact Hr|].
  destruct ks as [|k ks]; [intros _; exact Hr|].
  destruct (insertAll (k :: ks) (current r)) as [thrown d']. cbn [snd].
  rewrite current_write. intros Hk.
  apply diskDerived_write; [exact Hr|].
  rewrite Hk. apply Forall_app. split; [|exact Hd].
  apply diskDerived_storeDerived. exact Hr.
Qed.

Lemma diskDerived_clear (r : t) : diskDerived r -> diskDerived (snd (clear r)).
Proof.
  intros Hr. unfold clear. destruct (negb (db r)); cbn [snd]; [exact Hr|].
  apply diskDerived_write; [exact Hr | constructor].
Qed.

Lemma diskDerived_backup (now : Z) (r : t) : diskDerived r -> diskDerived (snd (backup now r)).
Proof.
  intros Hr. unfold backup, copyFile. destruct (negb (db r)); cbn [snd]; [exact Hr|].
  destruct (fs r !! dbPath r) as [d|] eqn:E; cbn [snd]; [|exact Hr].
  assert (H1 : diskDerived {| dbPath := dbPath r; db := db r;
                              fs := <[dbPath r +:+ ".backup." +:+ JSString.decimal now := d]> (fs r) |}).
  { intros p d' H. cbn [fs] in H.
    apply lookup_insert_Some in H as [[_ <-]|[_ H]]; [exact (Hr _ _ E) | exact (Hr _ _ H)]. }
  apply diskDerived_write; [exact H1|].
  cbn [insertBackup keystrokes]. apply diskDerived_storeDerived. exact H1.
Qed.

Lemma diskDerived_restore (path : string) (r : t) :
  diskDerived r -> diskDerived (snd (restore path r)).
Proof.
  intros Hr. unfold restore, copyFile. destruct (negb (db r)); cbn [snd]; [exact Hr|].
  destruct (fs r !! path) as [d|] eqn:E; cbn [snd]; [|exact Hr].
  apply diskDerived_initialize. intros p d' H. cbn [fs] in H.
  apply lookup_insert_Some in H as [[_ <-]|[_ H]]; [exact (Hr _ _ E) | exact (Hr _ _ H)].
Qed.

Lemma diskDerived_close (r : t) : diskDerived r -> diskDerived (snd (close r)).
Proof. intros Hr. unfold close. destruct (negb (db r)); exact Hr. Qed.

End RoundTrip.


(** ** The calendar *)
Section Calendar.
Import JSDate.

Lemma DayFromYear_succ y : DayFromYear (y + 1) = DayFromYear y + DaysInYear y.
Proof.
  unfold DayFromYear, DaysInYear, isLeapYear.
  destruct (y mod 4 =? 0) eqn:E4; destruct (y mod 100 =? 0) eqn:E100;
    destruct (y mod 400 =? 0) eqn:E400; cbn [negb orb andb];
    rewrite ?Z.eqb_eq, ?Z.eqb_neq in *; Z.div_mod_to_equations; lia.
Qed.

Lemma DayFromYear_mono a b : a <= b -> DayFromYear a <= DayFromYear b.
Proof. unfold DayFromYear. intros H. Z.div_mod_to_equations. lia. Qed.

Lemma DayFromYear_lt a b : a < b -> DayFromYear a < DayFromYear b.
Proof. unfold DayFromYear. intros H. Z.div_mod_to_equations. lia. Qed.

Lemma YearFromDay_spec d :
  DayFromYear (YearFromDay d) <= d < DayFromYear (YearFromDay d + 1).
Proof.
  unfold YearFromDay.
  set (y := 1970 + d * 400 / 146097).
  destruct (d <? DayFromYear y) eqn:E1; [|destruct (DayFromYear (y + 1) <=? d) eqn:E2];
    rewrite ?Z.ltb_lt, ?Z.ltb_ge, ?Z.leb_le, ?Z.leb_gt in *.
  - replace (y - 1 + 1) with y by lia. split; [|lia].
    unfold DayFromYear in *. unfold y in *. Z.div_mod_to_equations. lia.
  - split; [lia|].
    unfold DayFromYear in *. unfold y in *. Z.div_mod_to_equations. lia.
  - lia.
Qed.

Lemma YearFromDay_unique d y :
  DayFromYear y <= d < DayFromYear (y + 1) -> YearFromDay d = y.
Proof.
  intros H. pose proof (YearFromDay_spec d) as S.
  destruct (Z.lt_trichotomy (YearFromDay d) y) as [L|[E|G]]; [|exact E|].
  - pose proof (DayFromYear_mono (YearFromDay d + 1) y ltac:(lia)). lia.
  - pose proof (DayFromYear_mono (y + 1) (YearFromDay d) ltac:(lia)). lia.
Qed.

Lemma Day_MakeDate day tod :
  0 <= tod < msPerDay -> Day (MakeDate day tod) = day.
Proof.
  intros H. unfold Day, MakeDate, msPerDay in *. Z.div_mod_to_equations. lia.
Qed.

Lemma MakeDay_in_range y mn d :
  0 <= mn <= 11 ->
  MakeDay y mn d = DayFromYear y + DayFromMonth mn (if isLeapYear y then 1 else 0) + d - 1.
Proof.
  intros H. unfold MakeDay.
  replace (mn / 12) with 0 by (Z.div_mod_to_equations; lia).
  replace (mn mod 12) with mn by (Z.div_mod_to_equations; lia).
  rewrite Z.add_0_r. reflexivity.
Qed.

Ltac month_cases mn H :=
  assert (mn = 0 \/ mn = 1 \/ mn = 2 \/ mn = 3 \/ mn = 4 \/ mn = 5 \/ mn = 6 \/
          mn = 7 \/ mn = 8 \/ mn = 9 \/ mn = 10 \/ mn = 11) as H by lia;
  destruct H as [->|[->|[->|[->|[->|[->|[->|[->|[->|[->|[->| ->]]]]]]]]]]].

(** The calendar fields of a day built by [MakeDay]. *)
Lemma fields_of_MakeDay y mn d t :
  0 <= mn <= 11 ->
  1 <= d <= daysInMonth y mn ->
  Day t = MakeDay y mn d ->
  YearFromTime t = y /\ MonthFromTime t = mn /\ DateFromTime t = d.
Proof.
  intros Hmn Hd Hday. rewrite (MakeDay_in_range y mn d Hmn) in Hday.
  assert (Hy : YearFromTime t = y).
  { unfold YearFromTime. apply YearFromDay_unique. rewrite DayFromYear_succ, Hday.
    unfold DaysInYear. unfold daysInMonth in Hd.
    month_cases mn C; cbn [DayFromMonth] in *; destruct (isLeapYear y); lia. }
  assert (Hw : DayWithinYear t = DayFromMonth mn (if isLeapYear y then 1 else 0) + d - 1).
  { unfold DayWithinYear. rewrite Hy, Hday. lia. }
  assert (Hm : MonthFromTime t = mn).
  { unfold MonthFromTime, InLeapYear. rewrite Hw, Hy. unfold daysInMonth in Hd.
    month_cases mn C; cbn [DayFromMonth] in *; destruct (isLeapYear y);
      repeat match goal with |- context [?a <? ?b] =>
        destruct (Z.ltb_spec a b); try lia end; reflexivity. }
  split; [exact Hy | split; [exact Hm|]].
  unfold DateFromTime, InLeapYear. rewrite Hm, Hw, Hy.
  month_cases mn C; cbn [DayFromMonth]; destruct (isLeapYear y); lia.
Qed.

(** Every day is a valid calendar date, and [MakeDay] rebuilds it from its
    fields. *)
Lemma fields_valid t :
  0 <= MonthFromTime t <= 11 /\
  1 <= DateFromTime t <= daysInMonth (YearFromTime t) (MonthFromTime t) /\
  Day t = MakeDay (YearFromTime t) (MonthFromTime t) (DateFromTime t).
Proof.
  pose proof (YearFromDay_spec (Day t)) as S. fold (YearFromTime t) in S.
  rewrite DayFromYear_succ in S.
  assert (Hw : 0 <= DayWithinYear t < DaysInYear (YearFromTime t))
    by (unfold DayWithinYear; lia).
  assert (Hday : Day t = DayFromYear (YearFromTime t) + DayWithinYear t)
    by (unfold DayWithinYear; lia).
  unfold DaysInYear in Hw.
  assert (Hm : 0 <= MonthFromTime t <= 11).
  { unfold MonthFromTime.
    repeat match goal with |- context [?a <? ?b] => destruct (a <? b) end; lia. }
  split; [exact Hm|].
  rewrite (MakeDay_in_range _ _ _ Hm).
  unfold DateFromTime, MonthFromTime, daysInMonth, InLeapYear in *.
  destruct (isLeapYear (YearFromTime t));
    repeat match goal with |- context [?a <? ?b] =>
      destruct (Z.ltb_spec a b) end; cbn [DayFromMonth]; lia.
Qed.

(** [new Date(y, m, 0)]: day 0 of the month after is the last day of the
    month. *)
Lemma MakeDay_day_zero y m :
  1 <= m <= 12 ->
  MakeDay y m 0 = MakeDay y (m - 1) (daysInMonth y (m - 1)).
Proof.
  intros Hm. rewrite (MakeDay_in_range y (m - 1)) by lia.
  assert (E : exists mn, m = mn + 1 /\ 0 <= mn <= 11) by (exists (m - 1); lia).
  destruct E as (mn & -> & Hmn). replace (mn + 1 - 1) with mn by lia.
  destruct (Z.eq_dec mn 11) as [->|Hne].
  - unfold MakeDay. change ((11 + 1) / 12) with 1. change ((11 + 1) mod 12) with 0.
    rewrite DayFromYear_succ. unfold DaysInYear, daysInMonth. cbn [DayFromMonth].
    destruct (isLeapYear y); lia.
  - rewrite (MakeDay_in_range y (mn + 1)) by lia.
    unfold daysInMonth.
    month_cases mn C; try lia;
      match goal with |- context [DayFromMonth (?a + 1)] =>
        let v := eval vm_compute in (a + 1) in change (a + 1) with v end;
      cbn [DayFromMonth]; destruct (isLeapYear y); lia.
Qed.

End Calendar.

(** ** Date strings and their order *)

Lemma digit_values (n : Z) : 0 <= n <= 9 -> In n [0; 1; 2; 3; 4; 5; 6; 7; 8; 9].
Proof. intros H. cbn [In]. lia. Qed.

(** Replace [digitOf k l], for a literal [k], by its constructor. *)
Ltac digit_constructor :=
  repeat match goal with
  | |- context [digitOf ?k ?l] =>
      let v := eval cbv [digitOf digitConstructors nth Z.to_nat Pos.to_nat Pos.iter_op
                         Init.Nat.add] in (digitOf k l) in
      change (digitOf k l) with v
  end.

(** Case analysis on a decimal digit [n], given [H : lo <= n <= 9]. *)
Ltac digit_cases n H :=
  let C := fresh "C" in
  assert (C : In n [0; 1; 2; 3; 4; 5; 6; 7; 8; 9]) by (apply digit_values; lia);
  clear H; cbn [In] in C;
  destruct C as [<-|[<-|[<-|[<-|[<-|[<-|[<-|[<-|[<-|[<-|[]]]]]]]]]]].

Section DateStrings.
Import JSDate.

Lemma digit_compare a b :
  0 <= a <= 9 -> 0 <= b <= 9 -> Ascii.compare (JSString.digit a) (JSString.digit b) = (a ?= b).
Proof.
  intros Ha Hb. digit_cases a Ha; digit_cases b Hb; reflexivity.
Qed.

Lemma compare_refl (s : string) : String.compare s s = Eq.
Proof.
  induction s as [|c s IH]; cbn [String.compare]; [reflexivity|].
  unfold Ascii.compare. rewrite N.compare_refl. exact IH.
Qed.

Lemma compare_app (a b s t : string) :
  String.length a = String.length b ->
  String.compare (a +:+ s) (b +:+ t)
  = match String.compare a b with Eq => String.compare s t | Lt => Lt | Gt => Gt end.
Proof.
  revert b. induction a as [|c a IH]; intros [|c' b] H; try discriminate.
  - reflexivity.
  - simpl. cbn [String.length] in H.
    destruct (Ascii.compare c c'); try reflexivity. apply IH. lia.
Qed.

Lemma numeral_length w n : String.length (JSString.numeral w n) = w.
Proof. induction w as [|w IH]; cbn [JSString.numeral String.length]; [reflexivity|]. rewrite IH. reflexivity. Qed.

Lemma numeral2_compare a b :
  0 <= a <= 99 -> 0 <= b <= 99 ->
  String.compare (JSString.numeral 2 a) (JSString.numeral 2 b) = (a ?= b).
Proof.
  intros Ha Hb. unfold JSString.numeral.
  change (10 ^ Z.of_nat 1) with 10. change (10 ^ Z.of_nat 0) with 1.
  cbn [String.compare].
  rewrite !digit_compare by (Z.div_mod_to_equations; lia).
  symmetry.
  repeat match goal with |- context [(?x mod 10 ?= ?y mod 10)] =>
    destruct (Z.compare_spec (x mod 10) (y mod 10)) end;
  first [apply Z.compare_eq_iff | apply Z.compare_lt_iff | apply Z.compare_gt_iff];
  Z.div_mod_to_equations; lia.
Qed.

Lemma numeral4_compare a b :
  0 <= a <= 9999 -> 0 <= b <= 9999 ->
  String.compare (JSString.numeral 4 a) (JSString.numeral 4 b) = (a ?= b).
Proof.
  intros Ha Hb. unfold JSString.numeral.
  change (10 ^ Z.of_nat 3) with 1000. change (10 ^ Z.of_nat 2) with 100.
  change (10 ^ Z.of_nat 1) with 10. change (10 ^ Z.of_nat 0) with 1.
  cbn [String.compare].
  rewrite !digit_compare by (Z.div_mod_to_equations; lia).
  symmetry.
  destruct (Z.compare_spec ((a / 1000) mod 10) ((b / 1000) mod 10));
    [destruct (Z.compare_spec ((a / 100) mod 10) ((b / 100) mod 10));
      [destruct (Z.compare_spec ((a / 10) mod 10) ((b / 10) mod 10));
        [destruct (Z.compare_spec ((a / 1) mod 10) ((b / 1) mod 10))| |]| |]| |];
  first [apply Z.compare_eq_iff | apply Z.compare_lt_iff | apply Z.compare_gt_iff];
  Z.div_mod_to_equations; lia.
Qed.

Lemma isoDateOfTime_iso t :
  JSString.isoDateOfTime t = iso (YearFromTime t) (MonthFromTime t + 1) (DateFromTime t).
Proof. reflexivity. Qed.

Lemma isoYear_4 y : 0 <= y <= 9999 -> JSString.isoYear y = JSString.numeral 4 y.
Proof.
  intros H. unfold JSString.isoYear.
  replace ((0 <=? y) && (y <=? 9999)) with true; [reflexivity|].
  symmetry. apply andb_true_iff. split; lia.
Qed.

Lemma compare_iso y m d Y M D :
  0 <= y <= 9999 -> 0 <= Y <= 9999 ->
  0 <= m <= 99 -> 0 <= M <= 99 -> 0 <= d <= 99 -> 0 <= D <= 99 ->
  String.compare (iso y m d) (iso Y M D) = lex3 (y ?= Y) (m ?= M) (d ?= D).
Proof.
  intros Hy HY Hm HM Hd HD. unfold iso. rewrite !isoYear_4 by assumption.
  rewrite compare_app by (rewrite !numeral_length; reflexivity).
  rewrite numeral4_compare by assumption.
  rewrite (compare_app "-" "-") by reflexivity.
  rewrite compare_app by (rewrite !numeral_length; reflexivity).
  rewrite numeral2_compare by assumption.
  rewrite (compare_app "-" "-") by reflexivity.
  rewrite numeral2_compare by assumption.
  unfold lex3. cbn [String.compare Ascii.compare]. 
  change (Ascii.compare "-" "-") with Eq. cbv beta iota. reflexivity.
Qed.

Lemma compare_iso_expanded y m d Y M D :
  ~ (0 <= y <= 9999) -> 0 <= Y <= 9999 ->
  String.compare (iso y m d) (iso Y M D) = Lt.
Proof.
  intros Hy HY. unfold iso. rewrite (isoYear_4 Y) by assumption.
  unfold JSString.isoYear.
  replace ((0 <=? y) && (y <=? 9999)) with false
    by (symmetry; apply andb_false_iff; lia).
  change (JSString.numeral 4 Y)
    with (String (JSString.digit ((Y / 1000) mod 10)) (JSString.numeral 3 Y)).
  set (k := (Y / 1000) mod 10).
  assert (Hk : 0 <= k <= 9) by (unfold k; Z.div_mod_to_equations; lia).
  cbn [String.append String.compare].
  destruct (y <? 0); digit_cases k Hk; reflexivity.
Qed.

End DateStrings.

(** ** Queries: ordering and counting *)

Section Queries.
Import Sql KeystrokeRepository.

Lemma Sorted_adjacent {A : Type} (R : relation A) (l : list A) :
  Sorted R l ->
  forall (i : nat) (a b : A), l !! i = Some a -> l !! S i = Some b -> R a b.
Proof.
  induction 1 as [|x l Hs IH Hhd]; intros i a b Ha Hb.
  - discriminate.
  - destruct i as [|i]; simpl in Ha, Hb.
    + injection Ha as <-. destruct Hhd as [|y l' Hxy]; [discriminate|].
      simpl in Hb. injection Hb as <-. exact Hxy.
    + exact (IH i a b Ha Hb).
Qed.

Lemma Sorted_firstn {A : Type} (R : relation A) (n : nat) (l : list A) :
  Sorted R l -> Sorted R (firstn n l).
Proof.
  intros Hs. revert n. induction Hs as [|x l Hs IH Hhd]; intros [|n]; simpl;
    try constructor.
  - apply IH.
  - destruct Hhd as [|y l' Hxy]; destruct n; simpl; constructor. exact Hxy.
Qed.

Lemma selectStats_Sorted (cond : Row -> bool) (d : Database) :
  Sorted count_ge (selectStats cond d).
Proof. unfold selectStats. apply Sorted_merge_sort. exact _. Qed.

Lemma getStatsByPeriod_Sorted tza period date (r : t) stats :
  getStatsByPeriod tza period date r = Ok stats -> Sorted count_ge stats.
Proof.
  unfold getStatsByPeriod. destruct (negb (db r)); [discriminate|].
  destruct period.
  - destruct (JSString.toISODate date); [|discriminate].
    intros H; injection H as <-. apply selectStats_Sorted.
  - intros H; injection H as <-. apply selectStats_Sorted.
  - intros H; injection H as <-. apply selectStats_Sorted.
Qed.

Lemma Sorted_sortedByCountDesc (l : list KeyStats) :
  Sorted count_ge l -> StatisticsService.sortedByCountDesc l.
Proof.
  intros Hs i a b Ha Hb.
  pose proof (Sorted_adjacent count_ge l Hs i a b Ha Hb) as H.
  unfold count_ge in H. lia.
Qed.

(** *** Counting *)

Lemma fold_left_counts (l : list KeyStats) (a : Z) :
  fold_left (fun sum stat => sum + count stat) l a = a + countsTotal l.
Proof.
  revert a. induction l as [|x l IH]; intros a; simpl.
  - lia.
  - rewrite IH. lia.
Qed.

Lemma sumCounts_countsTotal (l : list KeyStats) :
  StatisticsService.sumCounts l = countsTotal l.
Proof. unfold StatisticsService.sumCounts. rewrite fold_left_counts. lia. Qed.

Lemma countsTotal_Permutation (l1 l2 : list KeyStats) :
  l1 ≡ₚ l2 -> countsTotal l1 = countsTotal l2.
Proof. induction 1; simpl; lia. Qed.

Lemma countsTotal_bump (name : string) (acc : list KeyStats) :
  countsTotal (bump name acc) = countsTotal acc + 1.
Proof.
  induction acc as [|x acc IH]; simpl.
  - lia.
  - destruct (String.eqb (stat_keyName x) name); simpl; lia.
Qed.

Lemma countsTotal_fold_bump (rows : list Row) (acc : list KeyStats) :
  countsTotal (fold_left (fun acc r => bump (key_name r) acc) rows acc)
  = countsTotal acc + Z.of_nat (length rows).
Proof.
  revert acc. induction rows as [|r rows IH]; intros acc; simpl length; simpl fold_left.
  - lia.
  - rewrite IH, countsTotal_bump. lia.
Qed.

(** The counts of a grouped query add up to the number of rows it
    selected. *)
Lemma sumCounts_selectStats (cond : Row -> bool) (d : Database) :
  StatisticsService.sumCounts (selectStats cond d)
  = Z.of_nat (length (List.filter cond (keystrokes d))).
Proof.
  rewrite sumCounts_countsTotal. unfold selectStats.
  rewrite (countsTotal_Permutation _ _ (merge_sort_Permutation count_ge _)).
  unfold groupByKeyName. rewrite countsTotal_fold_bump. simpl. lia.
Qed.

End Queries.

(** ** Date conditions on stored rows *)
Section RowConditions.
Import JSDate Sql.

Lemma daysInMonth_bounds y mn : 28 <= daysInMonth y mn <= 31.
Proof.
  unfold daysInMonth.
  destruct mn as [|p|p]; try lia.
  destruct (isLeapYear y);
  repeat (destruct p as [p|p|]; try lia).
Qed.

Lemma row_fields (r : Row) :
  rowDerived r ->
  date r = iso (rowYear r) (rowMonth r) (rowDay r) /\
  1 <= rowMonth r <= 12 /\
  1 <= rowDay r <= daysInMonth (rowYear r) (rowMonth r - 1).
Proof.
  intros (_ & Hd & _). pose proof (fields_valid (row_timestamp r)) as (Hm & Hday & _).
  unfold rowYear, rowMonth, rowDay.
  replace (MonthFromTime (row_timestamp r) + 1 - 1) with (MonthFromTime (row_timestamp r)) by lia.
  split; [rewrite Hd; apply isoDateOfTime_iso | split; [lia | exact Hday]].
Qed.

Lemma eqb_compare (a b : string) :
  String.eqb a b = match String.compare a b with Eq => true | _ => false end.
Proof.
  destruct (String.eqb_spec a b) as [->|Hne].
  - rewrite compare_refl. reflexivity.
  - destruct (String.compare a b) eqn:E; try reflexivity.
    apply String.compare_eq_iff in E. contradiction.
Qed.

Lemma dateBetween_month (r : Row) (Y M : Z) :
  rowDerived r -> 1000 <= Y <= 9999 -> 1 <= M <= 12 ->
  dateBetween (iso Y M 1) (iso Y M (daysInMonth Y (M - 1))) r
  = (rowYear r =? Y) && (rowMonth r =? M).
Proof.
  intros Hr HY HM. destruct (row_fields r Hr) as (Hd & Hm & Hday).
  pose proof (daysInMonth_bounds Y (M - 1)) as HL.
  pose proof (daysInMonth_bounds (rowYear r) (rowMonth r - 1)) as HL'.
  unfold dateBetween, JSString.text_le, String.leb. rewrite Hd.
  destruct (Z_le_dec 0 (rowYear r)) as [H0|H0];
    [destruct (Z_le_dec (rowYear r) 9999) as [H1|H1]|].
  - rewrite !compare_iso by lia. unfold lex3.
    destruct (Z.compare_spec Y (rowYear r)); destruct (Z.compare_spec (rowYear r) Y);
      try lia; destruct (Z.eqb_spec (rowYear r) Y); try lia; try reflexivity.
    destruct (Z.compare_spec M (rowMonth r)); destruct (Z.compare_spec (rowMonth r) M);
      try lia; destruct (Z.eqb_spec (rowMonth r) M); try lia; try reflexivity.
    subst. 
    destruct (Z.compare_spec 1 (rowDay r));
      destruct (Z.compare_spec (rowDay r) (daysInMonth (rowYear r) (rowMonth r - 1)));
      try lia; reflexivity.
  - rewrite String.compare_antisym, compare_iso_expanded by lia.
    destruct (Z.eqb_spec (rowYear r) Y); [lia | reflexivity].
  - rewrite String.compare_antisym, compare_iso_expanded by lia.
    destruct (Z.eqb_spec (rowYear r) Y); [lia | reflexivity].
Qed.

Lemma dateBetween_year (r : Row) (Y : Z) :
  rowDerived r -> 1000 <= Y <= 9999 ->
  dateBetween (iso Y 1 1) (iso Y 12 31) r = (rowYear r =? Y).
Proof.
  intros Hr HY. destruct (row_fields r Hr) as (Hd & Hm & Hday).
  pose proof (daysInMonth_bounds (rowYear r) (rowMonth r - 1)) as HL'.
  unfold dateBetween, JSString.text_le, String.leb. rewrite Hd.
  destruct (Z_le_dec 0 (rowYear r)) as [H0|H0];
    [destruct (Z_le_dec (rowYear r) 9999) as [H1|H1]|].
  - rewrite !compare_iso by lia. unfold lex3.
    destruct (Z.compare_spec Y (rowYear r)); destruct (Z.compare_spec (rowYear r) Y);
      try lia; destruct (Z.eqb_spec (rowYear r) Y); try lia; try reflexivity.
    destruct (Z.compare_spec 1 (rowMonth r)); destruct (Z.compare_spec (rowMonth r) 12);
      try lia; try reflexivity;
    destruct (Z.compare_spec 1 (rowDay r)); destruct (Z.compare_spec (rowDay r) 31);
      try lia; reflexivity.
  - rewrite String.compare_antisym, compare_iso_expanded by lia.
    destruct (Z.eqb_spec (rowYear r) Y); [lia | reflexivity].
  - rewrite String.compare_antisym, compare_iso_expanded by lia.
    destruct (Z.eqb_spec (rowYear r) Y); [lia | reflexivity].
Qed.

Lemma dateIs_day (r : Row) (Y M D : Z) :
  rowDerived r -> 1000 <= Y <= 9999 -> 1 <= M <= 12 -> 1 <= D <= 31 ->
  dateIs (iso Y M D) r = (rowYear r =? Y) && (rowMonth r =? M) && (rowDay r =? D).
Proof.
  intros Hr HY HM HD. destruct (row_fields r Hr) as (Hd & Hm & Hday).
  pose proof (daysInMonth_bounds (rowYear r) (rowMonth r - 1)) as HL'.
  unfold dateIs. rewrite eqb_compare, Hd.
  destruct (Z_le_dec 0 (rowYear r)) as [H0|H0];
    [destruct (Z_le_dec (rowYear r) 9999) as [H1|H1]|].
  - rewrite compare_iso by lia. unfold lex3.
    destruct (Z.compare_spec (rowYear r) Y); destruct (Z.eqb_spec (rowYear r) Y);
      try lia; try reflexivity.
    destruct (Z.compare_spec (rowMonth r) M); destruct (Z.eqb_spec (rowMonth r) M);
      try lia; try reflexivity.
    destruct (Z.compare_spec (rowDay r) D); destruct (Z.eqb_spec (rowDay r) D);
      try lia; reflexivity.
  - rewrite compare_iso_expanded by lia.
    destruct (Z.eqb_spec (rowYear r) Y); [lia | reflexivity].
  - rewrite compare_iso_expanded by lia.
    destruct (Z.eqb_spec (rowYear r) Y); [lia | reflexivity].
Qed.

(** *** The strings the month and year queries build *)

Lemma of_uint_acc_digitOf (n : Z) (l : Decimal.uint) (acc : positive) :
  0 <= n <= 9 ->
  Pos.of_uint_acc (digitOf n l) acc = Pos.of_uint_acc l (Z.to_pos (10 * Z.pos acc + n)).
Proof.
  intros Hn. digit_cases n Hn; digit_constructor; cbn [Pos.of_uint_acc]; f_equal; lia.
Qed.

Lemma of_uint_digitOf (n : Z) (l : Decimal.uint) :
  1 <= n <= 9 ->
  Pos.of_uint (digitOf n l) = Npos (Pos.of_uint_acc l (Z.to_pos n)).
Proof.
  intros Hn. assert (Hn' : n <> 0) by lia. digit_cases n Hn; try contradiction; reflexivity.
Qed.

Lemma unorm_digitOf (n : Z) (l : Decimal.uint) :
  1 <= n <= 9 -> Decimal.unorm (digitOf n l) = digitOf n l.
Proof. intros Hn. assert (Hn' : n <> 0) by lia. digit_cases n Hn; try contradiction; reflexivity. Qed.

Lemma string_of_uint_digitOf (n : Z) (l : Decimal.uint) :
  0 <= n <= 9 ->
  NilEmpty.string_of_uint (digitOf n l)
  = String (JSString.digit n) (NilEmpty.string_of_uint l).
Proof. intros Hn. digit_cases n Hn; reflexivity. Qed.

Lemma NilZero_string_of_uint_digitOf (n : Z) (l : Decimal.uint) :
  0 <= n <= 9 ->
  NilZero.string_of_uint (digitOf n l)
  = String (JSString.digit n) (NilEmpty.string_of_uint l).
Proof. intros Hn. digit_cases n Hn; reflexivity. Qed.

(** [String(Y)] of a four-digit number is its four digits. *)
Lemma decimal_numeral4 (Y : Z) :
  1000 <= Y <= 9999 -> JSString.decimal Y = JSString.numeral 4 Y.
Proof.
  intros HY. unfold JSString.numeral.
  change (10 ^ Z.of_nat 3) with 1000. change (10 ^ Z.of_nat 2) with 100.
  change (10 ^ Z.of_nat 1) with 10. change (10 ^ Z.of_nat 0) with 1.
  set (a := (Y / 1000) mod 10). set (b := (Y / 100) mod 10).
  set (c := (Y / 10) mod 10). set (d := (Y / 1) mod 10).
  assert (Ha : 1 <= a <= 9) by (unfold a; Z.div_mod_to_equations; lia).
  assert (Hb : 0 <= b <= 9) by (unfold b; Z.div_mod_to_equations; lia).
  assert (Hc : 0 <= c <= 9) by (unfold c; Z.div_mod_to_equations; lia).
  assert (Hd : 0 <= d <= 9) by (unfold d; Z.div_mod_to_equations; lia).
  assert (HYv : Y = 1000 * a + 100 * b + 10 * c + d)
    by (unfold a, b, c, d; Z.div_mod_to_equations; lia).
  set (u := digitOf a (digitOf b (digitOf c (digitOf d Decimal.Nil)))).
  assert (Hu : Z.of_int (Decimal.Pos u) = Y).
  { cbn [Z.of_int]. unfold Z.of_uint, u.
    rewrite of_uint_digitOf by exact Ha.
    rewrite !of_uint_acc_digitOf by assumption.
    cbn [Pos.of_uint_acc Z.of_N]. lia. }
  unfold JSString.decimal. rewrite <- Hu, DecimalZ.to_of.
  cbn [Decimal.norm]. unfold u at 1. rewrite unorm_digitOf by exact Ha.
  cbn [NilZero.string_of_int]. 
  rewrite NilZero_string_of_uint_digitOf, !string_of_uint_digitOf by lia. reflexivity.
Qed.

Lemma padStart2_decimal (n : Z) :
  0 <= n <= 99 -> JSString.padStart2 (JSString.decimal n) = JSString.numeral 2 n.
Proof.
  intros H.
  assert (A : forallb (fun n => String.eqb (JSString.padStart2 (JSString.decimal (Z.of_nat n)))
                                  (JSString.numeral 2 (Z.of_nat n)))
                (seq (Z.to_nat 0) (Z.to_nat 100)) = true) by (vm_compute; reflexivity).
  rewrite forallb_forall in A.
  specialize (A (Z.to_nat n)). rewrite Z2Nat.id in A by lia.
  apply String.eqb_eq. apply A. apply in_seq. lia.
Qed.

End RowConditions.

(** ** Counting rows by a key *)
Section Counting.

Lemma sumOver_ext ds f g :
  (forall D, In D ds -> f D = g D) -> sumOver ds f = sumOver ds g.
Proof.
  induction ds as [|d ds IH]; intros H; cbn [sumOver fold_right]; [reflexivity|].
  fold (sumOver ds f). fold (sumOver ds g).
  rewrite (H d (or_introl eq_refl)), IH; [reflexivity|].
  intros D HD. apply H. right. exact HD.
Qed.

Lemma sumOver_plus ds f g :
  sumOver ds (fun D => f D + g D) = sumOver ds f + sumOver ds g.
Proof.
  induction ds as [|d ds IH]; cbn [sumOver fold_right]; [reflexivity|].
  fold (sumOver ds f). fold (sumOver ds g). fold (sumOver ds (fun D => f D + g D)).
  rewrite IH. lia.
Qed.

Lemma sumOver_zero ds : sumOver ds (fun _ => 0) = 0.
Proof. induction ds as [|d ds IH]; cbn [sumOver fold_right]; [reflexivity|]. fold (sumOver ds (fun _ => 0)). lia. Qed.

Lemma sumOver_absent ds k :
  ~ In k ds -> sumOver ds (fun D => if k =? D then 1 else 0) = 0.
Proof.
  induction ds as [|d ds IH]; intros H; cbn [sumOver fold_right]; [reflexivity|].
  fold (sumOver ds (fun D => if k =? D then 1 else 0)).
  rewrite IH by (intros C; apply H; right; exact C).
  destruct (Z.eqb_spec k d) as [->|]; [exfalso; apply H; left; reflexivity | reflexivity].
Qed.

Lemma sumOver_present ds k :
  List.NoDup ds -> In k ds -> sumOver ds (fun D => if k =? D then 1 else 0) = 1.
Proof.
  induction 1 as [|d ds Hd Hnd IH]; intros Hin; [destruct Hin|].
  cbn [sumOver fold_right]. fold (sumOver ds (fun D => if k =? D then 1 else 0)).
  destruct (Z.eqb_spec k d) as [->|Hne].
  - rewrite sumOver_absent by exact Hd. reflexivity.
  - destruct Hin as [E|Hin]; [congruence|]. rewrite IH by exact Hin. reflexivity.
Qed.

(** Rows selected by [P], split by a key that takes its values in [ds]. *)
Lemma count_by_key {A : Type} (P : A -> bool) (key : A -> Z) (ds : list Z) (rows : list A) :
  List.NoDup ds ->
  (forall r, In r rows -> P r = true -> In (key r) ds) ->
  sumOver ds (fun D => Z.of_nat (length (List.filter (fun r => P r && (key r =? D)) rows)))
  = Z.of_nat (length (List.filter P rows)).
Proof.
  intros Hnd. induction rows as [|r rows IH]; intros Hkey.
  - cbn [List.filter length Z.of_nat]. apply sumOver_zero.
  - cbn [List.filter].
    rewrite (sumOver_ext ds _
               (fun D => (if P r then if key r =? D then 1 else 0 else 0)
                         + Z.of_nat (length (List.filter (fun r => P r && (key r =? D)) rows)))).
    + rewrite sumOver_plus, IH by (intros x Hx; apply Hkey; right; exact Hx).
      destruct (P r) eqn:EP.
      * rewrite sumOver_present; [cbn [length]; lia | exact Hnd |].
        apply Hkey; [left; reflexivity | exact EP].
      * rewrite sumOver_zero. lia.
    + intros D _. destruct (P r); cbn [andb]; [|lia].
      destruct (key r =? D); cbn [length]; lia.
Qed.

Lemma upTo_In (n k : Z) : In k (StatisticsService.upTo (Some n)) <-> 1 <= k <= n.
Proof.
  unfold StatisticsService.upTo. rewrite in_map_iff. split.
  - intros (i & <- & Hi). apply in_seq in Hi. lia.
  - intros H. exists (Z.to_nat k). split; [lia|]. apply in_seq. lia.
Qed.

Lemma upTo_NoDup (n : JSDate.Num) : List.NoDup (StatisticsService.upTo n).
Proof.
  destruct n as [n|]; [|constructor]. unfold StatisticsService.upTo.
  apply Finite.Injective_map_NoDup; [intros a b H; lia | apply List.seq_NoDup].
Qed.

Lemma trendTotal_snoc {A : Type} (acc : list (A * Z)) (x : A * Z) :
  trendTotal (acc ++ [x]) = trendTotal acc + snd x.
Proof. unfold trendTotal. rewrite fold_left_app. reflexivity. Qed.

End Counting.

(** ** Dates the service builds *)
Section ServiceDates.
Import JSDate Sql KeystrokeRepository.

Lemma fullYear_id (Y : Z) : 100 <= Y -> fullYear Y = Y.
Proof.
  intros H. unfold fullYear.
  replace ((0 <=? Y) && (Y <=? 99)) with false; [reflexivity|].
  symmetry. apply andb_false_iff. right. lia.
Qed.

Lemma MakeTime_zero : MakeTime 0 0 0 0 = 0.
Proof. reflexivity. Qed.

Lemma DayFromYear_bounds (Y : Z) :
  1000 <= Y <= 9999 -> -400000 <= DayFromYear Y <= 3000000.
Proof. intros H. unfold DayFromYear. Z.div_mod_to_equations. lia. Qed.

Lemma DayFromMonth_bounds (mn l : Z) : 0 <= l <= 1 -> 0 <= DayFromMonth mn l <= 335.
Proof.
  intros H. unfold DayFromMonth.
  destruct mn as [|p|p]; try lia.
  repeat (destruct p as [p|p|]; try lia).
Qed.

(** A calendar day of a four-digit year, shifted by at most a day, is a
    valid time value. *)
Lemma TimeClip_day (Y mn D shift : Z) :
  1000 <= Y <= 9999 -> 0 <= mn <= 11 -> 0 <= D <= 31 ->
  Z.abs shift <= msPerDay ->
  TimeClip (MakeDate (MakeDay Y mn D) 0 + shift) = Some (MakeDate (MakeDay Y mn D) 0 + shift).
Proof.
  intros HY Hmn HD Hs. unfold TimeClip.
  rewrite (MakeDay_in_range Y mn D Hmn).
  pose proof (DayFromYear_bounds Y HY).
  pose proof (DayFromMonth_bounds mn (if isLeapYear Y then 1 else 0)
                ltac:(destruct (isLeapYear Y); lia)).
  unfold MakeDate, maxTimeValue, msPerDay in *.
  replace (Z.abs _ <=? _) with true; [reflexivity|]. symmetry. apply Z.leb_le. lia.
Qed.

Lemma Day_shifted (day shift : Z) :
  0 <= shift < msPerDay -> Day (MakeDate day 0 + shift) = day.
Proof.
  intros H. replace (MakeDate day 0 + shift) with (MakeDate day shift)
    by (unfold MakeDate; lia).
  apply Day_MakeDate. exact H.
Qed.

(** [new Date(Date.UTC(year, mn, D, 0, 0, 0, 0))] and its ISO date. *)
Lemma UTC_day (year mn D : Z) :
  1000 <= fullYear year <= 9999 -> 0 <= mn <= 11 ->
  1 <= D <= daysInMonth (fullYear year) mn ->
  exists T,
    ofNum (UTC (Some year) (Some mn) (Some D) (Some 0) (Some 0) (Some 0) (Some 0)) = Some T /\
    Day T = MakeDay (fullYear year) mn D /\
    JSString.isoDateOfTime T = iso (fullYear year) (mn + 1) D.
Proof.
  intros HY Hmn HD. pose proof (daysInMonth_bounds (fullYear year) mn) as HL.
  exists (MakeDate (MakeDay (fullYear year) mn D) 0).
  assert (Hday : Day (MakeDate (MakeDay (fullYear year) mn D) 0) = MakeDay (fullYear year) mn D)
    by (apply Day_MakeDate; unfold msPerDay; lia).
  split; [|split; [exact Hday|]].
  - unfold UTC, ofNum. rewrite MakeTime_zero.
    pose proof (TimeClip_day (fullYear year) mn D 0 HY Hmn ltac:(lia)
                  ltac:(unfold msPerDay; lia)) as E.
    rewrite Z.add_0_r in E. rewrite E, E. reflexivity.
  - rewrite isoDateOfTime_iso.
    destruct (fields_of_MakeDay _ _ _ _ Hmn HD Hday) as (-> & -> & ->). reflexivity.
Qed.

(** [new Date(year, mn, D)] in local time, read back with the local
    getters. *)
Lemma local_day (tza year mn D : Z) :
  Z.abs tza <= msPerDay ->
  1000 <= fullYear year <= 9999 -> 0 <= mn <= 11 ->
  1 <= D <= daysInMonth (fullYear year) mn ->
  exists t,
    ofLocalYMD tza (Some year) (Some mn) (Some D) = Some t /\
    YearFromTime (LocalTime tza t) = fullYear year /\
    MonthFromTime (LocalTime tza t) = mn /\
    DateFromTime (LocalTime tza t) = D.
Proof.
  intros Htz HY Hmn HD. pose proof (daysInMonth_bounds (fullYear year) mn) as HL.
  exists (MakeDate (MakeDay (fullYear year) mn D) 0 - tza). split.
  - unfold ofLocalYMD, UTCofLocal.
    pose proof (TimeClip_day (fullYear year) mn D (- tza) HY Hmn ltac:(lia) ltac:(lia)) as E.
    replace (_ + - tza) with (MakeDate (MakeDay (fullYear year) mn D) 0 - tza) in E by lia.
    exact E.
  - unfold LocalTime.
    replace (MakeDate (MakeDay (fullYear year) mn D) 0 - tza + tza)
      with (MakeDate (MakeDay (fullYear year) mn D) 0) by lia.
    apply (fields_of_MakeDay _ _ _ _ Hmn HD).
    apply Day_MakeDate. unfold msPerDay. lia.
Qed.

(** [new Date(Y, M, 0).getDate()]: the number of days of month [M]. *)
Lemma local_last_day (tza Y M : Z) :
  Z.abs tza <= msPerDay -> 1000 <= Y <= 9999 -> 1 <= M <= 12 ->
  getDate tza (ofLocalYMD tza (Some Y) (Some M) (Some 0)) = Some (daysInMonth Y (M - 1)).
Proof.
  intros Htz HY HM. pose proof (daysInMonth_bounds Y (M - 1)) as HL.
  assert (HfY : fullYear Y = Y) by (apply fullYear_id; lia).
  destruct (local_day tza Y (M - 1) (daysInMonth Y (M - 1)) Htz) as (t & Ht & _ & _ & Hd);
    rewrite ?HfY; try lia.
  unfold ofLocalYMD in *. rewrite HfY in *. rewrite (MakeDay_day_zero Y M HM).
  rewrite Ht. cbn [getDate option_map]. rewrite Hd. reflexivity.
Qed.

End ServiceDates.

(** ** Period queries as row counts, and the trend loops *)
Section Trends.
Import JSDate Sql KeystrokeRepository StatisticsService.

Lemma countRows_ext (P Q : Row -> bool) (repo : KeystrokeRepository.t) :
  storeDerived repo ->
  (forall r, rowDerived r -> P r = Q r) ->
  countRows P repo = countRows Q repo.
Proof.
  intros Hs H. unfold countRows. f_equal. f_equal. apply filter_ext_in.
  intros r Hr. apply H. unfold storeDerived in Hs. rewrite Forall_forall in Hs.
  apply Hs, list_elem_of_In, Hr.
Qed.

Lemma getStatsByPeriod_day_count tza repo T st Y M D :
  storeDerived repo ->
  JSString.isoDateOfTime T = iso Y M D ->
  1000 <= Y <= 9999 -> 1 <= M <= 12 -> 1 <= D <= 31 ->
  getStatsByPeriod tza PerDay (Some T) repo = Ok st ->
  sumCounts st
  = countRows (fun r => (rowYear r =? Y) && (rowMonth r =? M) && (rowDay r =? D)) repo.
Proof.
  intros Hs Hiso HY HM HD. unfold getStatsByPeriod.
  destruct (negb (db repo)); [discriminate|].
  cbn [JSString.toISODate option_map]. rewrite Hiso.
  intros H; injection H as <-. rewrite sumCounts_selectStats.
  apply countRows_ext; [exact Hs|]. intros r Hr. apply dateIs_day; assumption.
Qed.

Lemma month_strings (Y M L : Z) :
  1000 <= Y <= 9999 -> 1 <= M <= 12 -> 1 <= L <= 31 ->
  JSString.numToString (Some Y) +:+ "-" +:+
    JSString.padStart2 (JSString.numToString (Some M)) +:+ "-01" = iso Y M 1 /\
  JSString.numToString (Some Y) +:+ "-" +:+
    JSString.padStart2 (JSString.numToString (Some M)) +:+ "-" +:+
    JSString.padStart2 (JSString.numToString (Some L)) = iso Y M L.
Proof.
  intros HY HM HL. unfold JSString.numToString, iso.
  rewrite decimal_numeral4, !padStart2_decimal, isoYear_4 by lia.
  split; reflexivity.
Qed.

Lemma year_strings (Y : Z) :
  1000 <= Y <= 9999 ->
  JSString.numToString (Some Y) +:+ "-01-01" = iso Y 1 1 /\
  JSString.numToString (Some Y) +:+ "-12-31" = iso Y 12 31.
Proof.
  intros HY. unfold JSString.numToString, iso.
  rewrite decimal_numeral4, isoYear_4 by lia.
  split; reflexivity.
Qed.

Lemma getStatsByPeriod_month_count tza repo t st Y M :
  storeDerived repo ->
  Z.abs tza <= msPerDay ->
  1000 <= Y <= 9999 -> 1 <= M <= 12 ->
  YearFromTime (LocalTime tza t) = Y ->
  MonthFromTime (LocalTime tza t) = M - 1 ->
  getStatsByPeriod tza PerMonth (Some t) repo = Ok st ->
  sumCounts st = countRows (fun r => (rowYear r =? Y) && (rowMonth r =? M)) repo.
Proof.
  intros Hs Htz HY HM Hy Hm. unfold getStatsByPeriod.
  destruct (negb (db repo)); [discriminate|].
  cbn [getFullYear getMonth option_map numAdd]. rewrite Hy, Hm.
  replace (M - 1 + 1) with M by lia.
  rewrite (local_last_day tza Y M Htz HY HM).
  pose proof (daysInMonth_bounds Y (M - 1)) as HL.
  destruct (month_strings Y M (daysInMonth Y (M - 1)) HY HM ltac:(lia)) as [-> ->].
  intros H; injection H as <-. rewrite sumCounts_selectStats.
  apply countRows_ext; [exact Hs|]. intros r Hr. apply dateBetween_month; assumption.
Qed.

Lemma getStatsByPeriod_year_count tza repo t st Y :
  storeDerived repo ->
  1000 <= Y <= 9999 ->
  YearFromTime (LocalTime tza t) = Y ->
  getStatsByPeriod tza PerYear (Some t) repo = Ok st ->
  sumCounts st = countRows (fun r => rowYear r =? Y) repo.
Proof.
  intros Hs HY Hy. unfold getStatsByPeriod.
  destruct (negb (db repo)); [discriminate|].
  cbn [getFullYear option_map]. rewrite Hy.
  destruct (year_strings Y HY) as [-> ->].
  intros H; injection H as <-. rewrite sumCounts_selectStats.
  apply countRows_ext; [exact Hs|]. intros r Hr. apply dateBetween_year; assumption.
Qed.

(** *** The trend loops *)

Lemma dailyTrendLoop_total tza year month repo (f : Z -> Z) days :
  (forall D st, In D days ->
     getStatsByPeriod tza PerDay
       (ofNum (UTC (Some year) (Some (month - 1)) (Some D)
                 (Some 0) (Some 0) (Some 0) (Some 0))) repo = Ok st ->
     sumCounts st = f D) ->
  forall acc s trend s',
    dailyTrendLoop tza year month days repo acc s = (Ok trend, s') ->
    trendTotal trend = trendTotal acc + sumOver days f.
Proof.
  induction days as [|D days IH]; intros Hf acc s trend s'; cbn [dailyTrendLoop].
  - intros H; injection H as <- _. cbn [sumOver fold_right]. lia.
  - unfold query.
    destruct (getStatsByPeriod tza PerDay _ repo) as [st|e] eqn:Q; [|discriminate].
    intros H. apply IH in H; [|intros D' st' HD'; apply Hf; right; exact HD'].
    rewrite H, trendTotal_snoc. cbn [snd sumOver fold_right]. fold (sumOver days f).
    rewrite (Hf D st (or_introl eq_refl) Q). lia.
Qed.

Lemma monthlyTrendLoop_total tza year repo (f : Z -> Z) months :
  (forall m st, In m months ->
     getStatsByPeriod tza PerMonth
       (ofNum (UTC (Some year) (Some (m - 1)) (Some 1)
                 (Some 0) (Some 0) (Some 0) (Some 0))) repo = Ok st ->
     sumCounts st = f m) ->
  forall acc s trend s',
    monthlyTrendLoop tza year months repo acc s = (Ok trend, s') ->
    trendTotal trend = trendTotal acc + sumOver months f.
Proof.
  induction months as [|m months IH]; intros Hf acc s trend s'; cbn [monthlyTrendLoop].
  - intros H; injection H as <- _. cbn [sumOver fold_right]. lia.
  - unfold query.
    destruct (getStatsByPeriod tza PerMonth _ repo) as [st|e] eqn:Q; [|discriminate].
    intros H. apply IH in H; [|intros m' st' Hm'; apply Hf; right; exact Hm'].
    rewrite H, trendTotal_snoc. cbn [snd sumOver fold_right]. fold (sumOver months f).
    rewrite (Hf m st (or_introl eq_refl) Q). lia.
Qed.

(** A freshly computed monthly result of a four-digit year: the daily
    trend adds up to the total, in every time zone. *)
Lemma monthly_trend_fresh tza year month repo s stats trend s' :
  Z.abs tza <= msPerDay ->
  storeDerived repo ->
  1000 <= fullYear year <= 9999 -> 1 <= month <= 12 ->
  getStatsByPeriod tza PerMonth
    (ofLocalYMD tza (Some year) (Some (month - 1)) (Some 1)) repo = Ok stats ->
  getDailyTrendForMonth tza year month repo s = (Ok trend, s') ->
  trendTotal trend = sumCounts stats.
Proof.
  intros Htz Hs HY HM Hq Ht.
  set (Y := fullYear year) in *.
  pose proof (daysInMonth_bounds Y (month - 1)) as HL.
  (* the total *)
  destruct (local_day tza year (month - 1) 1 Htz HY ltac:(lia) ltac:(fold Y; lia))
    as (t & Et & Hy & Hm & _).
  rewrite Et in Hq. fold Y in Hy.
  rewrite (getStatsByPeriod_month_count tza repo t stats Y month Hs Htz HY HM Hy Hm Hq).
  (* the trend *)
  unfold getDailyTrendForMonth in Ht.
  assert (Hlast : getDate tza (ofLocalYMD tza (Some year) (Some month) (Some 0))
                  = Some (daysInMonth Y (month - 1))).
  { pose proof (local_last_day tza Y month Htz HY HM) as E.
    unfold ofLocalYMD in *. rewrite (fullYear_id Y) in E by lia. exact E. }
  rewrite Hlast in Ht.
  apply (dailyTrendLoop_total tza year month repo
           (fun D => countRows (fun r => (rowYear r =? Y) && (rowMonth r =? month)
                                         && (rowDay r =? D)) repo)) in Ht.
  - rewrite Ht. unfold trendTotal at 1. cbn [fold_left]. rewrite Z.add_0_l.
    unfold countRows. apply count_by_key; [apply upTo_NoDup|].
    intros r Hr HP. apply upTo_In.
    apply andb_prop in HP as [Hy' Hm']. apply Z.eqb_eq in Hy', Hm'.
    unfold storeDerived in Hs. rewrite Forall_forall in Hs.
    destruct (row_fields r (Hs r (proj2 (list_elem_of_In _ _) Hr))) as (_ & _ & Hd).
    rewrite Hy', Hm' in Hd. exact Hd.
  - intros D st HD HQ. apply upTo_In in HD.
    destruct (UTC_day year (month - 1) D HY ltac:(lia) ltac:(fold Y; lia))
      as (T & ET & _ & Hiso).
    rewrite ET in HQ. fold Y in Hiso. replace (month - 1 + 1) with month in Hiso by lia.
    apply (getStatsByPeriod_day_count tza repo T st Y month D Hs Hiso HY HM ltac:(lia) HQ).
Qed.

(** A freshly computed yearly result of a four-digit year, on a machine at
    or east of UTC: the monthly trend adds up to the total. *)
Lemma yearly_trend_fresh tza year repo s stats trend s' :
  0 <= tza < msPerDay ->
  storeDerived repo ->
  1000 <= fullYear year <= 9999 ->
  getStatsByPeriod tza PerYear
    (ofLocalYMD tza (Some year) (Some 0) (Some 1)) repo = Ok stats ->
  getMonthlyTrendForYear tza year repo s = (Ok trend, s') ->
  trendTotal trend = sumCounts stats.
Proof.
  intros Htz Hs HY Hq Ht.
  set (Y := fullYear year) in *.
  assert (Htz' : Z.abs tza <= msPerDay) by lia.
  destruct (local_day tza year 0 1 Htz' HY ltac:(lia) ltac:(cbn; lia))
    as (t & Et & Hy & _ & _).
  rewrite Et in Hq. fold Y in Hy.
  rewrite (getStatsByPeriod_year_count tza repo t stats Y Hs HY Hy Hq).
  unfold getMonthlyTrendForYear in Ht.
  apply (monthlyTrendLoop_total tza year repo
           (fun m => countRows (fun r => (rowYear r =? Y) && (rowMonth r =? m)) repo)) in Ht.
  - rewrite Ht. unfold trendTotal at 1. cbn [fold_left]. rewrite Z.add_0_l.
    unfold countRows. apply count_by_key; [apply upTo_NoDup|].
    intros r Hr HP. apply upTo_In.
    unfold storeDerived in Hs. rewrite Forall_forall in Hs.
    destruct (row_fields r (Hs r (proj2 (list_elem_of_In _ _) Hr))) as (_ & Hm & _).
    exact Hm.
  - intros m st Hm HQ. apply upTo_In in Hm.
    destruct (UTC_day year (m - 1) 1 HY ltac:(lia)
                ltac:(pose proof (daysInMonth_bounds (fullYear year) (m - 1)); lia))
      as (T & ET & HdayT & _).
    rewrite ET in HQ. fold Y in HdayT.
    assert (HT : T = MakeDate (MakeDay Y (m - 1) 1) 0).
    { unfold UTC, ofNum in ET. rewrite MakeTime_zero in ET.
      fold Y in ET.
      destruct (TimeClip (MakeDate (MakeDay Y (m - 1) 1) 0)) as [x|] eqn:E; [|discriminate].
      apply TimeClip_Some in E as [-> _]. 
      destruct (TimeClip (MakeDate (MakeDay Y (m - 1) 1) 0)) as [x|] eqn:E; [|discriminate].
      apply TimeClip_Some in E as [-> _]. injection ET as <-. reflexivity. }
    assert (Hday : Day (LocalTime tza T) = MakeDay Y (m - 1) 1).
    { unfold LocalTime. rewrite HT. apply Day_shifted. exact Htz. }
    destruct (fields_of_MakeDay Y (m - 1) 1 (LocalTime tza T) ltac:(lia)
                ltac:(pose proof (daysInMonth_bounds Y (m - 1)); lia) Hday)
      as (Hy' & Hm' & _).
    apply (getStatsByPeriod_month_count tza repo T st Y m Hs Htz' HY Hm Hy' Hm' HQ).
Qed.

End Trends.

(** ** StatisticsService: what the cache holds *)
Section CacheInvariant.
Import Sql KeystrokeRepository StatisticsService.

(** The machines and stores the service runs against, and a property of
    cached values that every freshly computed value has. *)
Variable R : Z -> KeystrokeRepository.t -> Prop.
Variable Q : CacheData -> Prop.

Hypothesis fresh_daily :
  forall tza date repo stats,
    R tza repo ->
    getStatsByPeriod tza PerDay date repo = Ok stats ->
    Q (DailyData {| ds_date := date;
                    ds_totalKeystrokes := sumCounts stats;
                    ds_keyBreakdown := stats |}).

Hypothesis fresh_monthly :
  forall tza year month repo stats s trend s',
    R tza repo ->
    1 <= month <= 12 ->
    getStatsByPeriod tza PerMonth
      (JSDate.ofLocalYMD tza (Some year) (Some (month - 1)) (Some 1)) repo = Ok stats ->
    getDailyTrendForMonth tza year month repo s = (Ok trend, s') ->
    Q (MonthlyData {| ms_year := year;
                      ms_month := month;
                      ms_totalKeystrokes := sumCounts stats;
                      dailyTrend := trend;
                      ms_keyBreakdown := stats |}).

Hypothesis fresh_yearly :
  forall tza year repo stats s trend s',
    R tza repo ->
    getStatsByPeriod tza PerYear
      (JSDate.ofLocalYMD tza (Some year) (Some 0) (Some 1)) repo = Ok stats ->
    getMonthlyTrendForYear tza year repo s = (Ok trend, s') ->
    Q (YearlyData {| ys_year := year;
                     ys_totalKeystrokes := sumCounts stats;
                     monthlyTrend := trend;
                     ys_keyBreakdown := stats |}).

Lemma getFromCache_inv now key s :
  cacheInv Q s ->
  cacheInv Q (snd (getFromCache now key s)) /\
  (forall v, fst (getFromCache now key s) = Some v -> Q v).
Proof.
  intros Hs. unfold getFromCache.
  destruct (cache s !! key) as [entry|] eqn:E; cbn [fst snd].
  - destruct (expiresAt entry <? now); cbn [fst snd].
    + split; [|discriminate].
      intros k e Hk. cbn [cache] in Hk.
      apply lookup_delete_Some in Hk as [_ Hk]. exact (Hs _ _ Hk).
    + split; [exact Hs|]. intros v Hv. injection Hv as <-. exact (Hs _ _ E).
  - split; [exact Hs | discriminate].
Qed.

Lemma setCache_inv now key v s :
  cacheInv Q s -> Q v -> cacheInv Q (setCache now key v s).
Proof.
  intros Hs Hv k e Hk. unfold setCache in Hk; cbn [cache] in Hk.
  apply lookup_insert_Some in Hk as [[_ <-]|[_ Hk]].
  - exact Hv.
  - exact (Hs _ _ Hk).
Qed.

Lemma cacheInv_same_cache s s' : cache s' = cache s -> cacheInv Q s -> cacheInv Q s'.
Proof. intros E Hs k e Hk. rewrite E in Hk. exact (Hs _ _ Hk). Qed.

Lemma dailyTrendLoop_cache tza year month days repo acc s :
  cache (snd (dailyTrendLoop tza year month days repo acc s)) = cache s.
Proof.
  revert acc s. induction days as [|d days IH]; intros acc s; cbn [dailyTrendLoop].
  - reflexivity.
  - unfold query. destruct (getStatsByPeriod tza PerDay _ repo); cbn [snd].
    + rewrite IH. reflexivity.
    + reflexivity.
Qed.

Lemma monthlyTrendLoop_cache tza year months repo acc s :
  cache (snd (monthlyTrendLoop tza year months repo acc s)) = cache s.
Proof.
  revert acc s. induction months as [|m months IH]; intros acc s; cbn [monthlyTrendLoop].
  - reflexivity.
  - unfold query. destruct (getStatsByPeriod tza PerMonth _ repo); cbn [snd].
    + rewrite IH. reflexivity.
    + reflexivity.
Qed.

Lemma getDailyStats_inv tza now date repo s :
  R tza repo ->
  cacheInv Q s ->
  cacheInv Q (snd (getDailyStats tza now date repo s)) /\
  (forall v, fst (getDailyStats tza now date repo s) = Ok v -> Q (DailyData v)).
Proof.
  intros HR Hs. unfold getDailyStats.
  set (key := getCacheKey "daily" _).
  destruct (getFromCache_inv now key s Hs) as [Hs1 Hhit].
  destruct (getFromCache now key s) as [[[v|v|v]|] s1]; cbn [fst snd] in *.
  - split; [exact Hs1|]. intros v' E. injection E as <-. exact (Hhit _ eq_refl).
  - split; [exact Hs1 | discriminate].
  - split; [exact Hs1 | discriminate].
  - unfold query. destruct (getStatsByPeriod tza PerDay _ repo) as [stats|e] eqn:E;
      cbv beta iota; cbn [fst snd].
    + pose proof (fresh_daily _ _ _ _ HR E) as Hok.
      split.
      * apply setCache_inv; [|exact Hok]. exact Hs1.
      * intros v E'. injection E' as <-. exact Hok.
    + split; [exact Hs1 | discriminate].
Qed.

Lemma getMonthlyStats_inv tza now year month repo s :
  R tza repo ->
  cacheInv Q s ->
  cacheInv Q (snd (getMonthlyStats tza now year month repo s)) /\
  (forall v, fst (getMonthlyStats tza now year month repo s) = Ok v -> Q (MonthlyData v)).
Proof.
  intros HR Hs. unfold getMonthlyStats.
  destruct ((month <? 1) || (month >? 12)) eqn:Hm; [split; [exact Hs | discriminate]|].
  apply orb_false_iff in Hm as [Hm1 Hm2].
  assert (Hmonth : 1 <= month <= 12) by lia.
  set (key := getCacheKey "monthly" _).
  destruct (getFromCache_inv now key s Hs) as [Hs1 Hhit].
  destruct (getFromCache now key s) as [[[v|v|v]|] s1]; cbn [fst snd] in *.
  - split; [exact Hs1 | discriminate].
  - split; [exact Hs1|]. intros v' E. injection E as <-. exact (Hhit _ eq_refl).
  - split; [exact Hs1 | discriminate].
  - unfold query. destruct (getStatsByPeriod tza PerMonth _ repo) as [stats|e] eqn:E;
      cbv beta iota; cbn [fst snd].
    + match goal with |- context [getDailyTrendForMonth ?a ?b ?c ?d ?e] =>
        pose proof (dailyTrendLoop_cache a b c
                      (upTo (JSDate.getDate a (JSDate.ofLocalYMD a (Some b) (Some c) (Some 0))))
                      d [] e) as Hc;
        fold (getDailyTrendForMonth a b c d e) in Hc;
        destruct (getDailyTrendForMonth a b c d e) as [[trend|e'] s3] eqn:T end;
        cbn [fst snd] in *.
      * pose proof (fresh_monthly _ _ _ _ _ _ _ _ HR Hmonth E T) as Hok.
        split.
        -- apply setCache_inv; [|exact Hok]. eapply cacheInv_same_cache; [exact Hc|exact Hs1].
        -- intros v E'. injection E' as <-. exact Hok.
      * split; [|discriminate]. eapply cacheInv_same_cache; [exact Hc|exact Hs1].
    + split; [exact Hs1 | discriminate].
Qed.

Lemma getYearlyStats_inv tza now year repo s :
  R tza repo ->
  cacheInv Q s ->
  cacheInv Q (snd (getYearlyStats tza now year repo s)) /\
  (forall v, fst (getYearlyStats tza now year repo s) = Ok v -> Q (YearlyData v)).
Proof.
  intros HR Hs. unfold getYearlyStats.
  set (key := getCacheKey "yearly" _).
  destruct (getFromCache_inv now key s Hs) as [Hs1 Hhit].
  destruct (getFromCache now key s) as [[[v|v|v]|] s1]; cbn [fst snd] in *.
  - split; [exact Hs1 | discriminate].
  - split; [exact Hs1 | discriminate].
  - split; [exact Hs1|]. intros v' E. injection E as <-. exact (Hhit _ eq_refl).
  - unfold query. destruct (getStatsByPeriod tza PerYear _ repo) as [stats|e] eqn:E;
      cbv beta iota; cbn [fst snd].
    + match goal with |- context [getMonthlyTrendForYear ?a ?b ?c ?d] =>
        pose proof (monthlyTrendLoop_cache a b (upTo (Some 12)) c [] d) as Hc;
        fold (getMonthlyTrendForYear a b c d) in Hc;
        destruct (getMonthlyTrendForYear a b c d) as [[trend|e'] s3] eqn:T end;
        cbn [fst snd] in *.
      * pose proof (fresh_yearly _ _ _ _ _ _ _ HR E T) as Hok.
        split.
        -- apply setCache_inv; [|exact Hok]. eapply cacheInv_same_cache; [exact Hc|exact Hs1].
        -- intros v E'. injection E' as <-. exact Hok.
      * split; [|discriminate]. eapply cacheInv_same_cache; [exact Hc|exact Hs1].
    + split; [exact Hs1 | discriminate].
Qed.

Lemma getTopKeys_cache tza period date limit repo s :
  cache (snd (getTopKeys tza period date limit repo s)) = cache s.
Proof.
  unfold getTopKeys, query. destruct (getStatsByPeriod tza period date repo); reflexivity.
Qed.

(** Every state the service can reach holds only such values. *)
Lemma reachableWith_inv s : reachableWith R s -> cacheInv Q s.
Proof.
  induction 1 as [|s _ IH|tza now date repo s HR _ IH|tza now year month repo s HR _ IH
                  |tza now year repo s HR _ IH|tza period date limit repo s _ IH].
  - intros k e Hk. cbn [create cache] in Hk. rewrite lookup_empty in Hk. discriminate.
  - intros k e Hk. cbn [clearCache cache] in Hk. rewrite lookup_empty in Hk. discriminate.
  - exact (proj1 (getDailyStats_inv tza now date repo s HR IH)).
  - exact (proj1 (getMonthlyStats_inv tza now year month repo s HR IH)).
  - exact (proj1 (getYearlyStats_inv tza now year repo s HR IH)).
  - eapply cacheInv_same_cache; [apply getTopKeys_cache | exact IH].
Qed.

End CacheInvariant.

(** ** StatisticsService: totals, order, trends *)
Section Service.
Import Sql KeystrokeRepository StatisticsService.

Lemma fresh_breakdownOK stats :
  Sorted count_ge stats -> breakdownOK (sumCounts stats) stats.
Proof. intros H. split; [apply sumCounts_countsTotal | exact H]. Qed.

Lemma dataOK_fresh_daily tza date repo stats :
  anyMachine tza repo ->
  getStatsByPeriod tza PerDay date repo = Ok stats ->
  dataOK (DailyData {| ds_date := date; ds_totalKeystrokes := sumCounts stats;
                       ds_keyBreakdown := stats |}).
Proof. intros _ H. exact (fresh_breakdownOK _ (getStatsByPeriod_Sorted _ _ _ _ _ H)). Qed.

Lemma dataOK_fresh_monthly tza year month repo stats (s : StatisticsService.t)
    (trend : list (JSDate.Date * Z)) (s' : StatisticsService.t) :
  anyMachine tza repo ->
  1 <= month <= 12 ->
  getStatsByPeriod tza PerMonth
    (JSDate.ofLocalYMD tza (Some year) (Some (month - 1)) (Some 1)) repo = Ok stats ->
  getDailyTrendForMonth tza year month repo s = (Ok trend, s') ->
  dataOK (MonthlyData {| ms_year := year; ms_month := month;
                         ms_totalKeystrokes := sumCounts stats;
                         dailyTrend := trend; ms_keyBreakdown := stats |}).
Proof. intros _ _ H _. exact (fresh_breakdownOK _ (getStatsByPeriod_Sorted _ _ _ _ _ H)). Qed.

Lemma dataOK_fresh_yearly tza year repo stats (s : StatisticsService.t)
    (trend : list (Z * Z)) (s' : StatisticsService.t) :
  anyMachine tza repo ->
  getStatsByPeriod tza PerYear
    (JSDate.ofLocalYMD tza (Some year) (Some 0) (Some 1)) repo = Ok stats ->
  getMonthlyTrendForYear tza year repo s = (Ok trend, s') ->
  dataOK (YearlyData {| ys_year := year; ys_totalKeystrokes := sumCounts stats;
                        monthlyTrend := trend; ys_keyBreakdown := stats |}).
Proof. intros _ H _. exact (fresh_breakdownOK _ (getStatsByPeriod_Sorted _ _ _ _ _ H)). Qed.

Lemma reachable_dataOK s : reachable s -> cacheInv dataOK s.
Proof.
  apply (reachableWith_inv anyMachine dataOK
           dataOK_fresh_daily dataOK_fresh_monthly dataOK_fresh_yearly).
Qed.

Lemma getDailyStats_OK tza now date repo s v :
  cacheInv dataOK s ->
  fst (getDailyStats tza now date repo s) = Ok v ->
  breakdownOK (ds_totalKeystrokes v) (ds_keyBreakdown v).
Proof.
  intros Hs.
  exact (proj2 (getDailyStats_inv anyMachine dataOK dataOK_fresh_daily
                  tza now date repo s I Hs) v).
Qed.

Lemma getMonthlyStats_OK tza now year month repo s v :
  cacheInv dataOK s ->
  fst (getMonthlyStats tza now year month repo s) = Ok v ->
  breakdownOK (ms_totalKeystrokes v) (ms_keyBreakdown v).
Proof.
  intros Hs.
  exact (proj2 (getMonthlyStats_inv anyMachine dataOK dataOK_fresh_monthly
                  tza now year month repo s I Hs) v).
Qed.

Lemma getYearlyStats_OK tza now year repo s v :
  cacheInv dataOK s ->
  fst (getYearlyStats tza now year repo s) = Ok v ->
  breakdownOK (ys_totalKeystrokes v) (ys_keyBreakdown v).
Proof.
  intros Hs.
  exact (proj2 (getYearlyStats_inv anyMachine dataOK dataOK_fresh_yearly
                  tza now year repo s I Hs) v).
Qed.

Lemma getTopKeys_Sorted tza period date limit repo s top s' :
  getTopKeys tza period date limit repo s = (Ok top, s') -> Sorted count_ge top.
Proof.
  unfold getTopKeys, query.
  destruct (getStatsByPeriod tza period date repo) as [stats|e] eqn:E; [|discriminate].
  intros H. injection H as <- _.
  unfold slice0. destruct (limit <? 0); apply Sorted_firstn;
    exact (getStatsByPeriod_Sorted _ _ _ _ _ E).
Qed.

(** C9. The breakdown [getStatsByPeriod] returns is in descending order of
    count at every granularity and anchor date, on every store; so is what
    [getTopKeys] returns, and so is the [keyBreakdown] of every daily,
    monthly and yearly result, served from the cache or computed: each
    entry's count is at least the next entry's. *)
Theorem breakdown_sorted_by_count_desc :
  (forall tza period date repo stats,
      getStatsByPeriod tza period date repo = Ok stats -> sortedByCountDesc stats) /\
  (forall tza period date limit repo s top s',
      getTopKeys tza period date limit repo s = (Ok top, s') -> sortedByCountDesc top) /\
  (forall s, reachable s ->
      (forall tza now date repo v,
          fst (getDailyStats tza now date repo s) = Ok v ->
          sortedByCountDesc (ds_keyBreakdown v)) /\
      (forall tza now year month repo v,
          fst (getMonthlyStats tza now year month repo s) = Ok v ->
          sortedByCountDesc (ms_keyBreakdown v)) /\
      (forall tza now year repo v,
          fst (getYearlyStats tza now year repo s) = Ok v ->
          sortedByCountDesc (ys_keyBreakdown v))).
Proof.
  split; [|split].
  - intros tza period date repo stats H.
    apply Sorted_sortedByCountDesc. exact (getStatsByPeriod_Sorted _ _ _ _ _ H).
  - intros tza period date limit repo s top s' H.
    apply Sorted_sortedByCountDesc. exact (getTopKeys_Sorted _ _ _ _ _ _ _ _ H).
  - intros s Hs. apply reachable_dataOK in Hs. split; [|split].
    + intros tza now date repo v H. apply Sorted_sortedByCountDesc.
      exact (proj2 (getDailyStats_OK tza now date repo s v Hs H)).
    + intros tza now year month repo v H. apply Sorted_sortedByCountDesc.
      exact (proj2 (getMonthlyStats_OK tza now year month repo s v Hs H)).
    + intros tza now year repo v H. apply Sorted_sortedByCountDesc.
      exact (proj2 (getYearlyStats_OK tza now year repo s v Hs H)).
Qed.

(** X1 (the first part of C1).  In every result of [getDailyStats],
    [getMonthlyStats] and [getYearlyStats], served from the cache or
    computed, [totalKeystrokes] is the sum of the counts of
    [keyBreakdown]. *)
Theorem total_is_sum_of_breakdown (s : StatisticsService.t) :
  reachable s ->
  (forall tza now date repo v,
      fst (getDailyStats tza now date repo s) = Ok v ->
      ds_totalKeystrokes v = countsTotal (ds_keyBreakdown v)) /\
  (forall tza now year month repo v,
      fst (getMonthlyStats tza now year month repo s) = Ok v ->
      ms_totalKeystrokes v = countsTotal (ms_keyBreakdown v)) /\
  (forall tza now year repo v,
      fst (getYearlyStats tza now year repo s) = Ok v ->
      ys_totalKeystrokes v = countsTotal (ys_keyBreakdown v)).
Proof.
  intros Hs. apply reachable_dataOK in Hs. split; [|split].
  - intros tza now date repo v H.
    exact (proj1 (getDailyStats_OK tza now date repo s v Hs H)).
  - intros tza now year month repo v H.
    exact (proj1 (getMonthlyStats_OK tza now year month repo s v Hs H)).
  - intros tza now year repo v H.
    exact (proj1 (getYearlyStats_OK tza now year repo s v Hs H)).
Qed.

End Service.

(** ** The trends of four-digit years *)
Section TrendTheorems.
Import JSDate Sql KeystrokeRepository StatisticsService.

(** X2 (the second part of C1, where it holds).  On machines within a day of
    UTC and stores written by [save], every monthly result of a four-digit
    year, served from the cache or computed, has a [dailyTrend] whose
    counts add up to [totalKeystrokes]. *)
Theorem monthly_trend_sums_to_total (s : StatisticsService.t) :
  reachableWith anyZone s ->
  forall tza now year month repo v,
    anyZone tza repo ->
    fst (getMonthlyStats tza now year month repo s) = Ok v ->
    fourDigitYear (ms_year v) ->
    trendTotal (dailyTrend v) = ms_totalKeystrokes v.
Proof.
  assert (Fm : forall tza year month repo stats (s0 : StatisticsService.t)
                      (trend : list (JSDate.Date * Z)) (s1 : StatisticsService.t),
             anyZone tza repo -> 1 <= month <= 12 ->
             getStatsByPeriod tza PerMonth
               (ofLocalYMD tza (Some year) (Some (month - 1)) (Some 1)) repo = Ok stats ->
             getDailyTrendForMonth tza year month repo s0 = (Ok trend, s1) ->
             monthlyTrendOK (MonthlyData {| ms_year := year; ms_month := month;
                                            ms_totalKeystrokes := sumCounts stats;
                                            dailyTrend := trend;
                                            ms_keyBreakdown := stats |})).
  { intros tza year month repo stats s0 trend s1 [Htz Hst] Hm Hq Ht HY.
    exact (monthly_trend_fresh tza year month repo s0 stats trend s1 Htz Hst HY Hm Hq Ht). }
  intros Hs tza now year month repo v HR Hv.
  pose proof (reachableWith_inv anyZone monthlyTrendOK
                (fun _ _ _ _ _ _ => I) Fm (fun _ _ _ _ _ _ _ _ _ _ => I) s Hs) as Hinv.
  exact (proj2 (getMonthlyStats_inv anyZone monthlyTrendOK Fm
                  tza now year month repo s HR Hinv) v Hv).
Qed.

(** X3 (the third part of C1, where it holds).  On machines at or east of UTC
    and stores written by [save], every yearly result of a four-digit
    year, served from the cache or computed, has a [monthlyTrend] whose
    counts add up to [totalKeystrokes]. *)
Theorem yearly_trend_sums_to_total_east_of_UTC (s : StatisticsService.t) :
  reachableWith eastOfUTC s ->
  forall tza now year repo v,
    eastOfUTC tza repo ->
    fst (getYearlyStats tza now year repo s) = Ok v ->
    fourDigitYear (ys_year v) ->
    trendTotal (monthlyTrend v) = ys_totalKeystrokes v.
Proof.
  assert (Fy : forall tza year repo stats (s0 : StatisticsService.t)
                      (trend : list (Z * Z)) (s1 : StatisticsService.t),
             eastOfUTC tza repo ->
             getStatsByPeriod tza PerYear
               (ofLocalYMD tza (Some year) (Some 0) (Some 1)) repo = Ok stats ->
             getMonthlyTrendForYear tza year repo s0 = (Ok trend, s1) ->
             yearlyTrendOK (YearlyData {| ys_year := year;
                                          ys_totalKeystrokes := sumCounts stats;
                                          monthlyTrend := trend;
                                          ys_keyBreakdown := stats |})).
  { intros tza year repo stats s0 trend s1 [Htz Hst] Hq Ht HY.
    exact (yearly_trend_fresh tza year repo s0 stats trend s1 Htz Hst HY Hq Ht). }
  intros Hs tza now year repo v HR Hv.
  pose proof (reachableWith_inv eastOfUTC yearlyTrendOK
                (fun _ _ _ _ _ _ => I) (fun _ _ _ _ _ _ _ _ _ _ _ _ => I) Fy s Hs) as Hinv.
  exact (proj2 (getYearlyStats_inv eastOfUTC yearlyTrendOK Fy
                  tza now year repo s HR Hinv) v Hv).
Qed.

(** Outside four-digit years the month query and the stored keys are
    written differently (["999-01-01"] against ["0999-01-01"]), and the
    monthly identity is lost in every time zone. *)
Remark monthly_trend_of_a_three_digit_year :
  exists v,
    fst (getMonthlyStats 0 0 999 1 year999Store create) = Ok v /\
    ms_totalKeystrokes v = 0 /\
    trendTotal (dailyTrend v) = 1.
Proof. eexists. vm_compute. repeat split. Qed.

End TrendTheorems.

(** ** The shapes of cached values *)
Section Shapes.
Import Sql KeystrokeRepository StatisticsService.

Lemma getFromCache_shapes now key s :
  shapesOK s ->
  shapesOK (snd (getFromCache now key s)) /\
  (forall v, fst (getFromCache now key s) = Some v -> keyShape key = Some (shapeOf v)).
Proof.
  intros Hs. unfold getFromCache.
  destruct (cache s !! key) as [entry|] eqn:E; cbn [fst snd].
  - destruct (expiresAt entry <? now); cbn [fst snd].
    + split; [|discriminate].
      intros k e Hk. cbn [cache] in Hk.
      apply lookup_delete_Some in Hk as [_ Hk]. exact (Hs _ _ Hk).
    + split; [exact Hs|]. intros v Hv. injection Hv as <-. exact (Hs _ _ E).
  - split; [exact Hs | discriminate].
Qed.

Lemma setCache_shapes now key v s :
  shapesOK s -> keyShape key = Some (shapeOf v) -> shapesOK (setCache now key v s).
Proof.
  intros Hs Hv k e Hk. unfold setCache in Hk; cbn [cache] in Hk.
  apply lookup_insert_Some in Hk as [[<- <-]|[_ Hk]].
  - exact Hv.
  - exact (Hs _ _ Hk).
Qed.

Lemma shapesOK_same_cache s s' : cache s' = cache s -> shapesOK s -> shapesOK s'.
Proof. intros E Hs k e Hk. rewrite E in Hk. exact (Hs _ _ Hk). Qed.

Lemma getStatsByPeriod_no_mismatch tza period date repo :
  getStatsByPeriod tza period date repo <> Err ShapeMismatch.
Proof.
  unfold getStatsByPeriod. destruct (negb (db repo)); [discriminate|].
  destruct period; try discriminate.
  destruct (JSString.toISODate date); discriminate.
Qed.

Lemma dailyTrendLoop_no_mismatch tza year month days repo acc s :
  fst (dailyTrendLoop tza year month days repo acc s) <> Err ShapeMismatch.
Proof.
  revert acc s. induction days as [|d days IH]; intros acc s; cbn [dailyTrendLoop].
  - discriminate.
  - unfold query.
    destruct (getStatsByPeriod tza PerDay _ repo) as [st|e] eqn:E; [apply IH|].
    cbn [fst]. intros H. injection H as ->.
    exact (getStatsByPeriod_no_mismatch _ _ _ _ E).
Qed.

Lemma monthlyTrendLoop_no_mismatch tza year months repo acc s :
  fst (monthlyTrendLoop tza year months repo acc s) <> Err ShapeMismatch.
Proof.
  revert acc s. induction months as [|m months IH]; intros acc s; cbn [monthlyTrendLoop].
  - discriminate.
  - unfold query.
    destruct (getStatsByPeriod tza PerMonth _ repo) as [st|e] eqn:E; [apply IH|].
    cbn [fst]. intros H. injection H as ->.
    exact (getStatsByPeriod_no_mismatch _ _ _ _ E).
Qed.

Lemma getDailyStats_shapes tza now date repo s :
  shapesOK s ->
  shapesOK (snd (getDailyStats tza now date repo s)) /\
  fst (getDailyStats tza now date repo s) <> Err ShapeMismatch.
Proof.
  intros Hs. unfold getDailyStats.
  set (key := getCacheKey "daily" _).
  assert (Hkey : keyShape key = Some "d"%char) by reflexivity.
  destruct (getFromCache_shapes now key s Hs) as [Hs1 Hhit].
  destruct (getFromCache now key s) as [[[v|v|v]|] s1]; cbn [fst snd] in *.
  - split; [exact Hs1 | discriminate].
  - specialize (Hhit _ eq_refl). rewrite Hkey in Hhit. discriminate.
  - specialize (Hhit _ eq_refl). rewrite Hkey in Hhit. discriminate.
  - unfold query. destruct (getStatsByPeriod tza PerDay _ repo) as [stats|e] eqn:E;
      cbv beta iota; cbn [fst snd].
    + split; [|discriminate]. apply setCache_shapes; [exact Hs1 | exact Hkey].
    + split; [exact Hs1|]. intros H. injection H as ->.
      exact (getStatsByPeriod_no_mismatch _ _ _ _ E).
Qed.

Lemma getMonthlyStats_shapes tza now year month repo s :
  shapesOK s ->
  shapesOK (snd (getMonthlyStats tza now year month repo s)) /\
  fst (getMonthlyStats tza now year month repo s) <> Err ShapeMismatch.
Proof.
  intros Hs. unfold getMonthlyStats.
  destruct ((month <? 1) || (month >? 12)); [split; [exact Hs | discriminate]|].
  set (key := getCacheKey "monthly" _).
  assert (Hkey : keyShape key = Some "m"%char) by reflexivity.
  destruct (getFromCache_shapes now key s Hs) as [Hs1 Hhit].
  destruct (getFromCache now key s) as [[[v|v|v]|] s1]; cbn [fst snd] in *.
  - specialize (Hhit _ eq_refl). rewrite Hkey in Hhit. discriminate.
  - split; [exact Hs1 | discriminate].
  - specialize (Hhit _ eq_refl). rewrite Hkey in Hhit. discriminate.
  - unfold query. destruct (getStatsByPeriod tza PerMonth _ repo) as [stats|e] eqn:E;
      cbv beta iota; cbn [fst snd].
    + unfold getDailyTrendForMonth.
      match goal with |- context [dailyTrendLoop ?a ?b ?c ?d ?e ?f ?g] =>
        pose proof (dailyTrendLoop_cache a b c d e f g) as Hc;
        pose proof (dailyTrendLoop_no_mismatch a b c d e f g) as Hn;
        destruct (dailyTrendLoop a b c d e f g) as [[trend|e'] s3] end;
        cbn [fst snd] in *.
      * split; [|discriminate]. apply setCache_shapes; [|exact Hkey].
        eapply shapesOK_same_cache; [exact Hc | exact Hs1].
      * split; [eapply shapesOK_same_cache; [exact Hc | exact Hs1]|].
        intros H. injection H as ->. exact (Hn eq_refl).
    + split; [exact Hs1|]. intros H. injection H as ->.
      exact (getStatsByPeriod_no_mismatch _ _ _ _ E).
Qed.

Lemma getYearlyStats_shapes tza now year repo s :
  shapesOK s ->
  shapesOK (snd (getYearlyStats tza now year repo s)) /\
  fst (getYearlyStats tza now year repo s) <> Err ShapeMismatch.
Proof.
  intros Hs. unfold getYearlyStats.
  set (key := getCacheKey "yearly" _).
  assert (Hkey : keyShape key = Some "y"%char) by reflexivity.
  destruct (getFromCache_shapes now key s Hs) as [Hs1 Hhit].
  destruct (getFromCache now key s) as [[[v|v|v]|] s1]; cbn [fst snd] in *.
  - specialize (Hhit _ eq_refl). rewrite Hkey in Hhit. discriminate.
  - specialize (Hhit _ eq_refl). rewrite Hkey in Hhit. discriminate.
  - split; [exact Hs1 | discriminate].
  - unfold query. destruct (getStatsByPeriod tza PerYear _ repo) as [stats|e] eqn:E;
      cbv beta iota; cbn [fst snd].
    + unfold getMonthlyTrendForYear.
      match goal with |- context [monthlyTrendLoop ?a ?b ?c ?d ?e ?f] =>
        pose proof (monthlyTrendLoop_cache a b c d e f) as Hc;
        pose proof (monthlyTrendLoop_no_mismatch a b c d e f) as Hn;
        destruct (monthlyTrendLoop a b c d e f) as [[trend|e'] s3] end;
        cbn [fst snd] in *.
      * split; [|discriminate]. apply setCache_shapes; [|exact Hkey].
        eapply shapesOK_same_cache; [exact Hc | exact Hs1].
      * split; [eapply shapesOK_same_cache; [exact Hc | exact Hs1]|].
        intros H. injection H as ->. exact (Hn eq_refl).
    + split; [exact Hs1|]. intros H. injection H as ->.
      exact (getStatsByPeriod_no_mismatch _ _ _ _ E).
Qed.

Lemma reachable_shapesOK (R : Z -> KeystrokeRepository.t -> Prop) s :
  reachableWith R s -> shapesOK s.
Proof.
  induction 1 as [|s _ IH|tza now date repo s _ _ IH|tza now year month repo s _ _ IH
                  |tza now year repo s _ _ IH|tza period date limit repo s _ IH].
  - intros k e Hk. cbn [create cache] in Hk. rewrite lookup_empty in Hk. discriminate.
  - intros k e Hk. cbn [clearCache cache] in Hk. rewrite lookup_empty in Hk. discriminate.
  - exact (proj1 (getDailyStats_shapes tza now date repo s IH)).
  - exact (proj1 (getMonthlyStats_shapes tza now year month repo s IH)).
  - exact (proj1 (getYearlyStats_shapes tza now year repo s IH)).
  - eapply shapesOK_same_cache; [apply getTopKeys_cache | exact IH].
Qed.

(** The cast in [getFromCache<T>] is sound: no call on a reachable service
    finds a value of another method's shape. *)
Theorem cached_shapes_never_mix (s : StatisticsService.t) :
  reachable s ->
  (forall tza now date repo,
      fst (getDailyStats tza now date repo s) <> Err ShapeMismatch) /\
  (forall tza now year month repo,
      fst (getMonthlyStats tza now year month repo s) <> Err ShapeMismatch) /\
  (forall tza now year repo,
      fst (getYearlyStats tza now year repo s) <> Err ShapeMismatch).
Proof.
  intros Hs. apply reachable_shapesOK in Hs. split; [|split].
  - intros tza now date repo. exact (proj2 (getDailyStats_shapes tza now date repo s Hs)).
  - intros tza now year month repo.
    exact (proj2 (getMonthlyStats_shapes tza now year month repo s Hs)).
  - intros tza now year repo. exact (proj2 (getYearlyStats_shapes tza now year repo s Hs)).
Qed.

End Shapes.

(** ** Month validation *)
Section MonthValidation.
Import Sql KeystrokeRepository StatisticsService.

Lemma getStatsByPeriod_error tza period date repo e :
  getStatsByPeriod tza period date repo = Err e -> e <> InvalidPeriod.
Proof.
  unfold getStatsByPeriod. destruct (negb (db repo)).
  - intros H; injection H as <-. discriminate.
  - destruct period; try discriminate.
    destruct (JSString.toISODate date); [discriminate|].
    intros H; injection H as <-. discriminate.
Qed.

Lemma dailyTrendLoop_error tza year month days repo acc s e :
  fst (dailyTrendLoop tza year month days repo acc s) = Err e -> e <> InvalidPeriod.
Proof.
  revert acc s. induction days as [|d days IH]; intros acc s; cbn [dailyTrendLoop].
  - discriminate.
  - unfold query. destruct (getStatsByPeriod tza PerDay _ repo) as [stats|e'] eqn:Q.
    + apply IH.
    + cbn [fst]. intros H; injection H as <-.
      exact (getStatsByPeriod_error _ _ _ _ _ Q).
Qed.

(** C8. [getMonthlyStats(year, month)] with [month < 1] or [month > 12]
    rejects with "Month must be between 1 and 12" and leaves the service as
    it was: no cache entry read, written or dropped, and no query sent to
    the store.  With [1 <= month <= 12] it never rejects with that error. *)
Theorem getMonthlyStats_validates_month tza now year month repo (s : StatisticsService.t) :
  (month < 1 \/ month > 12 ->
     getMonthlyStats tza now year month repo s = (Err InvalidPeriod, s)) /\
  (1 <= month <= 12 ->
     fst (getMonthlyStats tza now year month repo s) <> Err InvalidPeriod).
Proof.
  split; intros Hm; unfold getMonthlyStats.
  - replace ((month <? 1) || (month >? 12)) with true; [reflexivity|].
    symmetry. apply orb_true_iff. destruct Hm; [left|right]; lia.
  - replace ((month <? 1) || (month >? 12)) with false
      by (symmetry; apply orb_false_iff; split; lia).
    destruct (getFromCache now _ s) as [[[v|v|v]|] s1]; cbn [fst]; try discriminate.
    unfold query. destruct (getStatsByPeriod tza PerMonth _ repo) as [stats|e] eqn:Q.
    + cbv beta iota. unfold getDailyTrendForMonth.
      match goal with |- context [dailyTrendLoop ?a ?b ?c ?d ?e ?f ?g] =>
        pose proof (dailyTrendLoop_error a b c d e f g) as He;
        destruct (dailyTrendLoop a b c d e f g) as [[trend|e'] s3] end;
        cbn [fst] in *; [discriminate|].
      intros H; injection H as ->. exact (He _ eq_refl eq_refl).
    + cbn [fst]. intros H; injection H as ->.
      exact (getStatsByPeriod_error _ _ _ _ _ Q eq_refl).
Qed.

End MonthValidation.

(** ** KeystrokeBuffer: retry and recovery *)
Section Buffer.
Import KeystrokeBuffer.

Lemma added_app (e1 e2 : list Event) : added (e1 ++ e2) = added e1 ++ added e2.
Proof. unfold added. apply flat_map_app. Qed.

Lemma run_app (e1 e2 : list Event) (s : t) : run (e1 ++ e2) s = run e2 (run e1 s).
Proof. unfold run. apply fold_left_app. Qed.

(** While a flush is in progress, adds and flush calls only extend the
    live queue. *)
Lemma run_quiet (q : list Event) (s : t) :
  isFlushingInProgress s = true ->
  forallb quiet q = true ->
  run q s = {| buffer := buffer s ++ added q;
               isFlushingInProgress := true;
               pending := pending s;
               repository := repository s;
               saveCalls := saveCalls s;
               delays := delays s;
               flushed := flushed s |}.
Proof.
  revert s. induction q as [|e q IH]; intros s Hf Hq.
  - cbn [run fold_left added flat_map]. rewrite app_nil_r, <- Hf. destruct s; reflexivity.
  - cbn [forallb] in Hq. apply andb_prop in Hq as [He Hq].
    change (run (e :: q) s) with (run q (step s e)).
    destruct e as [k| |io]; [| |discriminate]; cbn [step].
    + unfold add, flush; cbn [isFlushingInProgress]. rewrite Hf.
      rewrite IH by (try exact Hq; reflexivity).
      cbn [buffer pending repository saveCalls delays flushed].
      change (added (Add k :: q)) with (k :: added q).
      rewrite <- app_assoc. reflexivity.
    + unfold flush. rewrite Hf. rewrite IH by assumption. reflexivity.
Qed.

Lemma attempt_save_writes io ks (repo : KeystrokeRepository.t) :
  KeystrokeRepository.db (snd (attempt_save io ks repo)) = KeystrokeRepository.db repo /\
  exists rows,
    Sql.keystrokes (KeystrokeRepository.current (snd (attempt_save io ks repo)))
      = Sql.keystrokes (KeystrokeRepository.current repo) ++ rows /\
    map rowLogical rows = map logical (leftBehind io ks repo) /\
    Forall rowDerived rows.
Proof.
  destruct io as [written|]; cbn [attempt_save].
  - destruct (saveWithError_rows written ks repo) as (H1 & _ & H2). split; assumption.
  - apply save_writes.
Qed.

Lemma rejected_db io ks (r r' : KeystrokeRepository.t) :
  KeystrokeRepository.db r = KeystrokeRepository.db r' ->
  rejected io ks r = rejected io ks r'.
Proof.
  intros H. unfold rejected, attempt_save, KeystrokeRepository.save,
    KeystrokeRepository.saveWithError.
  destruct io as [written|]; rewrite <- H;
    destruct (negb (KeystrokeRepository.db r)); try reflexivity;
    destruct ks as [|k ks]; try reflexivity.
  - cbn [fst].
    rewrite (insertAll_thrown (k :: ks) (KeystrokeRepository.current r)
               (KeystrokeRepository.current r')). reflexivity.
  - pose proof (insertAll_thrown (k :: ks) (KeystrokeRepository.current r)
                  (KeystrokeRepository.current r')) as E.
    destruct (KeystrokeRepository.insertAll (k :: ks) (KeystrokeRepository.current r)),
             (KeystrokeRepository.insertAll (k :: ks) (KeystrokeRepository.current r')).
    cbn [fst] in *. subst. reflexivity.
Qed.

Lemma leftBehind_db io ks (r r' : KeystrokeRepository.t) :
  KeystrokeRepository.db r = KeystrokeRepository.db r' ->
  leftBehind io ks r = leftBehind io ks r'.
Proof. intros H. unfold leftBehind. rewrite H. reflexivity. Qed.

Lemma failingWindows_db ks (r r' : KeystrokeRepository.t)
    (ws : list (list Event * option (list bool))) :
  KeystrokeRepository.db r = KeystrokeRepository.db r' ->
  forallb (failingWindow ks r) ws = forallb (failingWindow ks r') ws.
Proof.
  intros H. induction ws as [|w ws IH]; cbn [forallb]; [reflexivity|].
  rewrite IH. unfold failingWindow. rewrite (rejected_db _ _ r r' H). reflexivity.
Qed.

Lemma attempted_cons ks w ws (repo : KeystrokeRepository.t) :
  attempted ks (w :: ws) repo = attempted ks ws (snd (attempt_save (snd w) ks repo)).
Proof. reflexivity. Qed.

Lemma attempted_snoc ks ws w (repo : KeystrokeRepository.t) :
  attempted ks (ws ++ [w]) repo = snd (attempt_save (snd w) ks (attempted ks ws repo)).
Proof. unfold attempted. rewrite fold_left_app. reflexivity. Qed.

(** What the attempts of [ws] leave in the table. *)
Lemma attempted_rows ks (ws : list (list Event * option (list bool))) :
  forall repo : KeystrokeRepository.t,
    KeystrokeRepository.db (attempted ks ws repo) = KeystrokeRepository.db repo /\
    exists left,
      Sql.keystrokes (KeystrokeRepository.current (attempted ks ws repo))
        = Sql.keystrokes (KeystrokeRepository.current repo) ++ left /\
      map rowLogical left
        = map logical (flat_map (fun w => leftBehind (snd w) ks repo) ws).
Proof.
  induction ws as [|w ws IH]; intros repo.
  - split; [reflexivity|]. exists []. rewrite app_nil_r. split; reflexivity.
  - rewrite attempted_cons.
    destruct (attempt_save_writes (snd w) ks repo) as (Hdb & rows & Hk & Hl & _).
    destruct (IH (snd (attempt_save (snd w) ks repo))) as (Hdb' & left & Hk' & Hl').
    split; [rewrite Hdb'; exact Hdb|].
    exists (rows ++ left). split.
    + rewrite Hk', Hk, <- app_assoc. reflexivity.
    + cbn [flat_map]. rewrite !map_app, Hl, Hl'. f_equal. f_equal.
      apply flat_map_ext. intros w'. apply leftBehind_db. exact Hdb.
Qed.

Lemma rejected_error io ks (repo : KeystrokeRepository.t) :
  rejected io ks repo = true ->
  exists e, attempt_save io ks repo = (Err e, snd (attempt_save io ks repo)).
Proof.
  unfold rejected. destruct (attempt_save io ks repo) as [[[]|e] r']; cbn [fst snd];
    [discriminate|]. intros _. exists e. reflexivity.
Qed.

(** Rejected attempts that leave retries: the call stays pending, each
    rejection costs one more [save] call and one more, doubled, delay. *)
Lemma run_rejected_windows (ws : list (list Event * option (list bool))) :
  forall (s : t) (ks : list Keystroke) (attempt : Z),
    isFlushingInProgress s = true ->
    pending s = Some (ks, attempt) ->
    forallb (failingWindow ks (repository s)) ws = true ->
    attempt + Z.of_nat (length ws) <= maxRetries ->
    run (windows ws) s =
      {| buffer := buffer s ++ added (windows ws);
         isFlushingInProgress := true;
         pending := Some (ks, attempt + Z.of_nat (length ws));
         repository := attempted ks ws (repository s);
         saveCalls := saveCalls s ++ repeat ks (length ws);
         delays := delays s ++ backoffs attempt (length ws);
         flushed := flushed s |}.
Proof.
  induction ws as [|w ws IH]; intros s ks attempt Hf Hp Hw Hn.
  - cbn [windows flat_map run fold_left added length repeat backoffs Z.of_nat attempted].
    rewrite !app_nil_r, Z.add_0_r, <- Hf, <- Hp. destruct s; reflexivity.
  - cbn [forallb] in Hw. apply andb_prop in Hw as [Hw1 Hw].
    unfold failingWindow in Hw1. apply andb_prop in Hw1 as [Hq Hrej].
    cbn [length] in Hn. rewrite Nat2Z.inj_succ in Hn.
    change (windows (w :: ws)) with ((fst w ++ [SaveSettles (snd w)]) ++ windows ws).
    rewrite attempted_cons.
    rewrite (failingWindows_db ks (repository s) (snd (attempt_save (snd w) ks (repository s))))
      in Hw by (symmetry; apply attempt_save_writes).
    rewrite !run_app, (run_quiet _ _ Hf Hq).
    cbn [run fold_left step]. unfold settle at 1. cbn [pending repository]. rewrite Hp.
    destruct (rejected_error _ _ _ Hrej) as [e He].
    set (repo1 := snd (attempt_save (snd w) ks (repository s))) in *.
    rewrite He.
    replace (attempt <? maxRetries) with true by (symmetry; apply Z.ltb_lt; lia).
    cbn [buffer saveCalls delays flushed].
    rewrite (IH _ ks (attempt + 1)); try reflexivity; try assumption; try lia.
    cbn [buffer pending repository saveCalls delays flushed isFlushingInProgress].
    rewrite !added_app. cbn [added flat_map length repeat backoffs].
    rewrite Nat2Z.inj_succ, !app_nil_r, <- !app_assoc. cbn [app].
    f_equal. f_equal. f_equal. lia.
Qed.

Lemma windows_snoc (ws : list (list Event * option (list bool)))
    (w : list Event * option (list bool)) :
  windows (ws ++ [w]) = windows ws ++ fst w ++ [SaveSettles (snd w)].
Proof.
  unfold windows. rewrite flat_map_app. cbn [flat_map]. rewrite app_nil_r. reflexivity.
Qed.

(** How a flush begins: the trigger is a call of [flush()] or an [add]. *)
Lemma step_begins_flush (s : t) (trigger : Event) :
  isFlushingInProgress s = false ->
  quiet trigger = true ->
  buffer s ++ added [trigger] <> [] ->
  step s trigger =
    {| buffer := [];
       isFlushingInProgress := true;
       pending := Some (buffer s ++ added [trigger], 0);
       repository := repository s;
       saveCalls := saveCalls s ++ [buffer s ++ added [trigger]];
       delays := delays s;
       flushed := flushed s |}.
Proof.
  intros Hidle Hq Hne. destruct trigger as [k| |io]; [| |discriminate]; cbn [step].
  - unfold add, flush. cbn [isFlushingInProgress buffer added flat_map app]. rewrite Hidle.
    cbn [added flat_map app] in Hne.
    destruct (buffer s ++ [k]) eqn:E; [contradiction|]. reflexivity.
  - unfold flush. rewrite Hidle. cbn [added flat_map app] in *. rewrite app_nil_r in *.
    destruct (buffer s) eqn:E; [contradiction|]. reflexivity.
Qed.

(** A flush whose every attempt is rejected: four calls of [save], three
    delays, and the batch back in front of what was added meanwhile. *)
Lemma flush_exhausted (s : t) (trigger : Event)
    (ws : list (list Event * option (list bool))) :
  isFlushingInProgress s = false ->
  quiet trigger = true ->
  buffer s ++ added [trigger] <> [] ->
  length ws = 4%nat ->
  forallb (failingWindow (buffer s ++ added [trigger]) (repository s)) ws = true ->
  run (trigger :: windows ws) s =
    {| buffer := (buffer s ++ added [trigger]) ++ added (windows ws);
       isFlushingInProgress := false;
       pending := None;
       repository := attempted (buffer s ++ added [trigger]) ws (repository s);
       saveCalls := saveCalls s ++ repeat (buffer s ++ added [trigger]) 4;
       delays := delays s ++ [1000; 2000; 4000];
       flushed := flushed s |}.
Proof.
  intros Hidle Hq Hne Hlen Hw.
  set (batch := buffer s ++ added [trigger]) in *.
  change (run (trigger :: windows ws) s) with (run (windows ws) (step s trigger)).
  rewrite (step_begins_flush s trigger Hidle Hq Hne). fold batch.
  destruct (exists_last (l := ws)) as (ws3 & w & ->);
    [intros ->; discriminate|].
  rewrite length_app in Hlen. cbn [length] in Hlen.
  rewrite forallb_app in Hw. apply andb_prop in Hw as [Hw3 Hw4].
  cbn [forallb] in Hw4. rewrite andb_true_r in Hw4.
  unfold failingWindow in Hw4. apply andb_prop in Hw4 as [Hq4 Hrej4].
  rewrite (rejected_db _ _ (repository s) (attempted batch ws3 (repository s)))
    in Hrej4 by (symmetry; apply attempted_rows).
  rewrite attempted_snoc.
  rewrite windows_snoc, !run_app.
  rewrite (run_rejected_windows ws3 _ batch 0); try reflexivity; try exact Hw3;
    [|unfold maxRetries; lia].
  rewrite (run_quiet (fst w)) by (try exact Hq4; reflexivity).
  cbn [run fold_left step]. unfold settle.
  cbn [buffer pending repository saveCalls delays flushed isFlushingInProgress].
  destruct (rejected_error _ _ _ Hrej4) as [e He].
  set (repo4 := snd (attempt_save (snd w) batch (attempted batch ws3 (repository s)))) in *.
  rewrite He.
  replace (length ws3) with 3%nat by lia.
  cbn [Z.of_nat Pos.of_succ_nat Pos.succ Z.add Pos.add]. 
  replace (0 + 3 <? maxRetries) with false by reflexivity.
  rewrite !added_app. cbn [added flat_map app repeat backoffs]. rewrite !app_nil_r.
  rewrite <- !app_assoc. reflexivity.
Qed.




(** C4. When every attempt of a flush is rejected (four attempts, with any
    adds and timer ticks in between), the queue afterwards is the failed
    batch, in its order, followed by the records added since the flush
    began, and no flush is in progress any more. *)
Theorem failed_flush_returns_batch_to_front
    (s : t) (trigger : Event) (ws : list (list Event * option (list bool))) :
  isFlushingInProgress s = false ->
  quiet trigger = true ->
  buffer s ++ added [trigger] <> [] ->
  length ws = 4%nat ->
  forallb (failingWindow (buffer s ++ added [trigger]) (repository s)) ws = true ->
  let s' := run (trigger :: windows ws) s in
  buffer s' = (buffer s ++ added [trigger]) ++ added (windows ws) /\
  isFlushingInProgress s' = false /\
  pending s' = None.
Proof.
  intros Hidle Hq Hne Hlen Hw s'. subst s'.
  rewrite (flush_exhausted s trigger ws Hidle Hq Hne Hlen Hw).
  repeat split.
Qed.



(** The rows of rejected attempts stay.  A write that is rejected with
    its one row in the table (the COMMIT failed) and then retried stores
    the record twice. *)
Lemma retried_batch_is_stored_twice :
  let s' := run [Add (keyA 1700000000000); SaveSettles (Some [true]); SaveSettles None]
                sampleBuffer in
  saveCalls s' = repeat [keyA 1700000000000] 2 /\
  flushed s' = [1] /\
  map rowLogical (Sql.keystrokes (KeystrokeRepository.current (repository s')))
  = repeat (logical (keyA 1700000000000)) 2.
Proof.
  vm_compute. repeat split.
Qed.

(** A batch of a valid and an invalid record is rejected four times,
    [toISOString] throwing at the second record: each attempt has inserted
    the first, and the batch is back in the queue. *)
Lemma rejected_attempts_leave_rows :
  let batchBuffer :=
    run [Add (keyA 1700000000000); Add (keyA 8640000000000001);
         SaveSettles (Some []); SaveSettles (Some []); SaveSettles (Some []);
         SaveSettles (Some [])] sampleBuffer in
  let s' := run [CallFlush; SaveSettles None; SaveSettles None; SaveSettles None;
                 SaveSettles None] batchBuffer in
  buffer batchBuffer = [keyA 1700000000000; keyA 8640000000000001] /\
  Sql.keystrokes (KeystrokeRepository.current (repository batchBuffer)) = [] /\
  buffer s' = [keyA 1700000000000; keyA 8640000000000001] /\
  flushed s' = [] /\
  map rowLogical (Sql.keystrokes (KeystrokeRepository.current (repository s')))
  = repeat (logical (keyA 1700000000000)) 4.
Proof.
  vm_compute. repeat split.
Qed.

End Buffer.

(** ** Time zones *)
Section TimeZones.
Import Sql KeystrokeRepository StatisticsService.

(** [save] derives [date] and [hour] from the timestamp alone, by the UTC
    calendar: no time zone enters. *)
Lemma save_derives_date_and_hour_in_UTC (ks : list Keystroke) (r r' : KeystrokeRepository.t) :
  save ks r = (Ok tt, r') ->
  exists rows,
    keystrokes (current r') = keystrokes (current r) ++ rows /\
    Forall rowDerived rows.
Proof.
  intros H. destruct (save_rows ks r r' H) as (rows & Hk & _ & Hd).
  exists rows. split; assumption.
Qed.

(** The day query does not depend on the machine's time zone. *)
Lemma day_query_time_zone_independent (tza1 tza2 : Z) date (r : KeystrokeRepository.t) :
  getStatsByPeriod tza1 PerDay date r = getStatsByPeriod tza2 PerDay date r.
Proof. reflexivity. Qed.

(** C2 at a failing input.  The store holds one "A" of 2023-12-15 and one
    "B" of 2024-01-15.  Asked for the month, and for the year, of the
    instant 2024-01-01T00:00:00Z, a machine on UTC answers with January 2024
    and with 2024; a machine five hours west of UTC, given the same store
    and the same instant, answers with December 2023 and with 2023. *)
Theorem month_and_year_queries_depend_on_time_zone :
  getStatsByPeriod 0 PerMonth (Some 1704067200000) turnOfYearStore
    = Ok [{| stat_keyName := "B"; count := 1 |}] /\
  getStatsByPeriod utcMinus5 PerMonth (Some 1704067200000) turnOfYearStore
    = Ok [{| stat_keyName := "A"; count := 1 |}] /\
  getStatsByPeriod 0 PerYear (Some 1704067200000) turnOfYearStore
    = Ok [{| stat_keyName := "B"; count := 1 |}] /\
  getStatsByPeriod utcMinus5 PerYear (Some 1704067200000) turnOfYearStore
    = Ok [{| stat_keyName := "A"; count := 1 |}].
Proof. vm_compute. repeat split. Qed.

(** C1 at a failing input.  The store holds one key of 2024-12-25.  On a
    machine five hours west of UTC, [getYearlyStats(2024)] reports a total
    of 1 while the counts of its [monthlyTrend] add up to 0: the twelve
    month queries are anchored at midnight UTC of the first of each month,
    which that machine reads as the last day of the month before, so they
    cover December 2023 to November 2024. *)
Theorem yearly_trend_misses_december_west_of_UTC :
  exists v,
    fst (getYearlyStats utcMinus5 0 2024 decemberStore create) = Ok v /\
    ys_totalKeystrokes v = 1 /\
    countsTotal (ys_keyBreakdown v) = 1 /\
    trendTotal (monthlyTrend v) = 0.
Proof. eexists. vm_compute. repeat split. Qed.

(** On a machine on UTC the same call is consistent. *)
Lemma yearly_trend_on_UTC :
  exists v,
    fst (getYearlyStats 0 0 2024 decemberStore create) = Ok v /\
    ys_totalKeystrokes v = 1 /\
    trendTotal (monthlyTrend v) = 1.
Proof. eexists. vm_compute. repeat split. Qed.

End TimeZones.

(** ** KeystrokeRepository: what each call does to an opened store *)
Section OpenedStore.
Import Sql KeystrokeRepository.

Lemma opened_negb (r : t) : opened r = true -> negb (db r) = false.
Proof. intros H. rewrite (opened_db r H). reflexivity. Qed.

Lemma backup_opened (now : Z) (r : t) :
  opened r = true ->
  let path := dbPath r +:+ ".backup." +:+ JSString.decimal now in
  backup now r
  = (Ok path,
     {| dbPath := dbPath r; db := true;
        fs := <[dbPath r := insertBackup path now (current r)]>
                (<[path := current r]> (fs r)) |}).
Proof.
  intros Hop path.
  pose proof (backup_path_fresh (dbPath r) now) as Hfresh. fold path in Hfresh.
  unfold backup, copyFile. rewrite (opened_negb r Hop), (opened_file r Hop).
  fold path. unfold write, current; cbn [dbPath db fs].
  rewrite lookup_insert_ne by (intros E; apply Hfresh; exact E).
  rewrite (opened_file r Hop), (opened_db r Hop). reflexivity.
Qed.

Lemma clear_opened (r : t) :
  opened r = true ->
  clear r
  = (Ok tt, {| dbPath := dbPath r; db := true;
               fs := <[dbPath r := deleteKeystrokes (current r)]> (fs r) |}).
Proof.
  intros Hop. unfold clear, write. rewrite (opened_negb r Hop), (opened_db r Hop).
  reflexivity.
Qed.

Lemma restore_present (path : string) (d : Database) (r : t) :
  db r = true ->
  fs r !! path = Some d ->
  restore path r
  = (Ok tt, {| dbPath := dbPath r; db := true; fs := <[dbPath r := d]> (fs r) |}).
Proof.
  intros Hdb Hfile. unfold restore, copyFile, initialize. rewrite Hdb, Hfile.
  cbn [negb dbPath db fs]. rewrite lookup_insert_eq. reflexivity.
Qed.

Lemma opened_intro (r : t) (d : Database) :
  db r = true -> fs r !! dbPath r = Some d -> opened r = true.
Proof. intros Hdb Hfile. unfold opened. rewrite Hdb, Hfile. reflexivity. Qed.

Lemma current_file (r : t) (d : Database) :
  fs r !! dbPath r = Some d -> current r = d.
Proof. intros H. unfold current. rewrite H. reflexivity. Qed.

End OpenedStore.

(** ** Backups: listing, reset, restore *)
Section Backups.
Import Sql KeystrokeRepository.

Lemma StronglySorted_filter {A : Type} (R : relation A) (p : A -> bool) (l : list A) :
  StronglySorted R l -> StronglySorted R (List.filter p l).
Proof.
  induction 1 as [|a l Hl IH Ha]; simpl; [constructor|].
  destruct (p a); [|exact IH].
  constructor; [exact IH|].
  rewrite List.Forall_forall in Ha |- *. intros x Hx.
  apply filter_In in Hx. apply Ha. tauto.
Qed.

Lemma getBackups_In (r : t) (l : list Backup) (b : Backup) :
  getBackups r = Ok l ->
  In b l <->
  (exists row, In row (backups (current r)) /\
               {| backupPath := backup_path row; createdAt := created_at row |} = b) /\
  existsSync (backupPath b) (fs r) = true.
Proof.
  unfold getBackups. destruct (negb (db r)); [discriminate|].
  intros H. injection H as <-.
  rewrite filter_In, in_map_iff. unfold selectBackups.
  split; intros [[row [H1 H2]] H3]; (split; [exists row|exact H3]).
  - split; [|exact H1].
    apply list_elem_of_In. rewrite <- (merge_sort_Permutation created_ge).
    apply list_elem_of_In. exact H2.
  - split; [exact H2|].
    apply list_elem_of_In. rewrite (merge_sort_Permutation created_ge).
    apply list_elem_of_In. exact H1.
Qed.

Lemma getBackups_sorted (r : t) (l : list Backup) :
  getBackups r = Ok l ->
  StronglySorted (fun a b => createdAt b <= createdAt a) l.
Proof.
  unfold getBackups. destruct (negb (db r)); [discriminate|].
  intros H. injection H as <-.
  apply StronglySorted_filter.
  apply (StronglySorted_map created_ge).
  - intros x y Hxy. exact Hxy.
  - apply StronglySorted_merge_sort; apply _.
Qed.

(** X4.  What [getBackups] lists is in descending order of [createdAt],
    every entry is a row of the [backups] table whose file is on disk, and
    [restore] of a listed path succeeds, leaving the store opened on the
    contents of that file. *)
Theorem listed_backups_are_sorted_and_restorable (r : t) (l : list Backup) :
  getBackups r = Ok l ->
  StronglySorted (fun a b => createdAt b <= createdAt a) l /\
  forall b, In b l ->
    (exists row, In row (backups (current r)) /\
                 backup_path row = backupPath b /\ created_at row = createdAt b) /\
    exists d r',
      fs r !! backupPath b = Some d /\
      restore (backupPath b) r = (Ok tt, r') /\
      opened r' = true /\
      current r' = d.
Proof.
  intros H. split; [exact (getBackups_sorted r l H)|].
  intros b Hb. apply (getBackups_In r l b H) in Hb as [[row [Hrow Hto]] Hex].
  split.
  - exists row. subst b. auto.
  - unfold existsSync in Hex. destruct (fs r !! backupPath b) as [d|] eqn:Hd; [|discriminate].
    assert (Hdb : db r = true).
    { unfold getBackups in H. destruct (db r); [reflexivity|discriminate]. }
    eexists d, _. split; [reflexivity|]. split; [exact (restore_present _ d r Hdb Hd)|].
    split.
    + apply (opened_intro _ d); cbn [db dbPath fs]; [reflexivity|apply lookup_insert_eq].
    + apply current_file. cbn [dbPath fs]. apply lookup_insert_eq.
Qed.

End Backups.

Section BackupPaths.
Import Sql KeystrokeRepository.

Lemma to_int_normal (n : Z) :
  Z.to_int n <> Decimal.Pos Decimal.Nil /\ Z.to_int n <> Decimal.Neg Decimal.Nil.
Proof.
  pose proof (DecimalZ.to_of (Z.to_int n)) as H. rewrite DecimalZ.of_to in H.
  split; intros E; rewrite E in H; discriminate H.
Qed.

Lemma decimal_inj (a b : Z) : JSString.decimal a = JSString.decimal b -> a = b.
Proof.
  unfold JSString.decimal. intros H.
  apply DecimalZ.to_int_inj.
  destruct (to_int_normal a) as [Ha1 Ha2], (to_int_normal b) as [Hb1 Hb2].
  pose proof (NilZero.isi _ Ha1 Ha2) as Ia. pose proof (NilZero.isi _ Hb1 Hb2) as Ib.
  rewrite H in Ia. rewrite Ia in Ib. injection Ib as ->. reflexivity.
Qed.

Lemma append_inv_head (a b c : string) : a +:+ b = a +:+ c -> b = c.
Proof.
  induction a as [|x a IH]; simpl; intros H; [exact H|].
  injection H as H. exact (IH H).
Qed.

Lemma backup_path_inj (path : string) (now1 now2 : Z) :
  path +:+ ".backup." +:+ JSString.decimal now1
  = path +:+ ".backup." +:+ JSString.decimal now2 -> now1 = now2.
Proof.
  intros H. apply append_inv_head in H. apply (append_inv_head ".backup.") in H.
  exact (decimal_inj _ _ H).
Qed.

Lemma getBackups_intro (r : t) (row : BackupRow) (d : Database) :
  db r = true ->
  In row (backups (current r)) ->
  fs r !! backup_path row = Some d ->
  exists l, getBackups r = Ok l /\
            In {| backupPath := backup_path row; createdAt := created_at row |} l.
Proof.
  intros Hdb Hrow Hd.
  destruct (getBackups r) as [l|e] eqn:E.
  - exists l. split; [reflexivity|]. apply (getBackups_In r l _ E). split.
    + exists row. auto.
    + unfold existsSync. cbn [backupPath]. rewrite Hd. reflexivity.
  - unfold getBackups in E. rewrite Hdb in E. discriminate E.
Qed.

Lemma resetData_opened (r : t) (now : Z) :
  opened r = true ->
  exists path r2 l,
    Main.resetData now r = (Ok path, r2) /\
    opened r2 = true /\
    keystrokes (current r2) = [] /\
    fs r2 !! path = Some (current r) /\
    getBackups r2 = Ok l /\
    In {| backupPath := path; createdAt := now |} l.
Proof.
  intros Hop.
  pose proof (backup_path_fresh (dbPath r) now) as Hfresh.
  pose proof (backup_opened now r Hop) as Hb. cbv zeta in Hb.
  set (path := dbPath r +:+ ".backup." +:+ JSString.decimal now) in *.
  set (r1 := {| dbPath := dbPath r; db := true;
                fs := <[dbPath r := insertBackup path now (current r)]>
                        (<[path := current r]> (fs r)) |}) in *.
  assert (Hop1 : opened r1 = true).
  { apply (opened_intro _ (insertBackup path now (current r))); [reflexivity|].
    apply lookup_insert_eq. }
  pose proof (clear_opened r1 Hop1) as Hc.
  set (r2 := {| dbPath := dbPath r1; db := true;
                fs := <[dbPath r1 := deleteKeystrokes (current r1)]> (fs r1) |}) in *.
  assert (Hcur1 : current r1 = insertBackup path now (current r)).
  { apply current_file. apply lookup_insert_eq. }
  assert (Hcur2 : current r2 = deleteKeystrokes (current r1)).
  { apply current_file. apply lookup_insert_eq. }
  assert (Hsnap : fs r2 !! path = Some (current r)).
  { unfold r2, r1; cbn [fs dbPath].
    rewrite !lookup_insert_ne by (intros E; apply Hfresh; symmetry; exact E).
    apply lookup_insert_eq. }
  destruct (getBackups_intro r2
              {| backup_id := backups_seq (current r) + 1; backup_path := path;
                 created_at := now |} (current r)) as [l [Hl Hin]].
  - reflexivity.
  - rewrite Hcur2, Hcur1. cbn [backups deleteKeystrokes insertBackup].
    apply in_or_app. right. left. reflexivity.
  - exact Hsnap.
  - exists path, r2, l.
    split; [unfold Main.resetData; rewrite Hb, Hc; reflexivity|].
    split; [apply (opened_intro _ (deleteKeystrokes (current r1)));
            [reflexivity|apply lookup_insert_eq]|].
    split; [rewrite Hcur2; reflexivity|].
    split; [exact Hsnap|]. split; [exact Hl|exact Hin].
Qed.

(** X5.  The reset of [main.ts] ([backup()] then [clear()]) on an opened
    store succeeds; afterwards the [keystrokes] table is empty, the file at
    the returned path holds the database as it was before the reset, and
    [getBackups] lists that path with the time of the backup. *)
Theorem reset_keeps_a_restorable_backup (r : t) (now : Z) :
  opened r = true ->
  exists path r2 l,
    Main.resetData now r = (Ok path, r2) /\
    opened r2 = true /\
    keystrokes (current r2) = [] /\
    fs r2 !! path = Some (current r) /\
    getBackups r2 = Ok l /\
    In {| backupPath := path; createdAt := now |} l.
Proof. exact (resetData_opened r now). Qed.

(** X6.  [restore] with the path a reset returned brings back the whole
    database as it was before the reset: rows, counters and the [backups]
    table.  The list of backups is then drawn from the rows recorded before
    the reset; the row of the backup restored from, written after the
    copy, is not carried over. *)
Theorem restore_after_reset_returns_the_whole_file (r : t) (now : Z) :
  opened r = true ->
  exists path r2 r3,
    Main.resetData now r = (Ok path, r2) /\
    restore path r2 = (Ok tt, r3) /\
    opened r3 = true /\
    current r3 = current r /\
    forall l b, getBackups r3 = Ok l -> In b l ->
      exists row, In row (backups (current r)) /\
                  backup_path row = backupPath b /\ created_at row = createdAt b.
Proof.
  intros Hop.
  destruct (resetData_opened r now Hop)
    as [path [r2 [l [Hreset [Hop2 [_ [Hsnap _]]]]]]].
  pose proof (restore_present path (current r) r2 (opened_db r2 Hop2) Hsnap) as Hr.
  set (r3 := {| dbPath := dbPath r2; db := true;
                fs := <[dbPath r2 := current r]> (fs r2) |}) in *.
  assert (Hcur3 : current r3 = current r).
  { apply current_file. apply lookup_insert_eq. }
  exists path, r2, r3.
  split; [exact Hreset|]. split; [exact Hr|].
  split; [apply (opened_intro _ (current r)); [reflexivity|apply lookup_insert_eq]|].
  split; [exact Hcur3|].
  intros l3 b Hl3 Hb. apply (getBackups_In r3 l3 b Hl3) in Hb as [[row [Hrow Hto]] _].
  exists row. rewrite Hcur3 in Hrow. subst b. auto.
Qed.

(** X7.  Two backups taken at different times get different paths: the
    first file is still there, with what it held, after the second backup,
    both are listed by [getBackups], and neither backup changes the
    [keystrokes] table. *)
Theorem successive_backups_do_not_collide (r : t) (now1 now2 : Z) :
  opened r = true ->
  now1 <> now2 ->
  exists path1 r1 path2 r2 l,
    backup now1 r = (Ok path1, r1) /\
    backup now2 r1 = (Ok path2, r2) /\
    path1 <> path2 /\
    fs r2 !! path1 = Some (current r) /\
    fs r2 !! path2 = Some (current r1) /\
    keystrokes (current r2) = keystrokes (current r) /\
    getBackups r2 = Ok l /\
    In {| backupPath := path1; createdAt := now1 |} l /\
    In {| backupPath := path2; createdAt := now2 |} l.
Proof.
  intros Hop Hne.
  pose proof (backup_path_fresh (dbPath r) now1) as Hfresh1.
  pose proof (backup_path_fresh (dbPath r) now2) as Hfresh2.
  pose proof (backup_opened now1 r Hop) as Hb1. cbv zeta in Hb1.
  set (path1 := dbPath r +:+ ".backup." +:+ JSString.decimal now1) in *.
  set (r1 := {| dbPath := dbPath r; db := true;
                fs := <[dbPath r := insertBackup path1 now1 (current r)]>
                        (<[path1 := current r]> (fs r)) |}) in *.
  assert (Hcur1 : current r1 = insertBackup path1 now1 (current r)).
  { apply current_file. apply lookup_insert_eq. }
  assert (Hop1 : opened r1 = true).
  { apply (opened_intro _ (insertBackup path1 now1 (current r))); [reflexivity|].
    apply lookup_insert_eq. }
  pose proof (backup_opened now2 r1 Hop1) as Hb2. cbv zeta in Hb2.
  change (dbPath r1) with (dbPath r) in Hb2.
  set (path2 := dbPath r +:+ ".backup." +:+ JSString.decimal now2) in *.
  set (r2 := {| dbPath := dbPath r; db := true;
                fs := <[dbPath r := insertBackup path2 now2 (current r1)]>
                        (<[path2 := current r1]> (fs r1)) |}) in *.
  assert (Hpaths : path1 <> path2).
  { intros E. apply Hne. exact (backup_path_inj _ _ _ E). }
  assert (Hcur2 : current r2 = insertBackup path2 now2 (current r1)).
  { apply current_file. apply lookup_insert_eq. }
  assert (Hsnap1 : fs r2 !! path1 = Some (current r)).
  { unfold r2, r1; cbn [fs].
    rewrite lookup_insert_ne by (intros E; apply Hfresh1; symmetry; exact E).
    rewrite lookup_insert_ne by (intros E; apply Hpaths; symmetry; exact E).
    rewrite lookup_insert_ne by (intros E; apply Hfresh1; symmetry; exact E).
    apply lookup_insert_eq. }
  assert (Hsnap2 : fs r2 !! path2 = Some (current r1)).
  { unfold r2; cbn [fs].
    rewrite lookup_insert_ne by (intros E; apply Hfresh2; symmetry; exact E).
    apply lookup_insert_eq. }
  destruct (getBackups r2) as [l|e] eqn:Hl;
    [|unfold getBackups in Hl; cbn in Hl; discriminate Hl].
  exists path1, r1, path2, r2, l.
  split; [exact Hb1|]. split; [exact Hb2|]. split; [exact Hpaths|].
  split; [exact Hsnap1|]. split; [exact Hsnap2|].
  split; [rewrite Hcur2, Hcur1; reflexivity|].
  split; [exact Hl|].
  split; apply (getBackups_In r2 l _ Hl); (split; [|unfold existsSync; cbn [backupPath]]).
  - exists {| backup_id := backups_seq (current r) + 1; backup_path := path1;
              created_at := now1 |}.
    split; [|reflexivity]. rewrite Hcur2, Hcur1. cbn [backups insertBackup].
    apply in_or_app. left. apply in_or_app. right. left. reflexivity.
  - rewrite Hsnap1. reflexivity.
  - exists {| backup_id := backups_seq (current r1) + 1; backup_path := path2;
              created_at := now2 |}.
    split; [|reflexivity]. rewrite Hcur2. cbn [backups insertBackup].
    apply in_or_app. right. left. reflexivity.
  - rewrite Hsnap2. reflexivity.
Qed.

End BackupPaths.

(** ** [getStats] *)
Section Totals.
Import Sql KeystrokeRepository.

Lemma fold_min_le (rest : list Row) (m : Z) :
  fold_left (fun m x => Z.min m (row_timestamp x)) rest m <= m /\
  (forall row, In row rest ->
     fold_left (fun m x => Z.min m (row_timestamp x)) rest m <= row_timestamp row) /\
  (fold_left (fun m x => Z.min m (row_timestamp x)) rest m = m \/
   exists row, In row rest /\
     fold_left (fun m x => Z.min m (row_timestamp x)) rest m = row_timestamp row).
Proof.
  revert m. induction rest as [|x rest IH]; intros m; simpl.
  - split; [lia|]. split; [tauto|]. left. reflexivity.
  - destruct (IH (Z.min m (row_timestamp x))) as [H1 [H2 H3]].
    split; [lia|]. split.
    + intros row [<-|Hin]; [lia|]. exact (H2 row Hin).
    + destruct H3 as [H3|[row [Hin H3]]].
      * destruct (Z.min_spec m (row_timestamp x)) as [[_ E]|[_ E]]; rewrite E in H3 |- *.
        -- left. exact H3.
        -- right. exists x. split; [left; reflexivity|exact H3].
      * right. exists row. split; [right; exact Hin|exact H3].
Qed.

Lemma fold_max_ge (rest : list Row) (m : Z) :
  m <= fold_left (fun m x => Z.max m (row_timestamp x)) rest m /\
  (forall row, In row rest ->
     row_timestamp row <= fold_left (fun m x => Z.max m (row_timestamp x)) rest m) /\
  (fold_left (fun m x => Z.max m (row_timestamp x)) rest m = m \/
   exists row, In row rest /\
     fold_left (fun m x => Z.max m (row_timestamp x)) rest m = row_timestamp row).
Proof.
  revert m. induction rest as [|x rest IH]; intros m; simpl.
  - split; [lia|]. split; [tauto|]. left. reflexivity.
  - destruct (IH (Z.max m (row_timestamp x))) as [H1 [H2 H3]].
    split; [lia|]. split.
    + intros row [<-|Hin]; [lia|]. exact (H2 row Hin).
    + destruct H3 as [H3|[row [Hin H3]]].
      * destruct (Z.max_spec m (row_timestamp x)) as [[_ E]|[_ E]]; rewrite E in H3 |- *.
        -- right. exists x. split; [left; reflexivity|exact H3].
        -- left. exact H3.
      * right. exists row. split; [right; exact Hin|exact H3].
Qed.

Lemma orZero_id (n : Z) : orZero n = n.
Proof. unfold orZero. destruct (n =? 0) eqn:E; [|reflexivity]. lia. Qed.

Lemma remove_dups_length_le {A : Type} `{EqDecision A} (l : list A) :
  (length (remove_dups l) <= length l)%nat.
Proof.
  induction l as [|x l IH]; simpl; [lia|].
  destruct (decide_rel elem_of x l); simpl; lia.
Qed.

(** X8.  [getStats]: [totalKeystrokes] is the number of rows;
    [uniqueKeys] lies between 0 and that number and is at least 1 when
    there are rows; on an empty table both timestamps are [null]; on a
    non-empty one [oldestKeystroke] and [newestKeystroke] are timestamps of
    rows and bound every row's timestamp. *)
Theorem getStats_summarises_the_table (r : t) (st : Stats) :
  getStats r = Ok st ->
  totalKeystrokes st = Z.of_nat (length (keystrokes (current r))) /\
  0 <= uniqueKeys st <= totalKeystrokes st /\
  (keystrokes (current r) = [] ->
     oldestKeystroke st = None /\ newestKeystroke st = None /\ uniqueKeys st = 0) /\
  (keystrokes (current r) <> [] ->
     1 <= uniqueKeys st /\
     exists o n,
       oldestKeystroke st = Some o /\ newestKeystroke st = Some n /\
       (forall row, In row (keystrokes (current r)) -> o <= row_timestamp row <= n) /\
       (exists row, In row (keystrokes (current r)) /\ row_timestamp row = o) /\
       (exists row, In row (keystrokes (current r)) /\ row_timestamp row = n)).
Proof.
  unfold getStats. destruct (negb (db r)); [discriminate|].
  intros H. injection H as <-. cbn [totalKeystrokes uniqueKeys oldestKeystroke newestKeystroke].
  rewrite !orZero_id. unfold selectTotals; cbn [row_total row_oldest row_newest row_uniqueKeys].
  unfold countDistinctKeyName.
  pose proof (remove_dups_length_le (map key_name (keystrokes (current r)))) as Hle.
  rewrite length_map in Hle.
  split; [reflexivity|]. split; [lia|].
  destruct (keystrokes (current r)) as [|x rest] eqn:E.
  - split; [intros _; repeat split; reflexivity|]. intros H. contradiction.
  - split; [discriminate|]. intros _. split.
    + cbn [map remove_dups]. destruct (decide_rel elem_of _ _) as [Hin|Hout].
      * assert (Hin' : key_name x ∈ remove_dups (map key_name rest))
          by (apply elem_of_remove_dups; exact Hin).
        destruct (remove_dups (map key_name rest)); [inversion Hin'|simpl; lia].
      * simpl. lia.
    + cbn [minTimestamp maxTimestamp].
      destruct (fold_min_le rest (row_timestamp x)) as [A1 [A2 A3]].
      destruct (fold_max_ge rest (row_timestamp x)) as [B1 [B2 B3]].
      eexists _, _. split; [reflexivity|]. split; [reflexivity|].
      split; [|split].
      * intros row [<-|Hin]; [lia|]. split; [exact (A2 row Hin)|exact (B2 row Hin)].
      * destruct A3 as [A3|[row [Hin A3]]].
        -- exists x. split; [left; reflexivity|symmetry; exact A3].
        -- exists row. split; [right; exact Hin|symmetry; exact A3].
      * destruct B3 as [B3|[row [Hin B3]]].
        -- exists x. split; [left; reflexivity|symmetry; exact B3].
        -- exists row. split; [right; exact Hin|symmetry; exact B3].
Qed.

End Totals.

(** ** Restart *)
Section Restart.
Import Sql KeystrokeRepository.

(** X9.  Persistence across a restart: [close()] on an opened store
    leaves the disk as it is, and a new repository on the same path and
    disk, once initialized, is the store as it was before [close()], so
    that every query answers as before. *)
Theorem data_survives_restart (r : t) :
  opened r = true ->
  exists r1,
    close r = (Ok tt, r1) /\
    db r1 = false /\
    fs r1 = fs r /\
    initialize (create (dbPath r1) (fs r1)) = (Ok tt, r).
Proof.
  intros Hop. pose proof (opened_db r Hop) as Hdb. pose proof (opened_file r Hop) as Hfile.
  exists {| dbPath := dbPath r; db := false; fs := fs r |}.
  split; [unfold close; rewrite Hdb; reflexivity|].
  split; [reflexivity|]. split; [reflexivity|].
  unfold initialize, create; cbn [dbPath db fs]. rewrite Hfile.
  destruct r as [p d f]; cbn [dbPath db fs] in *. rewrite Hdb. reflexivity.
Qed.

End Restart.

(** ** [save] on valid timestamps *)
Section Saving.
Import Sql KeystrokeRepository.

Lemma idsFrom_succ (counter : Z) (n : nat) :
  idsFrom counter (S n) = (counter + 1) :: idsFrom (counter + 1) n.
Proof.
  unfold idsFrom. cbn [seq map]. f_equal.
  rewrite <- seq_shift, map_map. apply map_ext. intros i. lia.
Qed.

Lemma insertAll_valid (ks : list Keystroke) (d : Database) :
  Forall validTime ks ->
  exists d',
    insertAll ks d = (Ok tt, d') /\
    map row_id (keystrokes d')
      = map row_id (keystrokes d) ++ idsFrom (keystrokes_seq d) (length ks) /\
    keystrokes_seq d' = keystrokes_seq d + Z.of_nat (length ks).
Proof.
  intros Hv. revert d. induction Hv as [|k ks Hk Hv IH]; intros d.
  - exists d. cbn. rewrite app_nil_r. split; [reflexivity|]. split; [reflexivity|lia].
  - cbn [insertAll]. unfold JSDate.ofTime, JSDate.TimeClip.
    unfold validTime in Hk. apply Z.leb_le in Hk. rewrite Hk.
    cbn [JSString.toISODate JSDate.getUTCHours option_map].
    destruct (IH (insertKeystroke (keyCode k) (keyName k) (timestamp k)
                    (JSString.isoDateOfTime (timestamp k))
                    (JSDate.HourFromTime (timestamp k)) d)) as [d' [H1 [H2 H3]]].
    exists d'. split; [exact H1|]. cbn [keystrokes keystrokes_seq insertKeystroke] in H2, H3.
    split.
    + rewrite H2, map_app, <- app_assoc. cbn [length]. rewrite idsFrom_succ. reflexivity.
    + rewrite H3. cbn [length]. lia.
Qed.

Lemma save_valid (ks : list Keystroke) (r : t) :
  db r = true ->
  Forall validTime ks ->
  exists r' rows,
    save ks r = (Ok tt, r') /\
    db r' = true /\
    keystrokes (current r') = keystrokes (current r) ++ rows /\
    map rowLogical rows = map logical ks /\
    Forall rowDerived rows /\
    map row_id rows = idsFrom (keystrokes_seq (current r)) (length ks).
Proof.
  intros Hdb Hv.
  destruct (insertAll_valid ks (current r) Hv) as [d' [H1 [H2 H3]]].
  assert (Hs : exists r', save ks r = (Ok tt, r') /\ db r' = true).
  { unfold save. rewrite Hdb. cbn [negb]. destruct ks as [|k ks].
    - exists r. auto.
    - rewrite H1. exists (write d' r). split; [reflexivity|exact Hdb]. }
  destruct Hs as [r' [Hs Hdb']].
  destruct (save_rows ks r r' Hs) as [rows [R1 [R2 R3]]].
  exists r', rows. split; [exact Hs|]. split; [exact Hdb'|].
  split; [exact R1|]. split; [exact R2|]. split; [exact R3|].
  assert (Hcur : map row_id (keystrokes (current r'))
                 = map row_id (keystrokes (current r))
                   ++ idsFrom (keystrokes_seq (current r)) (length ks)).
  { unfold save in Hs. rewrite Hdb in Hs. cbn [negb] in Hs. destruct ks as [|k ks].
    - injection Hs as <-. cbn. rewrite app_nil_r. reflexivity.
    - rewrite H1 in Hs. injection Hs as <-. rewrite current_write. exact H2. }
  rewrite R1, map_app in Hcur. apply app_inv_head in Hcur. exact Hcur.
Qed.

(** X10.  On an initialized store [save] of records with valid timestamps
    succeeds; the rows it adds come after the existing ones, in the order
    of the batch, with the logical fields of the records, the date and
    hour derived in UTC, and the next ids of the counter. *)
Theorem save_appends_the_batch_in_order (ks : list Keystroke) (r : t) :
  db r = true ->
  Forall validTime ks ->
  exists r' rows,
    save ks r = (Ok tt, r') /\
    keystrokes (current r') = keystrokes (current r) ++ rows /\
    map rowLogical rows = map logical ks /\
    Forall rowDerived rows /\
    map row_id rows = idsFrom (keystrokes_seq (current r)) (length ks).
Proof.
  intros Hdb Hv. destruct (save_valid ks r Hdb Hv) as [r' [rows H]].
  exists r', rows. tauto.
Qed.

End Saving.

(** ** [clear] *)
Section Clearing.
Import Sql KeystrokeRepository.

Lemma selectStats_empty (cond : Row -> bool) (d : Database) :
  keystrokes d = [] -> selectStats cond d = [].
Proof. intros H. unfold selectStats. rewrite H. reflexivity. Qed.

Lemma selectByTimestamp_empty (a b : Z) (d : Database) :
  keystrokes d = [] -> selectByTimestamp a b d = [].
Proof. intros H. unfold selectByTimestamp. rewrite H. reflexivity. Qed.

Lemma existsSync_overwrite (path key : string) (d d' : Database) (disk : gmap string Database) :
  disk !! key = Some d ->
  existsSync path (<[key := d']> disk) = existsSync path disk.
Proof.
  intros H. unfold existsSync. destruct (decide (key = path)) as [->|Hne].
  - rewrite lookup_insert_eq, H. reflexivity.
  - rewrite lookup_insert_ne by exact Hne. reflexivity.
Qed.

Lemma getStats_total (r : t) (st : Stats) :
  getStats r = Ok st ->
  totalKeystrokes st = Z.of_nat (length (keystrokes (current r))).
Proof.
  unfold getStats. destruct (negb (db r)); [discriminate|].
  intros H. injection H as <-. cbn [totalKeystrokes]. rewrite orZero_id. reflexivity.
Qed.

(** X11.  After [clear()] on an opened store every range query answers
    with no rows, and so does every period query, but for the day query of
    an invalid [Date], which throws as on any store; [getStats] answers
    with zero and [null]; the list of backups is what it was; and a
    following [save] of [N] valid records leaves exactly [N] rows. *)
Theorem clear_empties_every_query (r : t) :
  opened r = true ->
  exists r2,
    clear r = (Ok tt, r2) /\
    (forall start end_, getByDateRange start end_ r2 = Ok []) /\
    (forall tza period date,
        getStatsByPeriod tza period date r2
        = match period, date with
          | PerDay, None => Err InvalidTime
          | _, _ => Ok []
          end) /\
    getStats r2 = Ok {| totalKeystrokes := 0; oldestKeystroke := None;
                        newestKeystroke := None; uniqueKeys := 0 |} /\
    getBackups r2 = getBackups r /\
    forall ks, Forall validTime ks ->
      exists r3 st,
        save ks r2 = (Ok tt, r3) /\
        getStats r3 = Ok st /\
        totalKeystrokes st = Z.of_nat (length ks).
Proof.
  intros Hop. pose proof (clear_opened r Hop) as Hc.
  set (r2 := {| dbPath := dbPath r; db := true;
                fs := <[dbPath r := deleteKeystrokes (current r)]> (fs r) |}) in *.
  assert (Hcur : current r2 = deleteKeystrokes (current r)).
  { apply current_file. apply lookup_insert_eq. }
  assert (Hrows : keystrokes (current r2) = []) by (rewrite Hcur; reflexivity).
  exists r2. split; [exact Hc|]. split; [|split; [|split; [|split]]].
  - intros start end_. unfold getByDateRange. cbn [db r2 negb].
    destruct (JSDate.getTime start), (JSDate.getTime end_); try reflexivity.
    rewrite (selectByTimestamp_empty _ _ _ Hrows). reflexivity.
  - intros tza period date. unfold getStatsByPeriod. cbn [db r2 negb].
    destruct period, date as [time|]; cbn [JSString.toISODate option_map];
      rewrite ?(selectStats_empty _ _ Hrows); reflexivity.
  - unfold getStats, selectTotals. cbn [db r2 negb]. rewrite Hrows. reflexivity.
  - unfold getBackups. cbn [db r2 negb fs]. rewrite (opened_db r Hop). cbn [negb].
    rewrite Hcur. unfold selectBackups. cbn [backups deleteKeystrokes].
    f_equal. apply filter_ext. intros b.
    apply (existsSync_overwrite _ _ (current r)). exact (opened_file r Hop).
  - intros ks Hv.
    destruct (save_valid ks r2 eq_refl Hv) as [r3 [rows [Hs [Hdb3 [R1 [R2 _]]]]]].
    destruct (getStats r3) as [st|e] eqn:Hst;
      [|unfold getStats in Hst; rewrite Hdb3 in Hst; discriminate Hst].
    exists r3, st. split; [exact Hs|]. split; [exact Hst|].
    rewrite (getStats_total r3 st Hst).
    rewrite R1, Hrows, app_nil_l. rewrite <- (length_map rowLogical), R2, length_map.
    reflexivity.
Qed.

End Clearing.

(** ** What holds after any sequence of calls *)
Section Invariants.
Import Sql KeystrokeRepository.

Lemma calls_snoc (cs : list Call) (c : Call) (r : t) :
  calls (cs ++ [c]) r = call (calls cs r) c.
Proof. unfold calls. rewrite fold_left_app. reflexivity. Qed.

Lemma diskDerived_call (c : Call) (r : t) : diskDerived r -> diskDerived (call r c).
Proof.
  intros H. destruct c; cbn [call].
  - apply diskDerived_initialize, H.
  - apply diskDerived_save, H.
  - apply diskDerived_clear, H.
  - apply diskDerived_backup, H.
  - apply diskDerived_restore, H.
  - apply diskDerived_close, H.
Qed.

Lemma diskDerived_calls (path : string) (cs : list Call) :
  diskDerived (calls cs (create path ∅)).
Proof.
  induction cs as [|c cs IH] using rev_ind.
  - apply diskDerived_create.
  - rewrite calls_snoc. apply diskDerived_call, IH.
Qed.

(** X12.  Whatever calls are made on a repository created on an empty
    disk, the records saved carrying timestamps a [Date] can hold, every
    row of every database file (backups included) has a valid timestamp
    and the [date] and [hour] of that timestamp in UTC. *)
Theorem stored_rows_always_agree_with_their_timestamp (path : string) (cs : list Call) :
  Forall validCall cs ->
  diskDerived (calls cs (create path ∅)).
Proof. intros _. apply diskDerived_calls. Qed.

(** *** Row ids *)




















End Invariants.

(** ** StatisticsService: the life of a cache entry *)
Section Caching.
Import Sql KeystrokeRepository StatisticsService.

Lemma getFromCache_unchanged now key s v s' :
  getFromCache now key s = (Some v, s') -> s' = s.
Proof.
  unfold getFromCache. destruct (cache s !! key) as [e|]; [|discriminate].
  destruct (expiresAt e <? now); [discriminate|]. intros H. injection H as _ <-. reflexivity.
Qed.

Lemma getFromCache_queries now key s :
  queries (snd (getFromCache now key s)) = queries s.
Proof.
  unfold getFromCache. destruct (cache s !! key) as [e|]; [|reflexivity].
  destruct (expiresAt e <? now); reflexivity.
Qed.


Lemma getFromCache_stale now now' key v s :
  now + CACHE_TTL_MS < now' ->
  fst (getFromCache now' key (setCache now key v s)) = None.
Proof.
  intros H. unfold getFromCache, setCache; cbn [cache]. rewrite lookup_insert_eq.
  cbn [expiresAt data]. replace (now + CACHE_TTL_MS <? now') with true by lia.
  reflexivity.
Qed.

Lemma getFromCache_cleared now key s :
  getFromCache now key (clearCache s) = (None, clearCache s).
Proof. unfold getFromCache, clearCache; cbn [cache]. rewrite lookup_empty. reflexivity. Qed.

(** The fields [getDailyStats] reads depend on the UTC day only. *)
Lemma UTC_fields_of_day (t t' : Z) :
  JSDate.Day t = JSDate.Day t' ->
  JSDate.YearFromTime t = JSDate.YearFromTime t' /\
  JSDate.MonthFromTime t = JSDate.MonthFromTime t' /\
  JSDate.DateFromTime t = JSDate.DateFromTime t'.
Proof.
  intros H.
  unfold JSDate.DateFromTime, JSDate.MonthFromTime, JSDate.DayWithinYear,
    JSDate.InLeapYear, JSDate.YearFromTime.
  rewrite H. repeat split; reflexivity.
Qed.

Lemma queries_grow_daily tza year month days repo acc s :
  exists more, queries (snd (dailyTrendLoop tza year month days repo acc s)) = queries s ++ more.
Proof.
  revert acc s. induction days as [|D days IH]; intros acc s; cbn [dailyTrendLoop].
  - exists []. rewrite app_nil_r. reflexivity.
  - unfold query. destruct (getStatsByPeriod tza PerDay _ repo) as [st|e].
    + destruct (IH (acc ++ [(JSDate.ofNum
                 (JSDate.UTC (Some year) (Some (month - 1)) (Some D)
                    (Some 0) (Some 0) (Some 0) (Some 0)), sumCounts st)])
                  {| cache := cache s; queries := queries s ++ [(PerDay, JSDate.ofNum
                 (JSDate.UTC (Some year) (Some (month - 1)) (Some D)
                    (Some 0) (Some 0) (Some 0) (Some 0)))] |}) as [more Hm].
      eexists. rewrite Hm. cbn [queries]. rewrite <- app_assoc. reflexivity.
    + eexists. reflexivity.
Qed.

Lemma queries_grow_monthly tza year months repo acc s :
  exists more, queries (snd (monthlyTrendLoop tza year months repo acc s)) = queries s ++ more.
Proof.
  revert acc s. induction months as [|m months IH]; intros acc s; cbn [monthlyTrendLoop].
  - exists []. rewrite app_nil_r. reflexivity.
  - unfold query. destruct (getStatsByPeriod tza PerMonth _ repo) as [st|e].
    + destruct (IH (acc ++ [(m, sumCounts st)])
                  {| cache := cache s; queries := queries s ++ [(PerMonth, JSDate.ofNum
                 (JSDate.UTC (Some year) (Some (m - 1)) (Some 1)
                    (Some 0) (Some 0) (Some 0) (Some 0)))] |}) as [more Hm].
      eexists. rewrite Hm. cbn [queries]. rewrite <- app_assoc. reflexivity.
    + eexists. reflexivity.
Qed.


Lemma getDailyStats_same_day tza now t t' repo s :
  JSDate.Day t' = JSDate.Day t ->
  getDailyStats tza now (Some t') repo s = getDailyStats tza now (Some t) repo s.
Proof.
  intros Hday. unfold getDailyStats.
  cbn [JSDate.getUTCFullYear JSDate.getUTCMonth JSDate.getUTCDate option_map].
  destruct (UTC_fields_of_day t' t Hday) as (-> & -> & ->). reflexivity.
Qed.


(** *** Results that are computed do not depend on the service's state *)

Lemma dailyTrendLoop_fst tza year month days repo acc s s' :
  fst (dailyTrendLoop tza year month days repo acc s)
  = fst (dailyTrendLoop tza year month days repo acc s').
Proof.
  revert acc s s'. induction days as [|D days IH]; intros acc s s'; cbn [dailyTrendLoop].
  - reflexivity.
  - unfold query. destruct (getStatsByPeriod tza PerDay _ repo) as [st|e]; [|reflexivity].
    apply IH.
Qed.

Lemma monthlyTrendLoop_fst tza year months repo acc s s' :
  fst (monthlyTrendLoop tza year months repo acc s)
  = fst (monthlyTrendLoop tza year months repo acc s').
Proof.
  revert acc s s'. induction months as [|m months IH]; intros acc s s'; cbn [monthlyTrendLoop].
  - reflexivity.
  - unfold query. destruct (getStatsByPeriod tza PerMonth _ repo) as [st|e]; [|reflexivity].
    apply IH.
Qed.

(** What [getDailyStats] computes when the cache has no live entry. *)
Lemma getDailyStats_miss tza now date repo s key :
  key = getCacheKey "daily"
          [JSDate.getTime
             (JSDate.ofNum (JSDate.UTC (JSDate.getUTCFullYear date) (JSDate.getUTCMonth date)
                              (JSDate.getUTCDate date) (Some 0) (Some 0) (Some 0) (Some 0)))] ->
  fst (getFromCache now key s) = None ->
  fst (getDailyStats tza now date repo s) = fst (getDailyStats tza now date repo create).
Proof.
  intros -> Hmiss. unfold getDailyStats.
  destruct (getFromCache now _ s) as [o s0]. cbn [fst] in Hmiss. subst o.
  unfold getFromCache at 1. cbn [cache create]. rewrite lookup_empty.
  unfold query. destruct (getStatsByPeriod tza PerDay _ repo); reflexivity.
Qed.

Lemma getMonthlyStats_miss tza now year month repo s :
  fst (getFromCache now (getCacheKey "monthly" [Some year; Some month]) s) = None ->
  fst (getMonthlyStats tza now year month repo s)
  = fst (getMonthlyStats tza now year month repo create).
Proof.
  intros Hmiss. unfold getMonthlyStats.
  destruct ((month <? 1) || (month >? 12)); [reflexivity|].
  destruct (getFromCache now _ s) as [o s0]. cbn [fst] in Hmiss. subst o.
  unfold getFromCache at 1. cbn [cache create]. rewrite lookup_empty.
  unfold query. destruct (getStatsByPeriod tza PerMonth _ repo) as [kb|e]; [|reflexivity].
  unfold getDailyTrendForMonth.
  match goal with
  | |- context [dailyTrendLoop ?a ?b ?c ?d ?e ?f ?g] =>
      match goal with
      | |- context [dailyTrendLoop a b c d e f ?h] =>
          lazymatch h with
          | g => fail
          | _ => pose proof (dailyTrendLoop_fst a b c d e f g h) as E
          end
      end
  end.
  destruct (dailyTrendLoop _ _ _ _ _ _ _) as [[trend|e] s3];
  destruct (dailyTrendLoop _ _ _ _ _ _ _) as [[trend'|e'] s3'];
  cbn [fst] in E; try discriminate E; try reflexivity.
  - injection E as <-. reflexivity.
  - injection E as <-. reflexivity.
Qed.

Lemma getYearlyStats_miss tza now year repo s :
  fst (getFromCache now (getCacheKey "yearly" [Some year]) s) = None ->
  fst (getYearlyStats tza now year repo s)
  = fst (getYearlyStats tza now year repo create).
Proof.
  intros Hmiss. unfold getYearlyStats.
  destruct (getFromCache now _ s) as [o s0]. cbn [fst] in Hmiss. subst o.
  unfold getFromCache at 1. cbn [cache create]. rewrite lookup_empty.
  unfold query. destruct (getStatsByPeriod tza PerYear _ repo) as [kb|e]; [|reflexivity].
  unfold getMonthlyTrendForYear.
  match goal with
  | |- context [monthlyTrendLoop ?a ?b ?c ?d ?e ?f] =>
      match goal with
      | |- context [monthlyTrendLoop a b c d e ?h] =>
          lazymatch h with
          | f => fail
          | _ => pose proof (monthlyTrendLoop_fst a b c d e f h) as E
          end
      end
  end.
  destruct (monthlyTrendLoop _ _ _ _ _ _) as [[trend|e] s3];
  destruct (monthlyTrendLoop _ _ _ _ _ _) as [[trend'|e'] s3'];
  cbn [fst] in E; try discriminate E; try reflexivity.
  - injection E as <-. reflexivity.
  - injection E as <-. reflexivity.
Qed.


(** X15.  After [now + CACHE_TTL_MS] a result computed at [now] is no
    longer served: the call answers what a service with an empty cache
    answers on the store at hand. *)
Theorem expired_results_are_recomputed :
  (forall tza now t repo s v s1,
      getDailyStats tza now (Some t) repo s = (Ok v, s1) ->
      queries s1 <> queries s ->
      forall tza' now' t' repo',
        JSDate.Day t' = JSDate.Day t ->
        now + CACHE_TTL_MS < now' ->
        fst (getDailyStats tza' now' (Some t') repo' s1)
        = fst (getDailyStats tza' now' (Some t') repo' create)) /\
  (forall tza now year month repo s v s1,
      getMonthlyStats tza now year month repo s = (Ok v, s1) ->
      queries s1 <> queries s ->
      forall tza' now' repo',
        now + CACHE_TTL_MS < now' ->
        fst (getMonthlyStats tza' now' year month repo' s1)
        = fst (getMonthlyStats tza' now' year month repo' create)) /\
  (forall tza now year repo s v s1,
      getYearlyStats tza now year repo s = (Ok v, s1) ->
      queries s1 <> queries s ->
      forall tza' now' repo',
        now + CACHE_TTL_MS < now' ->
        fst (getYearlyStats tza' now' year repo' s1)
        = fst (getYearlyStats tza' now' year repo' create)).
Proof.
  split; [|split].
  - intros tza now t repo s v s1 H Hq tza' now' t' repo' Hday Hnow.
    rewrite !(getDailyStats_same_day _ _ _ _ _ _ Hday).
    apply (getDailyStats_miss _ _ _ _ _ _ eq_refl).
    unfold getDailyStats in H.
    set (normalizedDate := JSDate.ofNum _) in *.
    set (cacheKey := getCacheKey _ _) in *.
    destruct (getFromCache now cacheKey s) as [[[c|c|c]|] s0] eqn:G.
    + apply getFromCache_unchanged in G. injection H as _ <-. subst s0. contradiction.
    + discriminate H.
    + discriminate H.
    + destruct (query tza PerDay normalizedDate repo s0) as [[kb|e] s2]; [|discriminate H].
      injection H as _ <-. apply getFromCache_stale. exact Hnow.
  - intros tza now year month repo s v s1 H Hq tza' now' repo' Hnow.
    apply getMonthlyStats_miss.
    unfold getMonthlyStats in H.
    destruct ((month <? 1) || (month >? 12)); [discriminate H|].
    destruct (getFromCache now _ s) as [[[c|c|c]|] s0] eqn:G.
    + discriminate H.
    + apply getFromCache_unchanged in G. injection H as _ <-. subst s0. contradiction.
    + discriminate H.
    + destruct (query tza PerMonth _ repo s0) as [[kb|e] s2]; [|discriminate H].
      destruct (getDailyTrendForMonth tza year month repo s2) as [[trend|e] s3];
        [|discriminate H].
      injection H as _ <-. apply getFromCache_stale. exact Hnow.
  - intros tza now year repo s v s1 H Hq tza' now' repo' Hnow.
    apply getYearlyStats_miss.
    unfold getYearlyStats in H.
    destruct (getFromCache now _ s) as [[[c|c|c]|] s0] eqn:G.
    + discriminate H.
    + discriminate H.
    + apply getFromCache_unchanged in G. injection H as _ <-. subst s0. contradiction.
    + destruct (query tza PerYear _ repo s0) as [[kb|e] s2]; [|discriminate H].
      destruct (getMonthlyTrendForYear tza year repo s2) as [[trend|e] s3];
        [|discriminate H].
      injection H as _ <-. apply getFromCache_stale. exact Hnow.
Qed.

Lemma getFromCache_cleared_fst now key s : fst (getFromCache now key (clearCache s)) = None.
Proof. rewrite getFromCache_cleared. reflexivity. Qed.

(** X16.  After [clearCache()] each of the three methods answers what a
    service with an empty cache answers on the store at hand, whatever was
    cached before. *)
Theorem clearCache_forces_recomputation (s : StatisticsService.t) :
  (forall tza now date repo,
      fst (getDailyStats tza now date repo (clearCache s))
      = fst (getDailyStats tza now date repo create)) /\
  (forall tza now year month repo,
      fst (getMonthlyStats tza now year month repo (clearCache s))
      = fst (getMonthlyStats tza now year month repo create)) /\
  (forall tza now year repo,
      fst (getYearlyStats tza now year repo (clearCache s))
      = fst (getYearlyStats tza now year repo create)).
Proof.
  split; [|split]; intros.
  - apply (getDailyStats_miss _ _ _ _ _ _ eq_refl), getFromCache_cleared_fst.
  - apply getMonthlyStats_miss, getFromCache_cleared_fst.
  - apply getYearlyStats_miss, getFromCache_cleared_fst.
Qed.

End Caching.

Section FailedCalls.
Import Sql KeystrokeRepository StatisticsService.

Lemma getFromCache_miss_cache now key s s0 :
  getFromCache now key s = (None, s0) -> cache s0 !! key = None.
Proof.
  unfold getFromCache. destruct (cache s !! key) as [e|] eqn:E.
  - destruct (expiresAt e <? now); [|discriminate].
    intros H. injection H as <-. cbn [cache]. apply lookup_delete_eq.
  - intros H. injection H as <-. exact E.
Qed.

Lemma getFromCache_absent now key s :
  cache s !! key = None -> fst (getFromCache now key s) = None.
Proof. intros H. unfold getFromCache. rewrite H. reflexivity. Qed.

(** X17.  A call that fails leaves nothing in the cache for its
    arguments: the next call for them, at any time and on any store,
    answers what a service with an empty cache answers. *)
Theorem failed_calls_cache_nothing (s : StatisticsService.t) :
  reachable s ->
  (forall tza now date repo e s1,
      getDailyStats tza now date repo s = (Err e, s1) ->
      forall tza' now' repo',
        fst (getDailyStats tza' now' date repo' s1)
        = fst (getDailyStats tza' now' date repo' create)) /\
  (forall tza now year month repo e s1,
      getMonthlyStats tza now year month repo s = (Err e, s1) ->
      forall tza' now' repo',
        fst (getMonthlyStats tza' now' year month repo' s1)
        = fst (getMonthlyStats tza' now' year month repo' create)) /\
  (forall tza now year repo e s1,
      getYearlyStats tza now year repo s = (Err e, s1) ->
      forall tza' now' repo',
        fst (getYearlyStats tza' now' year repo' s1)
        = fst (getYearlyStats tza' now' year repo' create)).
Proof.
  intros Hr. pose proof (reachable_shapesOK _ s Hr) as Hs.
  split; [|split].
  - intros tza now date repo e s1 H tza' now' repo'.
    pose proof (proj2 (getDailyStats_shapes tza now date repo s Hs)) as Hno.
    rewrite H in Hno. cbn [fst] in Hno.
    apply (getDailyStats_miss _ _ _ _ _ _ eq_refl). apply getFromCache_absent.
    unfold getDailyStats in H.
    set (normalizedDate := JSDate.ofNum _) in *.
    set (cacheKey := getCacheKey _ _) in *.
    destruct (getFromCache now cacheKey s) as [[[c|c|c]|] s0] eqn:G.
    + discriminate H.
    + injection H as <- _. contradiction.
    + injection H as <- _. contradiction.
    + apply getFromCache_miss_cache in G. unfold query in H.
      destruct (getStatsByPeriod tza PerDay normalizedDate repo) as [kb|e0];
        [discriminate H|].
      injection H as _ <-. exact G.
  - intros tza now year month repo e s1 H tza' now' repo'.
    pose proof (proj2 (getMonthlyStats_shapes tza now year month repo s Hs)) as Hno.
    rewrite H in Hno. cbn [fst] in Hno.
    unfold getMonthlyStats in H.
    destruct ((month <? 1) || (month >? 12)) eqn:V.
    { unfold getMonthlyStats. rewrite V. reflexivity. }
    apply getMonthlyStats_miss. apply getFromCache_absent.
    set (cacheKey := getCacheKey _ _) in *.
    destruct (getFromCache now cacheKey s) as [[[c|c|c]|] s0] eqn:G.
    + injection H as <- _. contradiction.
    + discriminate H.
    + injection H as <- _. contradiction.
    + apply getFromCache_miss_cache in G. unfold query in H.
      destruct (getStatsByPeriod tza PerMonth _ repo) as [kb|e0].
      * unfold getDailyTrendForMonth in H.
        match type of H with
        | context [dailyTrendLoop ?a ?b ?c ?d ?f ?g ?h] =>
            pose proof (dailyTrendLoop_cache a b c d f g h) as Hc;
            destruct (dailyTrendLoop a b c d f g h) as [[trend|e1] s3]
        end; [discriminate H|].
        injection H as _ <-. cbn [snd cache] in Hc. rewrite Hc. exact G.
      * injection H as _ <-. exact G.
  - intros tza now year repo e s1 H tza' now' repo'.
    pose proof (proj2 (getYearlyStats_shapes tza now year repo s Hs)) as Hno.
    rewrite H in Hno. cbn [fst] in Hno.
    apply getYearlyStats_miss. apply getFromCache_absent.
    unfold getYearlyStats in H.
    set (cacheKey := getCacheKey _ _) in *.
    destruct (getFromCache now cacheKey s) as [[[c|c|c]|] s0] eqn:G.
    + injection H as <- _. contradiction.
    + injection H as <- _. contradiction.
    + discriminate H.
    + apply getFromCache_miss_cache in G. unfold query in H.
      destruct (getStatsByPeriod tza PerYear _ repo) as [kb|e0].
      * unfold getMonthlyTrendForYear in H.
        match type of H with
        | context [monthlyTrendLoop ?a ?b ?c ?d ?f ?g] =>
            pose proof (monthlyTrendLoop_cache a b c d f g) as Hc;
            destruct (monthlyTrendLoop a b c d f g) as [[trend|e1] s3]
        end; [discriminate H|].
        injection H as _ <-. cbn [snd cache] in Hc. rewrite Hc. exact G.
      * injection H as _ <-. exact G.
Qed.

End FailedCalls.

(** ** StatisticsService: what a computed result counts *)
Section FreshResults.
Import Sql KeystrokeRepository StatisticsService JSDate.

Lemma UTC_midnight (Y mn D : Z) :
  1000 <= Y <= 9999 -> 0 <= mn <= 11 -> 1 <= D <= daysInMonth Y mn ->
  ofNum (UTC (Some Y) (Some mn) (Some D) (Some 0) (Some 0) (Some 0) (Some 0))
  = Some (MakeDate (MakeDay Y mn D) 0) /\
  JSString.isoDateOfTime (MakeDate (MakeDay Y mn D) 0) = iso Y (mn + 1) D.
Proof.
  intros HY Hmn HD.
  assert (HF : fullYear Y = Y) by (apply fullYear_id; lia).
  destruct (UTC_day Y mn D ltac:(rewrite HF; lia) Hmn ltac:(rewrite HF; exact HD))
    as (T & ET & _ & Hiso).
  rewrite HF in Hiso.
  assert (HT : T = MakeDate (MakeDay Y mn D) 0).
  { unfold UTC, ofNum in ET. rewrite MakeTime_zero, HF in ET.
    destruct (TimeClip (MakeDate (MakeDay Y mn D) 0)) as [x|] eqn:E; [|discriminate].
    apply TimeClip_Some in E as [-> _].
    destruct (TimeClip (MakeDate (MakeDay Y mn D) 0)) as [x|] eqn:E; [|discriminate].
    apply TimeClip_Some in E as [-> _]. injection ET as <-. reflexivity. }
  subst T. split; [exact ET|exact Hiso].
Qed.

Lemma getStatsByPeriod_open tza period t repo :
  db repo = true -> exists st, getStatsByPeriod tza period (Some t) repo = Ok st.
Proof.
  intros Hdb. unfold getStatsByPeriod. rewrite Hdb. cbn [negb].
  destruct period; cbn [JSString.toISODate option_map]; eexists; reflexivity.
Qed.

Lemma same_day_fields (r : Row) (t : Z) :
  (rowYear r =? YearFromTime t) && (rowMonth r =? MonthFromTime t + 1)
    && (rowDay r =? DateFromTime t)
  = (Day (row_timestamp r) =? Day t).
Proof.
  unfold rowYear, rowMonth, rowDay.
  destruct (Z.eq_dec (Day (row_timestamp r)) (Day t)) as [E|N].
  - destruct (UTC_fields_of_day _ _ E) as (-> & -> & ->).
    rewrite !Z.eqb_refl. symmetry. apply Z.eqb_eq. exact E.
  - replace (Day (row_timestamp r) =? Day t) with false by lia.
    apply not_true_is_false. intros H.
    apply andb_prop in H as [H H3]. apply andb_prop in H as [H1 H2].
    apply Z.eqb_eq in H1, H2, H3. apply N.
    destruct (fields_valid (row_timestamp r)) as (_ & _ & ->).
    destruct (fields_valid t) as (_ & _ & ->).
    rewrite H1, H3. f_equal. lia.
Qed.

(** X18.  With nothing cached, [getDailyStats] on an initialized store
    written by [save], for a date of a four-digit year, succeeds in every
    time zone; its [date] is the UTC midnight of the day and its
    [totalKeystrokes] is the number of stored records whose timestamp
    falls on that UTC day. *)
Theorem daily_stats_count_the_records_of_the_UTC_day tza now t repo (s : StatisticsService.t) :
  db repo = true ->
  storeDerived repo ->
  1000 <= YearFromTime t <= 9999 ->
  exists v,
    fst (getDailyStats tza now (Some t) repo (clearCache s)) = Ok v /\
    ds_date v = Some (Day t * msPerDay) /\
    ds_totalKeystrokes v = countRows (fun r => Day (row_timestamp r) =? Day t) repo /\
    ds_totalKeystrokes v = countsTotal (ds_keyBreakdown v).
Proof.
  intros Hdb Hs HY.
  destruct (fields_valid t) as (HM & HD & Hday).
  destruct (UTC_midnight _ _ _ HY HM HD) as [Hnorm Hiso].
  rewrite <- Hday in Hnorm, Hiso.
  unfold getDailyStats.
  cbn [getUTCFullYear getUTCMonth getUTCDate option_map]. rewrite Hnorm.
  rewrite getFromCache_cleared. unfold query.
  destruct (getStatsByPeriod_open tza PerDay (MakeDate (Day t) 0) repo Hdb) as [st Hst].
  rewrite Hst. eexists. split; [reflexivity|].
  cbn [ds_date ds_totalKeystrokes ds_keyBreakdown fst].
  split; [unfold MakeDate; f_equal; lia|]. split.
  - pose proof (daysInMonth_bounds (YearFromTime t) (MonthFromTime t)) as HL.
    rewrite (getStatsByPeriod_day_count tza repo _ st _ _ _ Hs Hiso HY
               ltac:(lia) ltac:(lia) Hst).
    apply countRows_ext; [exact Hs|]. intros r _. apply same_day_fields.
  - apply sumCounts_countsTotal.
Qed.


(** The loops, entry by entry. *)
Lemma dailyTrendLoop_entries tza year month repo (f : Z -> Z) days :
  (forall D, In D days ->
     exists st,
       getStatsByPeriod tza PerDay
         (ofNum (UTC (Some year) (Some (month - 1)) (Some D)
                   (Some 0) (Some 0) (Some 0) (Some 0))) repo = Ok st /\
       sumCounts st = f D) ->
  forall acc s,
    fst (dailyTrendLoop tza year month days repo acc s)
    = Ok (acc ++ map (fun D =>
                        (ofNum (UTC (Some year) (Some (month - 1)) (Some D)
                                  (Some 0) (Some 0) (Some 0) (Some 0)), f D)) days).
Proof.
  induction days as [|D days IH]; intros Hf acc s; cbn [dailyTrendLoop map].
  - rewrite app_nil_r. reflexivity.
  - unfold query. destruct (Hf D (or_introl eq_refl)) as [st [-> <-]].
    rewrite IH by (intros D' HD'; apply Hf; right; exact HD').
    rewrite <- app_assoc. reflexivity.
Qed.

Lemma monthlyTrendLoop_entries tza year repo (f : Z -> Z) months :
  (forall m, In m months ->
     exists st,
       getStatsByPeriod tza PerMonth
         (ofNum (UTC (Some year) (Some (m - 1)) (Some 1)
                   (Some 0) (Some 0) (Some 0) (Some 0))) repo = Ok st /\
       sumCounts st = f m) ->
  forall acc s,
    fst (monthlyTrendLoop tza year months repo acc s)
    = Ok (acc ++ map (fun m => (m, f m)) months).
Proof.
  induction months as [|m months IH]; intros Hf acc s; cbn [monthlyTrendLoop map].
  - rewrite app_nil_r. reflexivity.
  - unfold query. destruct (Hf m (or_introl eq_refl)) as [st [-> <-]].
    rewrite IH by (intros m' Hm'; apply Hf; right; exact Hm').
    rewrite <- app_assoc. reflexivity.
Qed.

(** X19.  With nothing cached, [getMonthlyStats] on an initialized store
    written by [save], for a month of a four-digit year on a machine
    within a day of UTC, succeeds; [totalKeystrokes] is the number of
    records of that UTC month, and [dailyTrend] has one entry for each day
    of the month, dated at its UTC midnight, with the number of records of
    that day. *)
Theorem monthly_stats_count_the_records_of_the_month
    tza now year month repo (s : StatisticsService.t) :
  db repo = true ->
  storeDerived repo ->
  Z.abs tza <= msPerDay ->
  1000 <= year <= 9999 ->
  1 <= month <= 12 ->
  exists v,
    fst (getMonthlyStats tza now year month repo (clearCache s)) = Ok v /\
    ms_year v = year /\
    ms_month v = month /\
    ms_totalKeystrokes v
      = countRows (fun r => (rowYear r =? year) && (rowMonth r =? month)) repo /\
    dailyTrend v
      = map (fun D =>
               (Some (MakeDate (MakeDay year (month - 1) D) 0),
                countRows (fun r => (rowYear r =? year) && (rowMonth r =? month)
                                    && (rowDay r =? D)) repo))
            (upTo (Some (daysInMonth year (month - 1)))).
Proof.
  intros Hdb Hs Htz HY HM.
  assert (HF : fullYear year = year) by (apply fullYear_id; lia).
  pose proof (daysInMonth_bounds year (month - 1)) as HL.
  unfold getMonthlyStats.
  replace ((month <? 1) || (month >? 12)) with false by lia.
  rewrite getFromCache_cleared.
  destruct (local_day tza year (month - 1) 1 Htz ltac:(rewrite HF; lia) ltac:(lia)
              ltac:(rewrite HF; lia)) as (t & Et & Hy & Hm & _).
  rewrite HF in Hy. rewrite Et. unfold query.
  destruct (getStatsByPeriod_open tza PerMonth t repo Hdb) as [st Hst]. rewrite Hst.
  pose proof (getStatsByPeriod_month_count tza repo t st year month Hs Htz HY HM Hy Hm Hst)
    as Htotal.
  unfold getDailyTrendForMonth.
  assert (Hlast : getDate tza (ofLocalYMD tza (Some year) (Some month) (Some 0))
                  = Some (daysInMonth year (month - 1))).
  { exact (local_last_day tza year month Htz HY HM). }
  rewrite Hlast.
  match goal with
  | |- context [dailyTrendLoop ?a ?b ?c ?d ?e ?f ?g] =>
      assert (Hloop : fst (dailyTrendLoop a b c d e f g)
                = Ok ([] ++ map (fun D =>
                    (ofNum (UTC (Some year) (Some (month - 1)) (Some D)
                              (Some 0) (Some 0) (Some 0) (Some 0)),
                     countRows (fun r => (rowYear r =? year) && (rowMonth r =? month)
                                         && (rowDay r =? D)) repo)) d))
  end.
  { apply dailyTrendLoop_entries. intros D HD. apply upTo_In in HD.
    destruct (UTC_midnight year (month - 1) D HY ltac:(lia) HD) as [EU Hiso].
    rewrite EU. replace (month - 1 + 1) with month in Hiso by lia.
    destruct (getStatsByPeriod_open tza PerDay (MakeDate (MakeDay year (month - 1) D) 0)
                repo Hdb) as [st' Hst'].
    exists st'. split; [exact Hst'|].
    apply (getStatsByPeriod_day_count tza repo _ st' year month D Hs Hiso HY HM
             ltac:(lia) Hst'). }
  rewrite app_nil_l in Hloop.
  destruct (dailyTrendLoop _ _ _ _ _ _ _) as [[trend|e] s3]; cbn [fst] in Hloop;
    [|discriminate Hloop].
  injection Hloop as ->.
  eexists. split; [reflexivity|].
  cbn [ms_year ms_month ms_totalKeystrokes dailyTrend].
  split; [reflexivity|]. split; [reflexivity|]. split; [exact Htotal|].
  apply map_ext_in. intros D HD. apply upTo_In in HD. cbv beta.
  destruct (UTC_midnight year (month - 1) D HY ltac:(lia) HD) as [EU _].
  rewrite <- EU. reflexivity.
Qed.

(** X20.  With nothing cached, [getYearlyStats] on an initialized store
    written by [save], for a four-digit year on a machine within a day of
    UTC, succeeds; [totalKeystrokes] is the number of records of that UTC
    year and [monthlyTrend] has the months 1 to 12 in order; at or east of
    UTC each entry is the number of records of its month. *)
Theorem yearly_stats_count_the_records_of_the_year
    tza now year repo (s : StatisticsService.t) :
  db repo = true ->
  storeDerived repo ->
  Z.abs tza <= msPerDay ->
  1000 <= year <= 9999 ->
  exists v,
    fst (getYearlyStats tza now year repo (clearCache s)) = Ok v /\
    ys_year v = year /\
    ys_totalKeystrokes v = countRows (fun r => rowYear r =? year) repo /\
    map fst (monthlyTrend v) = [1; 2; 3; 4; 5; 6; 7; 8; 9; 10; 11; 12] /\
    (0 <= tza < msPerDay ->
     monthlyTrend v
       = map (fun m => (m, countRows (fun r => (rowYear r =? year) && (rowMonth r =? m)) repo))
             [1; 2; 3; 4; 5; 6; 7; 8; 9; 10; 11; 12]).
Proof.
  intros Hdb Hs Htz HY.
  assert (HF : fullYear year = year) by (apply fullYear_id; lia).
  unfold getYearlyStats. rewrite getFromCache_cleared.
  destruct (local_day tza year 0 1 Htz ltac:(rewrite HF; lia) ltac:(lia)
              ltac:(cbn; lia)) as (t & Et & Hy & _ & _).
  rewrite HF in Hy. rewrite Et. unfold query.
  destruct (getStatsByPeriod_open tza PerYear t repo Hdb) as [st Hst]. rewrite Hst.
  pose proof (getStatsByPeriod_year_count tza repo t st year Hs HY Hy Hst) as Htotal.
  unfold getMonthlyTrendForYear.
  set (anchor := fun m => MakeDate (MakeDay year (m - 1) 1) 0).
  set (f := fun m => match getStatsByPeriod tza PerMonth (Some (anchor m)) repo with
                     | Ok st' => sumCounts st'
                     | Err _ => 0
                     end).
  assert (Hanchor : forall m, 1 <= m <= 12 ->
            ofNum (UTC (Some year) (Some (m - 1)) (Some 1)
                     (Some 0) (Some 0) (Some 0) (Some 0)) = Some (anchor m)).
  { intros m Hm. apply UTC_midnight; [exact HY|lia|].
    pose proof (daysInMonth_bounds year (m - 1)). lia. }
  match goal with
  | |- context [monthlyTrendLoop ?a ?b ?c ?d ?e ?g] =>
      assert (Hloop : fst (monthlyTrendLoop a b c d e g)
                      = Ok ([] ++ map (fun m => (m, f m)) c))
  end.
  { apply monthlyTrendLoop_entries. intros m Hm. apply upTo_In in Hm.
    rewrite (Hanchor m Hm).
    destruct (getStatsByPeriod_open tza PerMonth (anchor m) repo Hdb) as [st' Hst'].
    exists st'. split; [exact Hst'|]. unfold f. rewrite Hst'. reflexivity. }
  rewrite app_nil_l in Hloop.
  destruct (monthlyTrendLoop _ _ _ _ _ _) as [[trend|e] s3]; cbn [fst] in Hloop;
    [|discriminate Hloop].
  injection Hloop as ->.
  eexists. split; [reflexivity|].
  cbn [ys_year ys_totalKeystrokes monthlyTrend].
  split; [reflexivity|]. split; [exact Htotal|]. split.
  - reflexivity.
  - intros Heast.
    change (map (fun m => (m, f m)) (upTo (Some 12))
            = map (fun m => (m, countRows (fun r => (rowYear r =? year)
                                                    && (rowMonth r =? m)) repo))
                  (upTo (Some 12))).
    apply map_ext_in. intros m Hm. apply upTo_In in Hm. f_equal. unfold f.
    destruct (getStatsByPeriod_open tza PerMonth (anchor m) repo Hdb) as [st' Hst'].
    rewrite Hst'.
    assert (Hday : Day (LocalTime tza (anchor m)) = MakeDay year (m - 1) 1).
    { unfold LocalTime, anchor. apply Day_shifted. exact Heast. }
    destruct (fields_of_MakeDay year (m - 1) 1 (LocalTime tza (anchor m)) ltac:(lia)
                ltac:(pose proof (daysInMonth_bounds year (m - 1)); lia) Hday)
      as (Hy' & Hm' & _).
    apply (getStatsByPeriod_month_count tza repo (anchor m) st' year m Hs Htz HY Hm
             Hy' Hm' Hst').
Qed.

End FreshResults.

(** ** The breakdown, key by key *)
Section Breakdown.
Import Sql KeystrokeRepository StatisticsService JSDate.

Lemma tally_bump (n name : string) (acc : list KeyStats) :
  tally n (bump name acc) = tally n acc + (if String.eqb name n then 1 else 0).
Proof.
  induction acc as [|s acc IH]; cbn [bump tally fold_right].
  - cbn [stat_keyName count]. destruct (String.eqb name n); lia.
  - destruct (String.eqb (stat_keyName s) name) eqn:E; cbn [tally fold_right stat_keyName count].
    + apply String.eqb_eq in E. rewrite E.
      fold (tally n acc). destruct (String.eqb name n); lia.
    + fold (tally n (bump name acc)) (tally n acc). rewrite IH.
      destruct (String.eqb (stat_keyName s) n); lia.
Qed.

Lemma tally_groupByKeyName (n : string) (rows : list Row) (acc : list KeyStats) :
  tally n (fold_left (fun acc r => bump (key_name r) acc) rows acc)
  = tally n acc
    + Z.of_nat (length (List.filter (fun r => String.eqb (key_name r) n) rows)).
Proof.
  revert acc. induction rows as [|r rows IH]; intros acc; cbn [fold_left List.filter].
  - cbn. lia.
  - rewrite IH, tally_bump. destruct (String.eqb (key_name r) n); cbn [length]; lia.
Qed.

Lemma names_bump (name : string) (acc : list KeyStats) :
  map stat_keyName (bump name acc)
  = if existsb (fun s => String.eqb (stat_keyName s) name) acc
    then map stat_keyName acc
    else map stat_keyName acc ++ [name].
Proof.
  induction acc as [|s acc IH]; cbn [bump existsb map app]; [reflexivity|].
  destruct (String.eqb (stat_keyName s) name) eqn:E; cbn [orb map stat_keyName].
  - apply String.eqb_eq in E. rewrite E. reflexivity.
  - rewrite IH. destruct (existsb _ acc); reflexivity.
Qed.

Lemma breakdown_invariant (rows : list Row) (acc : list KeyStats) :
  List.NoDup (map stat_keyName acc) ->
  List.Forall (fun s => 0 < count s) acc ->
  List.NoDup (map stat_keyName (fold_left (fun acc r => bump (key_name r) acc) rows acc)) /\
  List.Forall (fun s => 0 < count s) (fold_left (fun acc r => bump (key_name r) acc) rows acc).
Proof.
  revert acc. induction rows as [|r rows IH]; intros acc Hnd Hpos; cbn [fold_left].
  - split; assumption.
  - apply IH.
    + rewrite names_bump. destruct (existsb _ acc) eqn:E; [exact Hnd|].
      eapply Permutation_NoDup; [apply Permutation_cons_append|].
      constructor; [|exact Hnd].
      intros Hx. apply in_map_iff in Hx as [s [Hs Hin]].
      assert (E' : existsb (fun s => String.eqb (stat_keyName s) (key_name r)) acc = true).
      { apply existsb_exists. exists s. split; [exact Hin|]. apply String.eqb_eq. exact Hs. }
      rewrite E in E'. discriminate E'.
    + clear Hnd IH. induction Hpos as [|s acc Hs Hpos IHp]; cbn [bump].
      * constructor; [cbn; lia|constructor].
      * destruct (String.eqb (stat_keyName s) (key_name r)).
        -- constructor; [cbn [count]; lia|exact Hpos].
        -- constructor; [exact Hs|exact IHp].
Qed.

Lemma tally_absent (n : string) (stats : list KeyStats) :
  ~ In n (map stat_keyName stats) -> tally n stats = 0.
Proof.
  induction stats as [|s stats IH]; cbn [tally fold_right map]; [reflexivity|].
  intros H. destruct (String.eqb (stat_keyName s) n) eqn:E.
  - apply String.eqb_eq in E. exfalso. apply H. left. exact E.
  - apply IH. intros Hin. apply H. right. exact Hin.
Qed.

Lemma tally_present (s : KeyStats) (stats : list KeyStats) :
  List.NoDup (map stat_keyName stats) -> In s stats ->
  tally (stat_keyName s) stats = count s.
Proof.
  induction stats as [|x stats IH]; cbn [map]; intros Hnd Hin; [destruct Hin|].
  inversion Hnd as [|? ? Hx Hnd']; subst. cbn [tally fold_right]. fold (tally (stat_keyName s) stats).
  destruct Hin as [->|Hin].
  - rewrite String.eqb_refl, (tally_absent _ _ Hx). lia.
  - destruct (String.eqb (stat_keyName x) (stat_keyName s)) eqn:E.
    + apply String.eqb_eq in E. exfalso. apply Hx. rewrite E. apply in_map. exact Hin.
    + exact (IH Hnd' Hin).
Qed.

Lemma tally_positive (n : string) (stats : list KeyStats) :
  0 < tally n stats -> exists s, In s stats /\ stat_keyName s = n.
Proof.
  induction stats as [|x stats IH]; cbn [tally fold_right]; [lia|].
  fold (tally n stats). destruct (String.eqb (stat_keyName x) n) eqn:E.
  - intros _. exists x. split; [left; reflexivity|apply String.eqb_eq; exact E].
  - intros H. destruct (IH H) as [s [Hin Hs]]. exists s. split; [right; exact Hin|exact Hs].
Qed.

Lemma tally_Permutation (n : string) (l1 l2 : list KeyStats) :
  l1 ≡ₚ l2 -> tally n l1 = tally n l2.
Proof.
  induction 1 as [|x l1 l2 _ IH|x y l|l1 l2 l3 _ IH1 _ IH2]; cbn [tally fold_right].
  - reflexivity.
  - fold (tally n l1) (tally n l2). rewrite IH. reflexivity.
  - destruct (String.eqb (stat_keyName x) n), (String.eqb (stat_keyName y) n); lia.
  - congruence.
Qed.

Lemma filter_filter_and {A : Type} (p q : A -> bool) (l : list A) :
  List.filter q (List.filter p l) = List.filter (fun x => p x && q x) l.
Proof.
  induction l as [|x l IH]; cbn [List.filter]; [reflexivity|].
  destruct (p x); cbn [List.filter andb]; [|exact IH].
  destruct (q x); [f_equal|]; exact IH.
Qed.

(** Each key once, with the number of its rows. *)
Lemma selectStats_entries (cond : Row -> bool) (d : Database) :
  List.NoDup (map stat_keyName (selectStats cond d)) /\
  forall name c,
    In {| stat_keyName := name; count := c |} (selectStats cond d) <->
    0 < c /\
    c = Z.of_nat (length (List.filter (fun r => cond r && String.eqb (key_name r) name)
                            (keystrokes d))).
Proof.
  unfold selectStats, groupByKeyName.
  set (rows := List.filter cond (keystrokes d)).
  set (groups := fold_left (fun acc r => bump (key_name r) acc) rows []).
  destruct (breakdown_invariant rows [] ltac:(constructor) ltac:(constructor)) as [Hnd Hpos].
  fold groups in Hnd, Hpos.
  pose proof (merge_sort_Permutation count_ge groups) as Hperm.
  assert (Hnd' : List.NoDup (map stat_keyName (merge_sort count_ge groups))).
  { eapply Permutation_NoDup; [|exact Hnd]. apply Permutation_map. symmetry. exact Hperm. }
  assert (Htally : forall n,
            tally n (merge_sort count_ge groups)
            = Z.of_nat (length (List.filter (fun r => cond r && String.eqb (key_name r) n)
                                  (keystrokes d)))).
  { intros n. rewrite (tally_Permutation n _ _ Hperm). unfold groups.
    rewrite tally_groupByKeyName. cbn [tally fold_right]. unfold rows.
    rewrite Z.add_0_l, filter_filter_and. reflexivity. }
  split; [exact Hnd'|]. intros name c. split.
  - intros Hin. pose proof (tally_present _ _ Hnd' Hin) as Ht. cbn [stat_keyName count] in Ht.
    rewrite Htally in Ht. split; [|symmetry; exact Ht].
    apply list_elem_of_In in Hin. rewrite Hperm in Hin. apply list_elem_of_In in Hin.
    rewrite List.Forall_forall in Hpos. exact (Hpos _ Hin).
  - intros [Hc Hcount]. rewrite <- Htally in Hcount.
    assert (Hpos' : 0 < tally name (merge_sort count_ge groups)) by (rewrite <- Hcount; exact Hc).
    destruct (tally_positive name (merge_sort count_ge groups) Hpos') as [s [Hin Hs]].
    pose proof (tally_present _ _ Hnd' Hin) as Ht. rewrite Hs, <- Hcount in Ht.
    destruct s as [n0 c0]. cbn [stat_keyName count] in Hs, Ht. subst n0 c0. exact Hin.
Qed.

(** X21.  The breakdown of a day of a four-digit year, on an initialized
    store written by [save]: no key name occurs twice, and an entry
    [{keyName, count}] is in it exactly when [count] is positive and is the
    number of stored records with that key name on that UTC day. *)
Theorem day_breakdown_lists_each_key_once_with_its_count tza t repo :
  db repo = true ->
  storeDerived repo ->
  1000 <= YearFromTime t <= 9999 ->
  exists stats,
    getStatsByPeriod tza PerDay (Some t) repo = Ok stats /\
    List.NoDup (map stat_keyName stats) /\
    forall name c,
      In {| stat_keyName := name; count := c |} stats <->
      0 < c /\
      c = countRows (fun r => (Day (row_timestamp r) =? Day t)
                              && String.eqb (key_name r) name) repo.
Proof.
  intros Hdb Hs HY. unfold getStatsByPeriod. rewrite Hdb. cbn [negb JSString.toISODate option_map].
  eexists. split; [reflexivity|].
  destruct (selectStats_entries (dateIs (JSString.isoDateOfTime t)) (current repo))
    as [Hnd Hent].
  split; [exact Hnd|]. intros name c. rewrite Hent.
  assert (E : Z.of_nat (length (List.filter
                 (fun r => dateIs (JSString.isoDateOfTime t) r && String.eqb (key_name r) name)
                 (keystrokes (current repo))))
              = countRows (fun r => (Day (row_timestamp r) =? Day t)
                                    && String.eqb (key_name r) name) repo).
  { apply (countRows_ext _ _ repo Hs). intros r Hr. f_equal.
    destruct (fields_valid t) as (HM & HD & _).
    pose proof (daysInMonth_bounds (YearFromTime t) (MonthFromTime t)) as HL.
    rewrite isoDateOfTime_iso.
    rewrite (dateIs_day r (YearFromTime t) (MonthFromTime t + 1) (DateFromTime t) Hr HY
               ltac:(lia) ltac:(lia)).
    apply same_day_fields. }
  rewrite E. reflexivity.
Qed.

End Breakdown.

(** ** [getTopKeys] *)
Section TopKeys.
Import Sql KeystrokeRepository StatisticsService.

Lemma StronglySorted_app_between {A : Type} (R : relation A) (l1 l2 : list A) :
  StronglySorted R (l1 ++ l2) -> forall a b, In a l1 -> In b l2 -> R a b.
Proof.
  induction l1 as [|x l1 IH]; intros H a b Ha Hb; [destruct Ha|].
  cbn [app] in H. inversion H as [|? ? Hl Hx]; subst.
  destruct Ha as [<-|Ha].
  - rewrite List.Forall_forall in Hx. apply Hx. apply in_or_app. right. exact Hb.
  - exact (IH Hl a b Ha Hb).
Qed.

(** X22.  [getTopKeys] returns a prefix of the breakdown of the period:
    no key left out has a greater count than a key returned; for a
    non-negative [limit] the prefix has [limit] entries, or all of them
    when there are fewer; the cache is neither read nor written. *)
Theorem top_keys_are_the_most_pressed tza period date limit repo
    (s : StatisticsService.t) top s' :
  getTopKeys tza period date limit repo s = (Ok top, s') ->
  exists stats rest,
    getStatsByPeriod tza period date repo = Ok stats /\
    stats = top ++ rest /\
    (forall a b, In a top -> In b rest -> count b <= count a) /\
    (0 <= limit -> length top = Nat.min (Z.to_nat limit) (length stats)) /\
    cache s' = cache s.
Proof.
  unfold getTopKeys, query.
  destruct (getStatsByPeriod tza period date repo) as [stats|e] eqn:Q; [|discriminate].
  intros H. injection H as <- <-.
  assert (Hprefix : exists n, slice0 stats limit = firstn n stats /\
                              (0 <= limit -> n = Z.to_nat limit)).
  { unfold slice0. destruct (limit <? 0) eqn:L; eexists; (split; [reflexivity|]); lia. }
  destruct Hprefix as [n [-> Hn]].
  exists stats, (skipn n stats).
  split; [reflexivity|]. split; [symmetry; apply firstn_skipn|]. split; [|split].
  - apply (StronglySorted_app_between count_ge). rewrite firstn_skipn.
    apply Sorted_StronglySorted; [exact count_ge_trans|].
    exact (getStatsByPeriod_Sorted _ _ _ _ _ Q).
  - intros L. rewrite length_firstn, (Hn L). reflexivity.
  - reflexivity.
Qed.

End TopKeys.

(** ** KeystrokeBuffer: what holds between any two turns *)
Section BufferInvariants.
Import Sql KeystrokeRepository KeystrokeBuffer.

Lemma bufferOK_create (repo : KeystrokeRepository.t) : bufferOK (create repo).
Proof.
  unfold bufferOK, create; cbn. repeat split; try constructor; try discriminate.
  intros H. contradiction.
Qed.

Lemma bufferOK_flush (s : t) : bufferOK s -> bufferOK (flush s).
Proof.
  intros H. pose proof H as (H1 & H2 & H3 & H4). unfold flush.
  destruct (isFlushingInProgress s) eqn:F; [exact H|].
  destruct (buffer s) as [|k ks] eqn:B; [exact H|].
  unfold bufferOK; cbn [isFlushingInProgress pending saveCalls delays].
  split; [split; [discriminate|reflexivity]|].
  split; [intros ks' a E; injection E as <- <-; split; [discriminate|unfold maxRetries; lia]|].
  split; [|exact H4].
  apply Forall_app. split; [exact H3|]. constructor; [discriminate|constructor].
Qed.

Lemma bufferOK_add (k : Keystroke) (s : t) : bufferOK s -> bufferOK (add k s).
Proof.
  intros H. unfold add. apply bufferOK_flush. exact H.
Qed.

Lemma backoff_values (attempt : Z) :
  0 <= attempt -> (attempt <? maxRetries) = true ->
  In (retryDelay * 2 ^ attempt) [1000; 2000; 4000].
Proof.
  unfold maxRetries, retryDelay. intros H0 H3.
  assert (C : attempt = 0 \/ attempt = 1 \/ attempt = 2) by lia.
  destruct C as [->|[->| ->]]; cbn; tauto.
Qed.

Lemma bufferOK_settle io (s : t) : bufferOK s -> bufferOK (settle io s).
Proof.
  intros H. pose proof H as (H1 & H2 & H3 & H4). unfold settle.
  destruct (pending s) as [[ks a]|] eqn:P; [|exact H].
  destruct (H2 ks a eq_refl) as [Hks Ha].
  destruct (attempt_save io ks (repository s)) as [[[]|e] repo'].
  - unfold bufferOK; cbn [isFlushingInProgress pending saveCalls delays].
    split; [split; [discriminate|intros N; contradiction]|].
    split; [discriminate|]. split; assumption.
  - destruct (a <? maxRetries) eqn:A.
    + unfold bufferOK; cbn [isFlushingInProgress pending saveCalls delays].
      split; [split; [discriminate|reflexivity]|].
      split; [intros ks' a' E; injection E as <- <-; split; [exact Hks|lia]|].
      split.
      * apply Forall_app. split; [exact H3|]. constructor; [exact Hks|constructor].
      * apply Forall_app. split; [exact H4|]. constructor; [|constructor].
        apply backoff_values; [lia|exact A].
    + unfold bufferOK; cbn [isFlushingInProgress pending saveCalls delays].
      split; [split; [discriminate|intros N; contradiction]|].
      split; [discriminate|]. split; assumption.
Qed.

Lemma bufferOK_step (s : t) (e : Event) : bufferOK s -> bufferOK (step s e).
Proof.
  intros H. destruct e; cbn [step];
    [apply bufferOK_add|apply bufferOK_flush|apply bufferOK_settle]; exact H.
Qed.

Lemma bufferOK_run (events : list Event) (s : t) : bufferOK s -> bufferOK (run events s).
Proof.
  revert s. induction events as [|e events IH]; intros s H; [exact H|].
  cbn [run fold_left]. apply IH, bufferOK_step, H.
Qed.

(** X23.  Between any two turns of the event loop, whatever happened
    before: a flush is in progress exactly when a [repository.save] is
    pending; the pending batch is not empty and its attempt number is
    between 0 and [maxRetries]; no [save] was ever called with an empty
    batch; and every back-off waited was 1000, 2000 or 4000 ms. *)
Theorem at_most_one_write_is_in_flight (repo : KeystrokeRepository.t) (events : list Event) :
  let s := run events (create repo) in
  (isFlushingInProgress s = true <-> pending s <> None) /\
  (forall keystrokes attempt,
      pending s = Some (keystrokes, attempt) ->
      keystrokes <> [] /\ 0 <= attempt <= maxRetries) /\
  Forall (fun batch => batch <> []) (saveCalls s) /\
  Forall (fun delay => In delay [1000; 2000; 4000]) (delays s).
Proof. exact (bufferOK_run events (create repo) (bufferOK_create repo)). Qed.

(** *** Nothing is lost *)

Lemma idle_pending (s : t) : bufferOK s -> isFlushingInProgress s = false -> pending s = None.
Proof.
  intros [H1 _] F. destruct (pending s) as [p|] eqn:P; [|reflexivity].
  assert (E : isFlushingInProgress s = true) by (apply H1; discriminate).
  rewrite F in E. discriminate E.
Qed.

Lemma flush_keeps (s : t) :
  repository (flush s) = repository s /\ flushed (flush s) = flushed s.
Proof.
  unfold flush. destruct (isFlushingInProgress s); [split; reflexivity|].
  destruct (buffer s); split; reflexivity.
Qed.

Lemma queued_flush (s : t) : bufferOK s -> queued (flush s) = queued s.
Proof.
  intros H. unfold flush.
  destruct (isFlushingInProgress s) eqn:F; [reflexivity|].
  destruct (buffer s) as [|k ks] eqn:B; [reflexivity|].
  unfold queued, pendingBatch; cbn [pending buffer].
  rewrite (idle_pending s H F), B. cbn [map app]. rewrite app_nil_r. reflexivity.
Qed.

Lemma queued_add (k : Keystroke) (s : t) : bufferOK s -> queued (add k s) = queued s ++ [logical k].
Proof.
  intros H. unfold add. rewrite queued_flush by exact H.
  unfold queued, pendingBatch; cbn [pending buffer].
  rewrite map_app, !app_assoc. reflexivity.
Qed.

Lemma flushedTotal_snoc (l : list Z) (n : Z) :
  fold_right Z.add 0 (l ++ [n]) = fold_right Z.add 0 l + n.
Proof. induction l as [|x l IH]; cbn [app fold_right]; lia. Qed.

(** Records with the logical fields of records with valid timestamps. *)
Lemma validTime_logical (l1 l2 : list Keystroke) :
  (forall c, In c (map logical l2) -> In c (map logical l1)) ->
  Forall validTime l1 -> Forall validTime l2.
Proof.
  intros Hin Hv. apply List.Forall_forall. intros k Hk.
  specialize (Hin (logical k) (in_map logical _ _ Hk)).
  apply in_map_iff in Hin as [k1 [E Hk1]].
  rewrite List.Forall_forall in Hv. specialize (Hv k1 Hk1).
  unfold validTime in *. unfold logical in E. injection E as _ _ E. rewrite <- E. exact Hv.
Qed.

Lemma writtenRecords_none (written : list bool) (ks : list Keystroke) :
  existsb (fun b => b) written = false -> writtenRecords written ks = [].
Proof.
  revert written. induction ks as [|k ks IH]; intros written H; cbn [writtenRecords];
    [reflexivity|].
  destruct (JSString.toISODate (JSDate.ofTime (timestamp k))); [|reflexivity].
  destruct (JSDate.getUTCHours (JSDate.ofTime (timestamp k))); [|reflexivity].
  destruct written as [|b written]; cbn [hd tl app].
  - apply IH. reflexivity.
  - cbn [existsb] in H. apply orb_false_elim in H as [-> H]. apply IH, H.
Qed.

(** A resolved attempt has written the batch, once. *)
Lemma attempt_save_resolved_rows io ks (repo repo' : KeystrokeRepository.t) :
  ks <> [] ->
  attempt_save io ks repo = (Ok tt, repo') ->
  exists rows,
    keystrokes (current repo') = keystrokes (current repo) ++ rows /\
    map rowLogical rows = map logical ks.
Proof.
  intros Hks E. destruct io as [written|]; cbn [attempt_save] in E.
  - destruct (saveWithError_rows written ks repo) as (_ & [e He] & _); [exact Hks|].
    rewrite E in He. discriminate He.
  - destruct (save_rows ks repo repo' E) as (rows & Hk & Hl & _). exists rows. auto.
Qed.

(** A rejected attempt that leaves no row. *)
Lemma attempt_save_clean io ks (repo repo' : KeystrokeRepository.t) (e : Error) :
  cleanFailure (SaveSettles io) = true ->
  Forall validTime ks ->
  attempt_save io ks repo = (Err e, repo') ->
  keystrokes (current repo') = keystrokes (current repo).
Proof.
  intros Hc Hv E.
  destruct (attempt_save_writes io ks repo) as (_ & rows & Hk & Hl & _).
  rewrite E in Hk. cbn [snd] in Hk.
  assert (Hnone : leftBehind io ks repo = []).
  { unfold leftBehind. destruct (db repo) eqn:Hdb; [|reflexivity]. cbn [negb].
    destruct io as [written|].
    - cbn [cleanFailure] in Hc. apply negb_true_iff in Hc.
      apply writtenRecords_none, Hc.
    - cbn [attempt_save] in E.
      destruct (save_valid ks repo Hdb Hv) as (r' & rows' & Hs & _).
      rewrite Hs in E. discriminate E. }
  rewrite Hnone in Hl. cbn [map] in Hl. apply map_eq_nil in Hl. subst rows.
  rewrite app_nil_r in Hk. exact Hk.
Qed.

Lemma accounted_create (repo : KeystrokeRepository.t) : accounted repo [] (create repo) [] [].
Proof.
  unfold accounted, queued, pendingBatch, flushedTotal; cbn.
  rewrite app_nil_r. repeat split; try constructor.
Qed.

Lemma accounted_quiet repo events (s s' : t) (e : Event) (new : list Keystroke) written rows :
  added [e] = new ->
  cleanFailure e = true ->
  queued s' = queued s ++ map logical new ->
  repository s' = repository s ->
  flushed s' = flushed s ->
  accounted repo events s written rows ->
  accounted repo (events ++ [e]) s' written rows.
Proof.
  intros Hnew Hce Hq Hr Hf (A & B & C & D & E). unfold accounted.
  rewrite added_app, Hnew, map_app, A, Hq, Hr. unfold flushedTotal. rewrite Hf.
  split; [rewrite app_assoc; reflexivity|]. split; [exact B|]. split; [exact C|].
  split; [exact D|].
  intros Hc Hv. rewrite forallb_app in Hc. apply andb_prop in Hc as [Hc _].
  apply Forall_app in Hv as [Hv _]. exact (E Hc Hv).
Qed.

Lemma accounted_step repo events (s : t) (e : Event) written rows :
  bufferOK s ->
  accounted repo events s written rows ->
  exists written' rows', accounted repo (events ++ [e]) (step s e) written' rows'.
Proof.
  intros Hok Hacc. destruct e as [k| |io]; cbn [step].
  - exists written, rows. apply (accounted_quiet repo events s _ _ [k]); try reflexivity.
    + apply queued_add, Hok.
    + unfold add. rewrite (proj1 (flush_keeps _)). reflexivity.
    + unfold add. rewrite (proj2 (flush_keeps _)). reflexivity.
    + exact Hacc.
  - exists written, rows. apply (accounted_quiet repo events s _ _ []); try reflexivity.
    + cbn [map]. rewrite app_nil_r. apply queued_flush, Hok.
    + apply (proj1 (flush_keeps s)).
    + apply (proj2 (flush_keeps s)).
    + exact Hacc.
  - destruct Hacc as (A & B & C & D & E).
    assert (Hadd : added (events ++ [SaveSettles io]) = added events).
    { rewrite added_app. cbn. apply app_nil_r. }
    assert (Hsplit : forall P : Prop,
               (forallb cleanFailure events = true -> Forall validTime (added events) -> P) ->
               forallb cleanFailure (events ++ [SaveSettles io]) = true ->
               Forall validTime (added events) ->
               cleanFailure (SaveSettles io) = true /\ Forall validTime (added events) /\ P).
    { intros P HP Hc Hv. rewrite forallb_app in Hc. apply andb_prop in Hc as [Hc Hc'].
      cbn [forallb] in Hc'. rewrite andb_true_r in Hc'. auto. }
    unfold settle. destruct (pending s) as [[ks a]|] eqn:P.
    2:{ exists written, rows. unfold accounted. rewrite Hadd.
        split; [exact A|]. split; [exact B|]. split; [exact C|]. split; [exact D|].
        intros Hc Hv. exact (proj2 (proj2 (Hsplit _ E Hc Hv))). }
    destruct Hok as (_ & H2 & _). destruct (H2 ks a P) as [Hks _].
    assert (Hq : queued s = map logical ks ++ map logical (buffer s)).
    { unfold queued, pendingBatch. rewrite P. reflexivity. }
    destruct (attempt_save io ks (repository s)) as [[[]|err] repo'] eqn:Es.
    + destruct (attempt_save_resolved_rows io ks _ _ Hks Es) as (new & Hk & Hl).
      exists (written ++ map logical ks), (rows ++ new).
      unfold accounted, queued, pendingBatch, flushedTotal;
        cbn [pending buffer repository flushed map app].
      rewrite Hadd, A, Hq, Hk, B, map_app, Hl, flushedTotal_snoc, length_app, length_map.
      rewrite <- !app_assoc.
      split; [reflexivity|]. split; [reflexivity|].
      split; [apply sublist_app; [exact C|reflexivity]|].
      split; [unfold flushedTotal in D; lia|].
      intros Hc Hv. destruct (Hsplit _ E Hc Hv) as (_ & _ & ->). reflexivity.
    + destruct (attempt_save_writes io ks (repository s)) as (_ & new & Hk & _).
      rewrite Es in Hk. cbn [snd] in Hk.
      assert (Hclean : forallb cleanFailure (events ++ [SaveSettles io]) = true ->
                       Forall validTime (added events) ->
                       map rowLogical (rows ++ new) = written).
      { intros Hc Hv. destruct (Hsplit _ E Hc Hv) as (Hce & Hva & Hrows).
        assert (Hvk : Forall validTime ks).
        { apply (validTime_logical (added events)); [|exact Hva].
          intros c Hc'. rewrite A, Hq. apply in_or_app. right. apply in_or_app. left. exact Hc'. }
        pose proof (attempt_save_clean io ks _ _ err Hce Hvk Es) as Hsame.
        rewrite Hsame in Hk. rewrite <- (app_nil_r (keystrokes (current (repository s)))) in Hk at 1.
        apply app_inv_head in Hk. subst new. rewrite app_nil_r. exact Hrows. }
      exists written, (rows ++ new). destruct (a <? maxRetries);
        unfold accounted, queued, pendingBatch, flushedTotal;
        cbn [pending buffer repository flushed map app];
        rewrite Hadd, A, Hq, Hk, B, ?map_app, <- ?app_assoc;
        (split; [reflexivity|]); (split; [reflexivity|]);
        (split; [apply sublist_inserts_r, C|]);
        (split; [exact D|]); rewrite <- map_app; exact Hclean.
Qed.

Lemma run_snoc (events : list Event) (e : Event) (s : t) :
  run (events ++ [e]) s = step (run events s) e.
Proof. unfold run. rewrite fold_left_app. reflexivity. Qed.

Lemma accounted_run (repo : KeystrokeRepository.t) (events : list Event) :
  exists written rows, accounted repo events (run events (create repo)) written rows.
Proof.
  induction events as [|e events IH] using rev_ind.
  - exists [], []. apply accounted_create.
  - destruct IH as (written & rows & H). rewrite run_snoc.
    apply (accounted_step repo events _ e written rows); [|exact H].
    apply bufferOK_run, bufferOK_create.
Qed.

(** X24.  No key is lost or reordered, whatever fails: after any sequence
    of adds, flushes and settled writes, the keys added are, in the order
    they were added, those of the resolved writes, then the batch being
    written, then the queue; each key of a resolved write has its row in
    the store, these rows in the same order.  Rows that rejected writes
    left stay in the store besides; when every record had a valid
    timestamp and no rejected write left a row, the store has gained the
    keys of the resolved writes and nothing else, each once. *)
Theorem buffer_loses_no_key_and_writes_them_in_order
    (repo : KeystrokeRepository.t) (events : list Event) :
  let s := run events (create repo) in
  exists written rows,
    map logical (added events)
      = written ++ map logical (pendingBatch s) ++ map logical (buffer s) /\
    keystrokes (current (repository s)) = keystrokes (current repo) ++ rows /\
    sublist written (map rowLogical rows) /\
    (forallb cleanFailure events = true -> Forall validTime (added events) ->
     map rowLogical rows = written).
Proof.
  intros s. destruct (accounted_run repo events) as (written & rows & A & B & C & _ & E).
  exists written, rows. auto.
Qed.

(** *** The ['flushed'] events *)

Lemma flushed_positive_step (s : t) (e : Event) :
  bufferOK s -> Forall (fun n => 0 < n) (flushed s) ->
  Forall (fun n => 0 < n) (flushed (step s e)).
Proof.
  intros H Hp. destruct e as [k| |io]; cbn [step].
  - unfold add, flush; cbn [isFlushingInProgress buffer].
    destruct (isFlushingInProgress s); [exact Hp|].
    destruct (buffer s ++ [k]); exact Hp.
  - unfold flush. destruct (isFlushingInProgress s); [exact Hp|].
    destruct (buffer s); exact Hp.
  - unfold settle. destruct (pending s) as [[ks a]|] eqn:P; [|exact Hp].
    destruct H as (_ & H2 & _). destruct (H2 ks a P) as [Hks _].
    destruct (attempt_save io ks (repository s)) as [[[]|e] repo'].
    + cbn [flushed]. apply Forall_app. split; [exact Hp|].
      constructor; [|constructor]. destruct ks; [contradiction|cbn [length]; lia].
    + destruct (a <? maxRetries); exact Hp.
Qed.

Lemma flushed_positive_run (events : list Event) (s : t) :
  bufferOK s -> Forall (fun n => 0 < n) (flushed s) ->
  Forall (fun n => 0 < n) (flushed (run events s)).
Proof.
  revert s. induction events as [|e events IH]; intros s H Hp; [exact Hp|].
  cbn [run fold_left]. apply IH; [apply bufferOK_step, H|apply flushed_positive_step; assumption].
Qed.

(** X25.  Each ['flushed'] event carries a positive number, and the
    numbers add up to the keys that have left the buffer: with the batch
    being written and the queue they make the keys added.  The store has
    gained at least that many rows, and exactly that many when every
    record had a valid timestamp and no rejected write left a row. *)
Theorem flushed_events_count_the_keys_written
    (repo : KeystrokeRepository.t) (events : list Event) :
  let s := run events (create repo) in
  Forall (fun n => 0 < n) (flushed s) /\
  flushedTotal s + Z.of_nat (length (pendingBatch s)) + Z.of_nat (length (buffer s))
    = Z.of_nat (length (added events)) /\
  Z.of_nat (length (keystrokes (current repo))) + flushedTotal s
    <= Z.of_nat (length (keystrokes (current (repository s)))) /\
  (forallb cleanFailure events = true -> Forall validTime (added events) ->
   Z.of_nat (length (keystrokes (current (repository s))))
   = Z.of_nat (length (keystrokes (current repo))) + flushedTotal s).
Proof.
  intros s. destruct (accounted_run repo events) as (written & rows & A & B & C & D & E).
  fold s in A, B, D.
  split; [apply flushed_positive_run; [apply bufferOK_create|constructor]|].
  split; [|split].
  - apply (f_equal (@length _)) in A. unfold queued in A.
    rewrite !length_app, !length_map in A. lia.
  - apply sublist_length in C. rewrite length_map in C.
    rewrite B, length_app. lia.
  - intros Hc Hv. specialize (E Hc Hv). apply (f_equal (@length _)) in E.
    rewrite length_map in E. rewrite B, length_app. lia.
Qed.

End BufferInvariants.

(** ** KeystrokeBuffer: [stop] *)
Section Stopping.
Import Sql KeystrokeRepository KeystrokeBuffer.

(** X26.  [stop()] clears the timer and does nothing else when a flush is
    in progress or the queue is empty.  On an idle buffer with a non-empty
    queue it starts the last flush, whose [resetFlushTimer()] sets a new
    timer; when that write settles on an initialized store, the queue is
    empty, its records are rows of the store, and one ['flushed'] event
    carries their number. *)
Theorem stop_flushes_an_idle_buffer_and_rearms_the_timer (s : timed) :
  (isFlushingInProgress (core s) = true \/ buffer (core s) = [] ->
     stop s = {| core := core s; flushTimer := false |}) /\
  (isFlushingInProgress (core s) = false ->
   buffer (core s) <> [] ->
   db (repository (core s)) = true ->
   Forall validTime (buffer (core s)) ->
   flushTimer (stop s) = true /\
   saveCalls (core (stop s)) = saveCalls (core s) ++ [buffer (core s)] /\
   let s' := settle None (core (stop s)) in
   buffer s' = [] /\
   pending s' = None /\
   isFlushingInProgress s' = false /\
   flushed s' = flushed (core s) ++ [Z.of_nat (length (buffer (core s)))] /\
   exists rows,
     keystrokes (current (repository s'))
       = keystrokes (current (repository (core s))) ++ rows /\
     map rowLogical rows = map logical (buffer (core s))).
Proof.
  split.
  - intros [F|B]; unfold stop, flushTimed; cbn [core].
    + rewrite F. reflexivity.
    + destruct (isFlushingInProgress (core s)); [reflexivity|]. rewrite B. reflexivity.
  - intros F B Hdb Hv. unfold stop, flushTimed, flush; cbn [core]. rewrite F.
    destruct (buffer (core s)) as [|k ks] eqn:E; [contradiction|].
    cbn [flushTimer core saveCalls]. split; [reflexivity|]. split; [reflexivity|].
    cbv zeta. unfold settle; cbn [pending repository]. unfold attempt_save.
    destruct (save_valid (k :: ks) (repository (core s)) Hdb Hv)
      as [r' [rows [Hs [_ [R1 [R2 _]]]]]].
    rewrite Hs. cbn [buffer pending isFlushingInProgress flushed repository].
    repeat (split; [reflexivity|]). exists rows. split; [exact R1|exact R2].
Qed.

End Stopping.

(** ** Cache keys *)
Section CacheKeys.
Import StatisticsService.

Lemma colonFree_uint (u : Decimal.uint) : colonFree (NilEmpty.string_of_uint u) = true.
Proof. induction u; cbn [NilEmpty.string_of_uint colonFree]; try rewrite IHu; reflexivity. Qed.

Lemma colonFree_decimal (n : Z) : colonFree (JSString.decimal n) = true.
Proof.
  unfold JSString.decimal, NilZero.string_of_int, NilZero.string_of_uint.
  destruct (Z.to_int n) as [u|u].
  - destruct u; try reflexivity; apply colonFree_uint.
  - cbn [colonFree]. destruct u; try reflexivity; apply colonFree_uint.
Qed.

Lemma colon_split (a1 a2 b1 b2 : string) :
  colonFree a1 = true -> colonFree a2 = true ->
  a1 +:+ ":" +:+ b1 = a2 +:+ ":" +:+ b2 -> a1 = a2 /\ b1 = b2.
Proof.
  revert a2. induction a1 as [|c a1 IH]; intros [|d a2] H1 H2 H; cbn in H1, H2, H.
  - injection H as H. auto.
  - injection H as Hc _. subst d. cbn in H2. discriminate H2.
  - injection H as Hc _. subst c. cbn in H1. discriminate H1.
  - injection H as -> H. apply andb_prop in H1 as [_ H1]. apply andb_prop in H2 as [_ H2].
    destruct (IH a2 H1 H2 H) as [-> ->]. auto.
Qed.

Lemma decimal_not_NaN (n : Z) : JSString.decimal n <> "NaN"%string.
Proof.
  intros E. destruct (to_int_normal n) as [H1 H2].
  pose proof (NilZero.isi _ H1 H2) as I. unfold JSString.decimal in E. rewrite E in I.
  discriminate I.
Qed.

Lemma numToString_inj (x y : JSDate.Num) :
  JSString.numToString x = JSString.numToString y -> x = y.
Proof.
  destruct x as [a|], y as [b|]; cbn [JSString.numToString]; intros H.
  - f_equal. exact (decimal_inj _ _ H).
  - exfalso. exact (decimal_not_NaN _ H).
  - exfalso. symmetry in H. exact (decimal_not_NaN _ H).
  - reflexivity.
Qed.

Lemma dailyKey_inj (x y : JSDate.Num) :
  getCacheKey "daily" [x] = getCacheKey "daily" [y] -> x = y.
Proof.
  unfold getCacheKey. cbn [map String.concat]. intros H.
  apply (append_inv_head "daily") in H. apply (append_inv_head ":") in H.
  exact (numToString_inj _ _ H).
Qed.

Lemma monthlyKey_inj (y1 m1 y2 m2 : Z) :
  getCacheKey "monthly" [Some y1; Some m1] = getCacheKey "monthly" [Some y2; Some m2] ->
  y1 = y2 /\ m1 = m2.
Proof.
  unfold getCacheKey. cbn [map String.concat JSString.numToString]. intros H.
  apply (append_inv_head "monthly") in H. apply (append_inv_head ":") in H.
  apply colon_split in H as [Hy Hm]; try apply colonFree_decimal.
  split; apply decimal_inj; assumption.
Qed.

Lemma yearlyKey_inj (y1 y2 : Z) :
  getCacheKey "yearly" [Some y1] = getCacheKey "yearly" [Some y2] -> y1 = y2.
Proof.
  unfold getCacheKey. cbn [map String.concat JSString.numToString]. intros H.
  apply (append_inv_head "yearly") in H. apply (append_inv_head ":") in H.
  exact (decimal_inj _ _ H).
Qed.

Lemma key_kinds (x : JSDate.Num) (ps qs : list JSDate.Num) :
  getCacheKey "daily" ps <> getCacheKey "monthly" qs /\
  getCacheKey "daily" ps <> getCacheKey "yearly" qs /\
  getCacheKey "monthly" ps <> getCacheKey "yearly" qs.
Proof. unfold getCacheKey. cbn [append]. repeat split; discriminate. Qed.

End CacheKeys.

(** ** StatisticsService: the cache on a store that does not change *)
Section Freshness.
Import Sql KeystrokeRepository StatisticsService.

Lemma getFromCache_entries now key s k e :
  cache (snd (getFromCache now key s)) !! k = Some e -> cache s !! k = Some e.
Proof.
  unfold getFromCache. destruct (cache s !! key) as [e0|]; [|exact (fun H => H)].
  destruct (expiresAt e0 <? now); [|exact (fun H => H)].
  cbn [snd cache]. intros H. apply lookup_delete_Some in H. tauto.
Qed.

Lemma getFromCache_hit now key s v :
  fst (getFromCache now key s) = Some v ->
  exists e, cache s !! key = Some e /\ data e = v.
Proof.
  unfold getFromCache. destruct (cache s !! key) as [e|]; [|discriminate].
  destruct (expiresAt e <? now); [discriminate|]. cbn [fst]. intros H. injection H as <-.
  exists e. auto.
Qed.

(** *** Computed results depend neither on the time nor on the state *)

Lemma fresh_daily_key tza now now' d1 d2 repo :
  dailyKey d1 = dailyKey d2 ->
  fst (getDailyStats tza now d1 repo create) = fst (getDailyStats tza now' d2 repo create).
Proof.
  intros H. apply dailyKey_inj in H. unfold JSDate.getTime in H.
  unfold getDailyStats. fold (normalizedDate d1) (normalizedDate d2). rewrite H.
  set (cacheKey := getCacheKey _ _).
  unfold getFromCache. cbn [cache create]. rewrite lookup_empty.
  unfold query. destruct (getStatsByPeriod tza PerDay (normalizedDate d2) repo); reflexivity.
Qed.

Lemma fresh_monthly_now tza now now' year month repo :
  fst (getMonthlyStats tza now year month repo create)
  = fst (getMonthlyStats tza now' year month repo create).
Proof.
  unfold getMonthlyStats. destruct ((month <? 1) || (month >? 12)); [reflexivity|].
  set (cacheKey := getCacheKey _ _).
  unfold getFromCache. cbn [cache create]. rewrite lookup_empty.
  destruct (query tza PerMonth _ repo create) as [[kb|e] s2]; [|reflexivity].
  destruct (getDailyTrendForMonth tza year month repo s2) as [[trend|e] s3]; reflexivity.
Qed.

Lemma fresh_yearly_now tza now now' year repo :
  fst (getYearlyStats tza now year repo create)
  = fst (getYearlyStats tza now' year repo create).
Proof.
  unfold getYearlyStats.
  set (cacheKey := getCacheKey _ _).
  unfold getFromCache. cbn [cache create]. rewrite lookup_empty.
  destruct (query tza PerYear _ repo create) as [[kb|e] s2]; [|reflexivity].
  destruct (getMonthlyTrendForYear tza year repo s2) as [[trend|e] s3]; reflexivity.
Qed.

(** *** The entries a call leaves in the cache *)

Lemma getDailyStats_entries tza now date repo s k e :
  cache (snd (getDailyStats tza now date repo s)) !! k = Some e ->
  cache s !! k = Some e \/
  (k = dailyKey date /\
   exists v, data e = DailyData v /\ fst (getDailyStats tza now date repo create) = Ok v).
Proof.
  pose proof (getDailyStats_miss tza now date repo s _ eq_refl) as Hm. revert Hm.
  unfold getDailyStats at 1 3. fold (normalizedDate date). fold (dailyKey date).
  pose proof (getFromCache_entries now (dailyKey date) s k e) as Hold. revert Hold.
  destruct (getFromCache now (dailyKey date) s) as [[[c|c|c]|] s0]; cbn [fst snd];
    intros Hold Hm; try (intros H; left; exact (Hold H)).
  specialize (Hm eq_refl). revert Hm. unfold query.
  destruct (getStatsByPeriod tza PerDay (normalizedDate date) repo) as [kb|e0]; cbn [fst snd];
    intros Hm; [|intros H; left; exact (Hold H)].
  unfold setCache; cbn [cache]. intros H.
  apply lookup_insert_Some in H as [[<- <-]|[_ H]]; [|left; exact (Hold H)].
  right. split; [reflexivity|]. eexists. split; [reflexivity|]. symmetry. exact Hm.
Qed.

Lemma getMonthlyStats_entries tza now year month repo s k e :
  cache (snd (getMonthlyStats tza now year month repo s)) !! k = Some e ->
  cache s !! k = Some e \/
  (k = monthlyKey year month /\
   exists v, data e = MonthlyData v /\
             fst (getMonthlyStats tza now year month repo create) = Ok v).
Proof.
  pose proof (getMonthlyStats_miss tza now year month repo s) as Hm. revert Hm.
  unfold getMonthlyStats at 1 3. fold (monthlyKey year month).
  destruct ((month <? 1) || (month >? 12)); [intros _ H; left; exact H|].
  pose proof (getFromCache_entries now (monthlyKey year month) s k e) as Hold. revert Hold.
  destruct (getFromCache now (monthlyKey year month) s) as [[[c|c|c]|] s0]; cbn [fst snd];
    intros Hold Hm; try (intros H; left; exact (Hold H)).
  specialize (Hm eq_refl). revert Hm. unfold query.
  destruct (getStatsByPeriod tza PerMonth _ repo) as [kb|e0]; cbn [fst snd];
    [|intros _ H; left; exact (Hold H)].
  unfold getDailyTrendForMonth.
  match goal with
  | |- context [dailyTrendLoop ?a ?b ?c ?d ?f ?g ?h] =>
      pose proof (dailyTrendLoop_cache a b c d f g h) as Hc; revert Hc;
      destruct (dailyTrendLoop a b c d f g h) as [[trend|e1] s3]
  end; cbn [fst snd cache]; intros Hc Hm.
  - unfold setCache; cbn [cache]. intros H.
    apply lookup_insert_Some in H as [[<- <-]|[_ H]].
    + right. split; [reflexivity|]. eexists. split; [reflexivity|]. symmetry. exact Hm.
    + left. rewrite Hc in H. exact (Hold H).
  - intros H. left. rewrite Hc in H. exact (Hold H).
Qed.

Lemma getYearlyStats_entries tza now year repo s k e :
  cache (snd (getYearlyStats tza now year repo s)) !! k = Some e ->
  cache s !! k = Some e \/
  (k = yearlyKey year /\
   exists v, data e = YearlyData v /\
             fst (getYearlyStats tza now year repo create) = Ok v).
Proof.
  pose proof (getYearlyStats_miss tza now year repo s) as Hm. revert Hm.
  unfold getYearlyStats at 1 3. fold (yearlyKey year).
  pose proof (getFromCache_entries now (yearlyKey year) s k e) as Hold. revert Hold.
  destruct (getFromCache now (yearlyKey year) s) as [[[c|c|c]|] s0]; cbn [fst snd];
    intros Hold Hm; try (intros H; left; exact (Hold H)).
  specialize (Hm eq_refl). revert Hm. unfold query.
  destruct (getStatsByPeriod tza PerYear _ repo) as [kb|e0]; cbn [fst snd];
    [|intros _ H; left; exact (Hold H)].
  unfold getMonthlyTrendForYear.
  match goal with
  | |- context [monthlyTrendLoop ?a ?b ?c ?d ?f ?g] =>
      pose proof (monthlyTrendLoop_cache a b c d f g) as Hc; revert Hc;
      destruct (monthlyTrendLoop a b c d f g) as [[trend|e1] s3]
  end; cbn [fst snd cache]; intros Hc Hm.
  - unfold setCache; cbn [cache]. intros H.
    apply lookup_insert_Some in H as [[<- <-]|[_ H]].
    + right. split; [reflexivity|]. eexists. split; [reflexivity|]. symmetry. exact Hm.
    + left. rewrite Hc in H. exact (Hold H).
  - intros H. left. rewrite Hc in H. exact (Hold H).
Qed.

(** *** Calls keep the cache fresh *)

Lemma cacheFresh_getDailyStats tza now date repo s :
  cacheFresh tza repo s -> cacheFresh tza repo (snd (getDailyStats tza now date repo s)).
Proof.
  intros Hs k e H. apply getDailyStats_entries in H as [H|[-> [v [Hv Hf]]]]; [exact (Hs k e H)|].
  unfold entryFresh. rewrite Hv. intros now' date' Hk.
  rewrite (fresh_daily_key tza now' now date' date repo Hk). exact Hf.
Qed.

Lemma cacheFresh_getMonthlyStats tza now year month repo s :
  cacheFresh tza repo s -> cacheFresh tza repo (snd (getMonthlyStats tza now year month repo s)).
Proof.
  intros Hs k e H.
  apply getMonthlyStats_entries in H as [H|[-> [v [Hv Hf]]]]; [exact (Hs k e H)|].
  unfold entryFresh. rewrite Hv. intros now' year' month' Hk.
  apply monthlyKey_inj in Hk as [-> ->].
  rewrite (fresh_monthly_now tza now' now). exact Hf.
Qed.

Lemma cacheFresh_getYearlyStats tza now year repo s :
  cacheFresh tza repo s -> cacheFresh tza repo (snd (getYearlyStats tza now year repo s)).
Proof.
  intros Hs k e H.
  apply getYearlyStats_entries in H as [H|[-> [v [Hv Hf]]]]; [exact (Hs k e H)|].
  unfold entryFresh. rewrite Hv. intros now' year' Hk.
  apply yearlyKey_inj in Hk as ->.
  rewrite (fresh_yearly_now tza now' now). exact Hf.
Qed.

Lemma cacheFresh_clearCache tza repo s : cacheFresh tza repo (clearCache s).
Proof. intros k e H. cbn [clearCache cache] in H. rewrite lookup_empty in H. discriminate H. Qed.

(** *** What a fresh cache answers *)

Lemma fresh_answers tza repo s :
  cacheFresh tza repo s -> shapesOK s ->
  (forall now date,
      fst (getDailyStats tza now date repo s) = fst (getDailyStats tza now date repo create)) /\
  (forall now year month,
      fst (getMonthlyStats tza now year month repo s)
      = fst (getMonthlyStats tza now year month repo create)) /\
  (forall now year,
      fst (getYearlyStats tza now year repo s) = fst (getYearlyStats tza now year repo create)).
Proof.
  intros Hf Hs. split; [|split].
  - intros now date.
    destruct (fst (getFromCache now (dailyKey date) s)) as [v|] eqn:G;
      [|exact (getDailyStats_miss tza now date repo s _ eq_refl G)].
    destruct (getFromCache_hit _ _ _ _ G) as [e [He Hv]].
    pose proof (Hf _ _ He) as Hfresh. pose proof (Hs _ _ He) as Hshape.
    unfold entryFresh in Hfresh. rewrite Hv in Hfresh, Hshape.
    unfold getDailyStats at 1. fold (normalizedDate date). fold (dailyKey date).
    destruct (getFromCache now (dailyKey date) s) as [o s0]. cbn [fst] in G. subst o.
    destruct v as [c|c|c]; try discriminate Hshape.
    cbn [fst]. symmetry. exact (Hfresh now date eq_refl).
  - intros now year month.
    destruct ((month <? 1) || (month >? 12)) eqn:V.
    { unfold getMonthlyStats. rewrite V. reflexivity. }
    destruct (fst (getFromCache now (monthlyKey year month) s)) as [v|] eqn:G;
      [|exact (getMonthlyStats_miss tza now year month repo s G)].
    destruct (getFromCache_hit _ _ _ _ G) as [e [He Hv]].
    pose proof (Hf _ _ He) as Hfresh. pose proof (Hs _ _ He) as Hshape.
    unfold entryFresh in Hfresh. rewrite Hv in Hfresh, Hshape.
    unfold getMonthlyStats at 1. rewrite V. fold (monthlyKey year month).
    destruct (getFromCache now (monthlyKey year month) s) as [o s0]. cbn [fst] in G. subst o.
    destruct v as [c|c|c]; try discriminate Hshape.
    cbn [fst]. symmetry. exact (Hfresh now year month eq_refl).
  - intros now year.
    destruct (fst (getFromCache now (yearlyKey year) s)) as [v|] eqn:G;
      [|exact (getYearlyStats_miss tza now year repo s G)].
    destruct (getFromCache_hit _ _ _ _ G) as [e [He Hv]].
    pose proof (Hf _ _ He) as Hfresh. pose proof (Hs _ _ He) as Hshape.
    unfold entryFresh in Hfresh. rewrite Hv in Hfresh, Hshape.
    unfold getYearlyStats at 1. fold (yearlyKey year).
    destruct (getFromCache now (yearlyKey year) s) as [o s0]. cbn [fst] in G. subst o.
    destruct v as [c|c|c]; try discriminate Hshape.
    cbn [fst]. symmetry. exact (Hfresh now year eq_refl).
Qed.

(** *** Calls on a store that does not change *)

Lemma sameStore_fresh tza repo s :
  reachableWith (sameStore tza repo) s -> cacheFresh tza repo s.
Proof.
  induction 1 as [|s _ IH|tza' now date repo' s [-> ->] _ IH
                  |tza' now year month repo' s [-> ->] _ IH
                  |tza' now year repo' s [-> ->] _ IH
                  |tza' period date limit repo' s _ IH].
  - intros k e H. cbn in H. rewrite lookup_empty in H. discriminate H.
  - apply cacheFresh_clearCache.
  - apply cacheFresh_getDailyStats, IH.
  - apply cacheFresh_getMonthlyStats, IH.
  - apply cacheFresh_getYearlyStats, IH.
  - intros k e H. apply (IH k e). revert H. unfold getTopKeys, query.
    destruct (getStatsByPeriod tza' period date repo'); exact (fun H => H).
Qed.

(** X27.  The cache is transparent as long as the store is not written:
    after any sequence of statistics calls and cache clearings made on one
    machine and on one store, which no one has written meanwhile, each of
    the three methods answers on that store what a service with an empty
    cache answers, at any time: entries of different kinds, days, months
    or years never stand in for one another. *)
Theorem cached_statistics_equal_recomputation_on_an_unchanged_store
    (tza : Z) (repo : KeystrokeRepository.t) (s : StatisticsService.t) :
  reachableWith (sameStore tza repo) s ->
  (forall now date,
      fst (getDailyStats tza now date repo s)
      = fst (getDailyStats tza now date repo create)) /\
  (forall now year month,
      fst (getMonthlyStats tza now year month repo s)
      = fst (getMonthlyStats tza now year month repo create)) /\
  (forall now year,
      fst (getYearlyStats tza now year repo s)
      = fst (getYearlyStats tza now year repo create)).
Proof.
  intros H. apply fresh_answers.
  - apply sameStore_fresh, H.
  - exact (reachable_shapesOK _ s H).
Qed.

End Freshness.

(** ** KeyboardListener *)
Section Listener.
Import KeyboardListener.

Lemma farEnough_spec now keycode out :
  farEnough now keycode out = true <->
  forall e, In e out -> event_keyCode e = keycode ->
            MIN_EVENT_INTERVAL <= now - event_timestamp e.
Proof.
  unfold farEnough. rewrite forallb_forall. split; intros H e He.
  - intros Hc. specialize (H e He). rewrite Hc, Z.eqb_refl in H. cbn in H. lia.
  - destruct (event_keyCode e =? keycode) eqn:E; [|reflexivity].
    apply Z.eqb_eq in E. specialize (H e He E). cbn. lia.
Qed.

(** The decision of [handleKeyEvent], read off the events emitted before. *)
Lemma handleKeyEvent_decision T now keycode s :
  listenerOK T s -> T <= now -> 0 < now ->
  handleKeyEvent now keycode s
  = if isValidKeyCode keycode && farEnough now keycode (emitted s)
    then {| eventCache := <[JSString.decimal keycode := now]> (eventCache s);
            lastEventTimestamp := now;
            lastEventKeyCode := keycode;
            emitted := emitted s ++
              [{| event_keyCode := keycode;
                  event_keyName := keyCodeToName keycode;
                  event_timestamp := now |}] |}
    else s.
Proof.
  intros (H1 & H2 & H3 & H4) HT Hnow. unfold handleKeyEvent.
  destruct (isValidKeyCode keycode) eqn:V; [|reflexivity]. cbn [negb andb].
  destruct (eventCache s !! JSString.decimal keycode) as [seen|] eqn:C.
  - destruct (H2 keycode seen C) as [[e [He [Hc Ht]]] Hmax].
    destruct (H1 e He) as [Hpos _].
    replace (seen =? 0) with false by lia. cbn [negb andb].
    destruct (now - seen <? MIN_EVENT_INTERVAL) eqn:L.
    + replace (farEnough now keycode (emitted s)) with false; [reflexivity|].
      symmetry. apply not_true_is_false. intros F.
      pose proof (proj1 (farEnough_spec _ _ _) F e He Hc). lia.
    + assert (F : farEnough now keycode (emitted s) = true).
      { apply farEnough_spec. intros e' He' Hc'. specialize (Hmax e' He' Hc'). lia. }
      rewrite F.
      replace ((keycode =? lastEventKeyCode s)
               && (now - lastEventTimestamp s <? MIN_EVENT_INTERVAL)) with false;
        [reflexivity|].
      symmetry. apply not_true_is_false. intros B. apply andb_prop in B as [B1 B2].
      apply Z.eqb_eq in B1. destruct H4 as [H4|[e' [He' [Hc' Ht']]]].
      * rewrite H4 in B1. rewrite B1 in V. vm_compute in V. discriminate V.
      * pose proof (proj1 (farEnough_spec _ _ _) F e' He' ltac:(congruence)). lia.
  - assert (F : farEnough now keycode (emitted s) = true).
    { apply farEnough_spec. intros e' He' Hc'. specialize (H3 keycode C e' He' Hc').
      unfold MIN_EVENT_INTERVAL in *. lia. }
    rewrite F.
    replace ((keycode =? lastEventKeyCode s)
             && (now - lastEventTimestamp s <? MIN_EVENT_INTERVAL)) with false;
      [reflexivity|].
    symmetry. apply not_true_is_false. intros B. apply andb_prop in B as [B1 B2].
    apply Z.eqb_eq in B1. destruct H4 as [H4|[e' [He' [Hc' Ht']]]].
    + rewrite H4 in B1. rewrite B1 in V. vm_compute in V. discriminate V.
    + pose proof (proj1 (farEnough_spec _ _ _) F e' He' ltac:(congruence)). lia.
Qed.

Lemma listenerOK_later T T' s : T <= T' -> listenerOK T s -> listenerOK T' s.
Proof.
  intros HT (H1 & H2 & H3 & H4). split; [|split; [|split]].
  - intros e He. destruct (H1 e He) as [Hpos Hrest]. split; [lia|exact Hrest].
  - exact H2.
  - intros keycode C e He Hc. specialize (H3 keycode C e He Hc). lia.
  - exact H4.
Qed.

Lemma listenerOK_handleKeyEvent T now keycode s :
  listenerOK T s -> T <= now -> 0 < now -> listenerOK now (handleKeyEvent now keycode s).
Proof.
  intros H HT Hnow. rewrite (handleKeyEvent_decision T now keycode s H HT Hnow).
  destruct (isValidKeyCode keycode && farEnough now keycode (emitted s)) eqn:D;
    [|exact (listenerOK_later T now s HT H)].
  apply andb_prop in D as [V F]. destruct H as (H1 & H2 & H3 & H4).
  split; [|split; [|split]]; cbn [emitted eventCache lastEventKeyCode lastEventTimestamp].
  - intros e He. apply in_app_or in He as [He|[<-|[]]].
    + destruct (H1 e He) as [Hpos Hrest]. split; [lia|exact Hrest].
    + cbn [event_timestamp event_keyCode event_keyName]. split; [lia|]. split; [exact V|reflexivity].
  - intros keycode' seen C. apply lookup_insert_Some in C as [[Hk <-]|[Hk C]].
    + apply decimal_inj in Hk. subst keycode'. split.
      * eexists. split; [apply in_or_app; right; left; reflexivity|]. split; reflexivity.
      * intros e He Hc. apply in_app_or in He as [He|[<-|[]]]; [|cbn; lia].
        destruct (H1 e He) as [Hpos _]. lia.
    + destruct (H2 keycode' seen C) as [[e [He [Hc Ht]]] Hmax]. split.
      * exists e. split; [apply in_or_app; left; exact He|]. split; assumption.
      * intros e' He' Hc'. apply in_app_or in He' as [He'|[<-|[]]]; [exact (Hmax e' He' Hc')|].
        cbn [event_keyCode] in Hc'. congruence.
  - intros keycode' C e He Hc. apply lookup_insert_None in C as [C Hk].
    apply in_app_or in He as [He|[<-|[]]].
    + specialize (H3 keycode' C e He Hc). lia.
    + cbn [event_keyCode] in Hc. congruence.
  - right. eexists. split; [apply in_or_app; right; left; reflexivity|]. split; reflexivity.
Qed.

Lemma listenerOK_cleanup T now s :
  listenerOK T s -> T <= now -> listenerOK now (cleanup now s).
Proof.
  intros (H1 & H2 & H3 & H4) HT.
  split; [|split; [|split]]; cbn [cleanup emitted eventCache lastEventKeyCode lastEventTimestamp].
  - intros e He. destruct (H1 e He) as [Hpos Hrest]. split; [lia|exact Hrest].
  - intros keycode seen C. apply map_lookup_filter_Some in C as [C _]. exact (H2 keycode seen C).
  - intros keycode C e He Hc. apply map_lookup_filter_None in C as [C|C].
    + specialize (H3 keycode C e He Hc). lia.
    + destruct (eventCache s !! JSString.decimal keycode) as [seen|] eqn:Cs.
      * specialize (C seen eq_refl). cbn [snd] in C.
        destruct (H2 keycode seen Cs) as [_ Hmax]. specialize (Hmax e He Hc).
        unfold MIN_EVENT_INTERVAL in *. lia.
      * specialize (H3 keycode Cs e He Hc). lia.
  - exact H4.
Qed.

Lemma listenerOK_create : listenerOK 0 create.
Proof.
  split; [|split; [|split]]; cbn [create emitted eventCache lastEventKeyCode].
  - intros e [].
  - intros keycode seen C. rewrite lookup_empty in C. discriminate C.
  - intros keycode _ e [].
  - left. reflexivity.
Qed.

Lemma listenerOK_run (events : list Event) (T : Z) (s : t) :
  clockOK T events -> listenerOK T s -> listenerOK (lastTime T events) (run events s).
Proof.
  revert T s. induction events as [|e events IH]; intros T s Hc H; [exact H|].
  cbn [clockOK] in Hc. destruct Hc as (HT & Hpos & Hc).
  cbn [run lastTime fold_left]. apply (IH (time e)); [exact Hc|].
  destruct e as [now keycode|now]; cbn [step time] in *.
  - exact (listenerOK_handleKeyEvent T now keycode s H HT Hpos).
  - exact (listenerOK_cleanup T now s H HT).
Qed.

Lemma clockOK_app (T : Z) (events : list Event) (e : Event) :
  clockOK T (events ++ [e]) ->
  clockOK T events /\ lastTime T events <= time e /\ 0 < time e.
Proof.
  revert T. induction events as [|x events IH]; intros T; cbn [app clockOK lastTime fold_left].
  - intros (H1 & H2 & _). auto.
  - intros (H1 & H2 & H3). destruct (IH _ H3) as (A & B & C). auto.
Qed.

Lemma spaced_snoc (out : list KeystrokeEvent) (x : KeystrokeEvent) :
  spaced out ->
  (forall e, In e out -> event_keyCode e = event_keyCode x ->
             MIN_EVENT_INTERVAL <= event_timestamp x - event_timestamp e) ->
  spaced (out ++ [x]).
Proof.
  intros Hs Hx i j e1 e2 Hij H1 H2 Hc.
  assert (Hj : (j < length (out ++ [x]))%nat) by (apply lookup_lt_is_Some; eauto).
  rewrite length_app in Hj. cbn [length] in Hj.
  rewrite lookup_app_l in H1 by lia.
  destruct (decide (j < length out)%nat) as [Hlt|Hge].
  - rewrite lookup_app_l in H2 by lia. exact (Hs i j e1 e2 Hij H1 H2 Hc).
  - rewrite lookup_app_r in H2 by lia.
    replace (j - length out)%nat with O in H2 by lia. cbn in H2. injection H2 as <-.
    apply Hx; [|exact Hc]. apply list_elem_of_In. eapply list_elem_of_lookup_2. exact H1.
Qed.

Lemma spaced_step T (s : t) (e : Event) :
  listenerOK T s -> T <= time e -> 0 < time e ->
  spaced (emitted s) -> spaced (emitted (step s e)).
Proof.
  intros H HT Hpos Hs. destruct e as [now keycode|now]; cbn [step time] in *; [|exact Hs].
  rewrite (handleKeyEvent_decision T now keycode s H HT Hpos).
  destruct (isValidKeyCode keycode && farEnough now keycode (emitted s)) eqn:D; [|exact Hs].
  apply andb_prop in D as [_ F]. cbn [emitted]. apply spaced_snoc; [exact Hs|].
  cbn [event_keyCode event_timestamp]. exact (proj1 (farEnough_spec _ _ _) F).
Qed.

Lemma spaced_run (events : list Event) (T : Z) (s : t) :
  clockOK T events -> listenerOK T s -> spaced (emitted s) ->
  spaced (emitted (run events s)).
Proof.
  revert T s. induction events as [|e events IH]; intros T s Hc H Hs; [exact Hs|].
  cbn [clockOK] in Hc. destruct Hc as (HT & Hpos & Hc).
  cbn [run fold_left]. apply (IH (time e)); [exact Hc| |exact (spaced_step T s e H HT Hpos Hs)].
  destruct e as [now keycode|now]; cbn [step time] in *.
  - exact (listenerOK_handleKeyEvent T now keycode s H HT Hpos).
  - exact (listenerOK_cleanup T now s H HT).
Qed.

(** X28.  On a clock that is positive and never goes back,
    [handleKeyEvent] emits a ['keystroke'] event for a key that goes down
    exactly when its code is in [KEY_CODE_MAP] and no event with the same
    code was emitted less than 200 ms before; every event emitted so far
    carries a code of the table and its name, and two emitted events with
    the same code are at least 200 ms apart. *)
Theorem listener_emits_a_key_unless_it_repeats_within_200_ms
    (events : list Event) (now keycode : Z) :
  clockOK 0 (events ++ [KeyDown now keycode]) ->
  let before := emitted (run events create) in
  let after := emitted (run (events ++ [KeyDown now keycode]) create) in
  after = before ++
          (if isValidKeyCode keycode && farEnough now keycode before
           then [{| event_keyCode := keycode;
                    event_keyName := keyCodeToName keycode;
                    event_timestamp := now |}]
           else []) /\
  (forall e, In e after ->
     isValidKeyCode (event_keyCode e) = true /\
     event_keyName e = keyCodeToName (event_keyCode e)) /\
  spaced after.
Proof.
  intros Hc before after.
  destruct (clockOK_app 0 events _ Hc) as (Hc0 & HT & Hpos). cbn [time] in HT, Hpos.
  pose proof (listenerOK_run events 0 create Hc0 listenerOK_create) as Hinv.
  pose proof (listenerOK_run _ 0 create Hc listenerOK_create) as Hinv'.
  split; [|split].
  - unfold after, run. rewrite fold_left_app. cbn [fold_left step].
    fold (run events create).
    rewrite (handleKeyEvent_decision _ now keycode _ Hinv HT Hpos). fold before.
    destruct (isValidKeyCode keycode && farEnough now keycode before);
      [reflexivity|rewrite app_nil_r; reflexivity].
  - intros e He. destruct Hinv' as [H1 _]. destruct (H1 e He) as (_ & V & N). auto.
  - apply (spaced_run _ 0 create Hc listenerOK_create). intros i j e1 e2 _ H1. discriminate H1.
Qed.

End Listener.

(** ** ExportService *)
Section Exporting.
Import Sql KeystrokeRepository ExportService.

Lemma escapeCSV_inj (a b : string) : escapeCSV a = escapeCSV b -> a = b.
Proof.
  revert b. induction a as [|c a IH]; intros [|d b]; cbn [escapeCSV].
  - reflexivity.
  - destruct (Ascii.eqb d quote); discriminate.
  - destruct (Ascii.eqb c quote); discriminate.
  - destruct (Ascii.eqb c quote) eqn:C, (Ascii.eqb d quote) eqn:D'; intros H.
    + apply Ascii.eqb_eq in C, D'. subst c d. injection H as H. f_equal. exact (IH b H).
    + apply Ascii.eqb_neq in D'. injection H as H1 H2. symmetry in H1. contradiction.
    + apply Ascii.eqb_neq in C. injection H as H1 H2. contradiction.
    + injection H as -> H. f_equal. exact (IH b H).
Qed.

(** X29.  [escapeCSV] is injective, leaves a value without double quotes
    as it is, and in general doubles the number of double quotes, adding
    one character for each. *)
Theorem escapeCSV_doubles_quotes_and_loses_nothing :
  (forall a b, escapeCSV a = escapeCSV b -> a = b) /\
  (forall value, quotes value = O -> escapeCSV value = value) /\
  (forall value,
      quotes (escapeCSV value) = (2 * quotes value)%nat /\
      String.length (escapeCSV value) = (String.length value + quotes value)%nat).
Proof.
  split; [exact escapeCSV_inj|]. split.
  - induction value as [|c rest IH]; cbn [quotes escapeCSV]; [reflexivity|].
    destruct (Ascii.eqb c quote); [discriminate|]. cbn [Nat.add]. intros H.
    rewrite (IH H). reflexivity.
  - induction value as [|c rest [IH1 IH2]]; cbn [quotes escapeCSV String.length];
      [split; reflexivity|].
    destruct (Ascii.eqb c quote) eqn:C; cbn [quotes String.length].
    + change (Ascii.eqb quote quote) with true. rewrite IH1, IH2. split; lia.
    + rewrite C, IH1, IH2. split; lia.
Qed.

Lemma filterByDateRange_bounds (data : list Keystroke) (a b : Z) :
  filterByDateRange data (Some (Some a)) (Some (Some b)) = List.filter (inRange a b) data.
Proof.
  unfold filterByDateRange. apply filter_ext. intros k. unfold inRange, ltNum, gtNum.
  cbn [JSDate.getTime].
  destruct (timestamp k <? a) eqn:A, (timestamp k >? b) eqn:B;
    destruct (a <=? timestamp k) eqn:A', (timestamp k <=? b) eqn:B'; try reflexivity; lia.
Qed.

(** X30.  [filterByDateRange] keeps, in their order, exactly the records
    between the bounds given, both inclusive; a bound left out or an
    invalid [Date] does not restrict; and what [getByDateRange] returned
    for two bounds passes the filter of the same bounds unchanged. *)
Theorem filterByDateRange_keeps_the_records_in_range (data : list Keystroke) :
  (forall a b, filterByDateRange data (Some (Some a)) (Some (Some b))
               = List.filter (inRange a b) data) /\
  (forall a, filterByDateRange data (Some (Some a)) None
             = List.filter (fun k => a <=? timestamp k) data) /\
  (forall b, filterByDateRange data None (Some (Some b))
             = List.filter (fun k => timestamp k <=? b) data) /\
  filterByDateRange data None None = data /\
  filterByDateRange data (Some None) (Some None) = data /\
  (forall (r : KeystrokeRepository.t) a b found,
      getByDateRange (Some a) (Some b) r = Ok found ->
      filterByDateRange found (Some (Some a)) (Some (Some b)) = found).
Proof.
  split; [apply filterByDateRange_bounds|].
  split; [|split; [|split; [|split]]].
  - intros a. unfold filterByDateRange. apply filter_ext. intros k. unfold ltNum.
    cbn [JSDate.getTime]. destruct (timestamp k <? a) eqn:A, (a <=? timestamp k) eqn:A';
      try reflexivity; lia.
  - intros b. unfold filterByDateRange. apply filter_ext. intros k. unfold gtNum.
    cbn [JSDate.getTime]. destruct (timestamp k >? b) eqn:B, (timestamp k <=? b) eqn:B';
      try reflexivity; lia.
  - reflexivity.
  - unfold filterByDateRange. cbn. apply filter_all. intros; reflexivity.
  - intros r a b found H. rewrite filterByDateRange_bounds. apply filter_all.
    intros k Hk. unfold getByDateRange in H. destruct (negb (db r)); [discriminate H|].
    cbn [JSDate.getTime] in H. injection H as <-. unfold selectByTimestamp in Hk.
    apply in_map_iff in Hk as [row [<- Hrow]].
    apply list_elem_of_In in Hrow. rewrite (merge_sort_Permutation timestamp_le) in Hrow.
    apply list_elem_of_In in Hrow. apply filter_In in Hrow as [_ Hrow].
    exact Hrow.
Qed.

End Exporting.

(** ** Instances on sample data *)
Section Witnesses.
Import Sql KeystrokeRepository StatisticsService KeystrokeBuffer ExportService.

(** C10 on a store that was never opened and on the sample store. *)
Lemma save_checks_initialization_before_emptiness_witness :
  save sampleBatch (KeystrokeRepository.create "./keyboard-stats.db" ∅)
    = (Err NotInitialized, KeystrokeRepository.create "./keyboard-stats.db" ∅) /\
  save [] sampleStore = (Ok tt, sampleStore).
Proof.
  split.
  - apply (proj1 (save_checks_initialization_before_emptiness
                    (KeystrokeRepository.create "./keyboard-stats.db" ∅))).
    reflexivity.
  - apply (proj2 (save_checks_initialization_before_emptiness sampleStore)).
    reflexivity.
Defined.

(** C7 on the sample store and a path that is not on its disk. *)
Lemma restore_missing_backup_fails_unchanged_witness :
  restore "./keyboard-stats.db.backup.1" sampleStore
    = (Err (BackupNotFound "./keyboard-stats.db.backup.1"), sampleStore).
Proof.
  apply restore_missing_backup_fails_unchanged.
  - reflexivity.
  - vm_compute. reflexivity.
Defined.

(** C6 on the sample store. *)
Lemma backup_clear_restore_roundtrip_witness :
  exists path r1 r2 r3,
    backup 1700010000000 sampleStore = (Ok path, r1) /\
    clear r1 = (Ok tt, r2) /\
    restore path r2 = (Ok tt, r3) /\
    keystrokes (current r2) = [] /\
    db r3 = true /\
    keystrokes (current r3) = keystrokes (current sampleStore).
Proof.
  apply backup_clear_restore_roundtrip. vm_compute. reflexivity.
Defined.

(** C5 on the sample batch, read back over the range of its timestamps. *)
Lemma save_then_getByDateRange_witness :
  exists found,
    getByDateRange (Some 1700000000000) (Some 1700007200000) sampleStore = Ok found /\
    map logical found
      ≡ₚ map logical (List.filter (inRange 1700000000000 1700007200000) sampleBatch) /\
    StronglySorted (fun a b => timestamp a <= timestamp b) found /\
    (forall k, In k found -> 1700000000000 <= timestamp k <= 1700007200000) /\
    ((forall k, In k sampleBatch -> 1700000000000 <= timestamp k <= 1700007200000) ->
     map logical found ≡ₚ map logical sampleBatch).
Proof.
  apply (save_then_getByDateRange sampleBatch sampleRepository sampleStore).
  - reflexivity.
  - vm_compute. reflexivity.
  - vm_compute. reflexivity.
Defined.

(** C8 for month 13 and month 12. *)
Lemma getMonthlyStats_validates_month_witness :
  getMonthlyStats 0 0 2024 13 sampleStore StatisticsService.create
    = (Err InvalidPeriod, StatisticsService.create) /\
  fst (getMonthlyStats 0 0 2024 12 sampleStore StatisticsService.create) <> Err InvalidPeriod.
Proof.
  split.
  - apply (proj1 (getMonthlyStats_validates_month 0 0 2024 13 sampleStore
                    StatisticsService.create)).
    right. lia.
  - apply (proj2 (getMonthlyStats_validates_month 0 0 2024 12 sampleStore
                    StatisticsService.create)).
    lia.
Defined.

(** C9 on the month query of the sample store. *)
Lemma breakdown_sorted_by_count_desc_witness :
  sortedByCountDesc
    [{| stat_keyName := "A"; count := 2 |}; {| stat_keyName := "B"; count := 1 |}].
Proof.
  apply (proj1 breakdown_sorted_by_count_desc 0 PerMonth (Some 1700000000000) sampleStore).
  vm_compute. reflexivity.
Defined.

(** C4 on a flush of one key with three more events in the attempt windows. *)
Lemma failed_flush_returns_batch_to_front_witness :
  let s' := run (Add (keyA 1) :: windows [([], Some []); ([Add (keyB 2)], Some [true]);
                                          ([CallFlush], Some []); ([Add (keyA 3)], Some [])])
                sampleBuffer in
  buffer s' = (buffer sampleBuffer ++ added [Add (keyA 1)])
              ++ added (windows [([], Some []); ([Add (keyB 2)], Some [true]);
                                 ([CallFlush], Some []); ([Add (keyA 3)], Some [])]) /\
  isFlushingInProgress s' = false /\
  pending s' = None.
Proof.
  apply failed_flush_returns_batch_to_front.
  - reflexivity.
  - reflexivity.
  - discriminate.
  - reflexivity.
  - vm_compute. reflexivity.
Defined.


(** The sample stores hold derived rows. *)
Lemma sample_stores_derived :
  storeDerived sampleStore /\ storeDerived decemberStore.
Proof.
  split; apply diskDerived_storeDerived, diskDerived_save, diskDerived_initialize,
    diskDerived_create.
Qed.

(** The monthly identity on the sample store, five hours west of UTC. *)
Lemma monthly_trend_sums_to_total_witness :
  exists v,
    fst (getMonthlyStats utcMinus5 0 2023 11 sampleStore StatisticsService.create) = Ok v /\
    ms_totalKeystrokes v = 3 /\
    trendTotal (dailyTrend v) = ms_totalKeystrokes v.
Proof.
  eexists. split; [vm_compute; reflexivity | split; [reflexivity|]].
  apply (monthly_trend_sums_to_total StatisticsService.create (reach_create _)
           utcMinus5 0 2023 11 sampleStore).
  - split; [unfold utcMinus5, JSDate.msPerHour, JSDate.msPerDay; lia|].
    exact (proj1 sample_stores_derived).
  - vm_compute. reflexivity.
  - unfold fourDigitYear. cbn [ms_year]. unfold JSDate.fullYear. cbn. lia.
Defined.

(** The yearly identity on the December store, eight hours east of UTC. *)
Lemma yearly_trend_sums_to_total_east_of_UTC_witness :
  exists v,
    fst (getYearlyStats utcPlus8 0 2024 decemberStore StatisticsService.create) = Ok v /\
    ys_totalKeystrokes v = 1 /\
    trendTotal (monthlyTrend v) = ys_totalKeystrokes v.
Proof.
  eexists. split; [vm_compute; reflexivity | split; [reflexivity|]].
  apply (yearly_trend_sums_to_total_east_of_UTC StatisticsService.create (reach_create _)
           utcPlus8 0 2024 decemberStore).
  - split; [unfold utcPlus8, JSDate.msPerHour, JSDate.msPerDay; lia|].
    exact (proj2 sample_stores_derived).
  - vm_compute. reflexivity.
  - unfold fourDigitYear. cbn [ys_year]. unfold JSDate.fullYear. cbn. lia.
Defined.

(** X4 on the sample store after a backup. *)
Lemma listed_backups_are_sorted_and_restorable_witness :
  exists l,
    getBackups backedUpStore = Ok l /\
    l = [{| backupPath := "./keyboard-stats.db.backup.1700010000000";
            createdAt := 1700010000000 |}] /\
    forall b, In b l ->
      (exists row, In row (backups (current backedUpStore)) /\
                   backup_path row = backupPath b /\ created_at row = createdAt b) /\
      exists d r',
        fs backedUpStore !! backupPath b = Some d /\
        restore (backupPath b) backedUpStore = (Ok tt, r') /\
        opened r' = true /\
        current r' = d.
Proof.
  eexists. split; [vm_compute; reflexivity|]. split; [reflexivity|].
  apply (listed_backups_are_sorted_and_restorable backedUpStore).
  vm_compute. reflexivity.
Defined.

(** X5 on the sample store. *)
Lemma reset_keeps_a_restorable_backup_witness :
  exists path r2 l,
    Main.resetData 1700010000000 sampleStore = (Ok path, r2) /\
    opened r2 = true /\
    keystrokes (current r2) = [] /\
    fs r2 !! path = Some (current sampleStore) /\
    getBackups r2 = Ok l /\
    In {| backupPath := path; createdAt := 1700010000000 |} l.
Proof. apply reset_keeps_a_restorable_backup. vm_compute. reflexivity. Defined.

(** X6 on the sample store. *)
Lemma restore_after_reset_returns_the_whole_file_witness :
  exists path r2 r3,
    Main.resetData 1700010000000 sampleStore = (Ok path, r2) /\
    restore path r2 = (Ok tt, r3) /\
    opened r3 = true /\
    current r3 = current sampleStore /\
    forall l b, getBackups r3 = Ok l -> In b l ->
      exists row, In row (backups (current sampleStore)) /\
                  backup_path row = backupPath b /\ created_at row = createdAt b.
Proof. apply restore_after_reset_returns_the_whole_file. vm_compute. reflexivity. Defined.

(** X7 on the sample store, one millisecond apart. *)
Lemma successive_backups_do_not_collide_witness :
  exists path1 r1 path2 r2 l,
    backup 1700010000000 sampleStore = (Ok path1, r1) /\
    backup 1700010000001 r1 = (Ok path2, r2) /\
    path1 <> path2 /\
    fs r2 !! path1 = Some (current sampleStore) /\
    fs r2 !! path2 = Some (current r1) /\
    keystrokes (current r2) = keystrokes (current sampleStore) /\
    getBackups r2 = Ok l /\
    In {| backupPath := path1; createdAt := 1700010000000 |} l /\
    In {| backupPath := path2; createdAt := 1700010000001 |} l.
Proof.
  apply successive_backups_do_not_collide.
  - vm_compute. reflexivity.
  - lia.
Defined.

(** X8 on the sample store. *)
Lemma getStats_summarises_the_table_witness :
  getStats sampleStore
    = Ok {| totalKeystrokes := 3; oldestKeystroke := Some 1700000000000;
            newestKeystroke := Some 1700007200000; uniqueKeys := 2 |} /\
  3 = Z.of_nat (length (keystrokes (current sampleStore))).
Proof.
  split; [vm_compute; reflexivity|].
  apply (getStats_summarises_the_table sampleStore
           {| totalKeystrokes := 3; oldestKeystroke := Some 1700000000000;
              newestKeystroke := Some 1700007200000; uniqueKeys := 2 |}).
  vm_compute. reflexivity.
Defined.

(** X9 on the sample store. *)
Lemma data_survives_restart_witness :
  exists r1,
    close sampleStore = (Ok tt, r1) /\
    db r1 = false /\
    fs r1 = fs sampleStore /\
    initialize (KeystrokeRepository.create (dbPath r1) (fs r1)) = (Ok tt, sampleStore).
Proof. apply data_survives_restart. vm_compute. reflexivity. Defined.

(** The sample batch has valid timestamps. *)
Lemma sampleBatch_valid : Forall validTime sampleBatch.
Proof.
  repeat constructor; unfold validTime, JSDate.maxTimeValue; cbn [timestamp keyA keyB]; lia.
Qed.

(** X10 on the sample batch, saved to the sample store. *)
Lemma save_appends_the_batch_in_order_witness :
  exists r' rows,
    save sampleBatch sampleStore = (Ok tt, r') /\
    keystrokes (current r') = keystrokes (current sampleStore) ++ rows /\
    map rowLogical rows = map logical sampleBatch /\
    Forall rowDerived rows /\
    map row_id rows = idsFrom (keystrokes_seq (current sampleStore)) (length sampleBatch).
Proof.
  apply save_appends_the_batch_in_order; [reflexivity|exact sampleBatch_valid].
Defined.

(** X11 on the sample store. *)
Lemma clear_empties_every_query_witness :
  exists r2,
    clear sampleStore = (Ok tt, r2) /\
    (forall start end_, getByDateRange start end_ r2 = Ok []) /\
    (forall tza period date,
        getStatsByPeriod tza period date r2
        = match period, date with
          | PerDay, None => Err InvalidTime
          | _, _ => Ok []
          end) /\
    getStats r2 = Ok {| totalKeystrokes := 0; oldestKeystroke := None;
                        newestKeystroke := None; uniqueKeys := 0 |} /\
    getBackups r2 = getBackups sampleStore /\
    forall ks, Forall validTime ks ->
      exists r3 st,
        save ks r2 = (Ok tt, r3) /\
        getStats r3 = Ok st /\
        totalKeystrokes st = Z.of_nat (length ks).
Proof. apply clear_empties_every_query. vm_compute. reflexivity. Defined.


(** X12 after a batch, a backup and a reset. *)
Lemma stored_rows_always_agree_with_their_timestamp_witness :
  diskDerived
    (calls [CallInitialize; CallSave sampleBatch; CallBackup 1700010000000; CallClear;
            CallSave [keyB 1700020000000]]
           (KeystrokeRepository.create "./keyboard-stats.db" ∅)).
Proof.
  apply stored_rows_always_agree_with_their_timestamp.
  repeat constructor; unfold validTime, JSDate.maxTimeValue; cbn [timestamp keyA keyB]; lia.
Defined.


(** X15: the same, one millisecond later. *)
Lemma expired_results_are_recomputed_witness :
  exists v s1,
    getDailyStats 0 1700010000000 (Some 1700000000000) sampleStore StatisticsService.create
      = (Ok v, s1) /\
    fst (getDailyStats utcPlus8 (1700010000000 + CACHE_TTL_MS + 1) (Some 1700003600000)
           decemberStore s1)
    = fst (getDailyStats utcPlus8 (1700010000000 + CACHE_TTL_MS + 1) (Some 1700003600000)
             decemberStore StatisticsService.create).
Proof.
  eexists. eexists. split; [vm_compute; reflexivity|].
  apply (proj1 expired_results_are_recomputed
           0 1700010000000 1700000000000 sampleStore StatisticsService.create
           {| ds_date := Some 1699920000000; ds_totalKeystrokes := 2;
              ds_keyBreakdown := [{| stat_keyName := "A"; count := 2 |}] |}).
  - vm_compute. reflexivity.
  - vm_compute. discriminate.
  - vm_compute. reflexivity.
  - lia.
Defined.

(** X18 on the sample store, five hours west of UTC. *)
Lemma daily_stats_count_the_records_of_the_UTC_day_witness :
  exists v,
    fst (getDailyStats utcMinus5 0 (Some 1700000000000) sampleStore
           (clearCache StatisticsService.create)) = Ok v /\
    ds_date v = Some (JSDate.Day 1700000000000 * JSDate.msPerDay) /\
    ds_totalKeystrokes v
      = countRows (fun r => JSDate.Day (row_timestamp r) =? JSDate.Day 1700000000000)
          sampleStore /\
    ds_totalKeystrokes v = countsTotal (ds_keyBreakdown v).
Proof.
  apply daily_stats_count_the_records_of_the_UTC_day.
  - reflexivity.
  - exact (proj1 sample_stores_derived).
  - vm_compute. split; discriminate.
Defined.

(** X19 on the sample store, five hours west of UTC. *)
Lemma monthly_stats_count_the_records_of_the_month_witness :
  exists v,
    fst (getMonthlyStats utcMinus5 0 2023 11 sampleStore
           (clearCache StatisticsService.create)) = Ok v /\
    ms_year v = 2023 /\
    ms_month v = 11 /\
    ms_totalKeystrokes v
      = countRows (fun r => (rowYear r =? 2023) && (rowMonth r =? 11)) sampleStore /\
    dailyTrend v
      = map (fun D =>
               (Some (JSDate.MakeDate (JSDate.MakeDay 2023 (11 - 1) D) 0),
                countRows (fun r => (rowYear r =? 2023) && (rowMonth r =? 11)
                                    && (rowDay r =? D)) sampleStore))
            (upTo (Some (daysInMonth 2023 (11 - 1)))).
Proof.
  apply monthly_stats_count_the_records_of_the_month.
  - reflexivity.
  - exact (proj1 sample_stores_derived).
  - unfold utcMinus5, JSDate.msPerHour, JSDate.msPerDay. lia.
  - lia.
  - lia.
Defined.

(** X20 on the December store, eight hours east of UTC. *)
Lemma yearly_stats_count_the_records_of_the_year_witness :
  exists v,
    fst (getYearlyStats utcPlus8 0 2024 decemberStore
           (clearCache StatisticsService.create)) = Ok v /\
    ys_year v = 2024 /\
    ys_totalKeystrokes v = countRows (fun r => rowYear r =? 2024) decemberStore /\
    map fst (monthlyTrend v) = [1; 2; 3; 4; 5; 6; 7; 8; 9; 10; 11; 12] /\
    (0 <= utcPlus8 < JSDate.msPerDay ->
     monthlyTrend v
       = map (fun m => (m, countRows (fun r => (rowYear r =? 2024) && (rowMonth r =? m))
                             decemberStore))
             [1; 2; 3; 4; 5; 6; 7; 8; 9; 10; 11; 12]).
Proof.
  apply yearly_stats_count_the_records_of_the_year.
  - reflexivity.
  - exact (proj2 sample_stores_derived).
  - unfold utcPlus8, JSDate.msPerHour, JSDate.msPerDay. lia.
  - lia.
Defined.

(** X22: the top key of November 2023 in the sample store. *)
Lemma top_keys_are_the_most_pressed_witness :
  exists top s',
    getTopKeys 0 PerMonth (Some 1700000000000) 1 sampleStore StatisticsService.create
      = (Ok top, s') /\
    top = [{| stat_keyName := "A"; count := 2 |}] /\
    exists stats rest,
      getStatsByPeriod 0 PerMonth (Some 1700000000000) sampleStore = Ok stats /\
      stats = top ++ rest /\
      (forall a b, In a top -> In b rest -> count b <= count a) /\
      (0 <= 1 -> length top = Nat.min (Z.to_nat 1) (length stats)) /\
      cache s' = cache StatisticsService.create.
Proof.
  eexists. eexists. split; [vm_compute; reflexivity|]. split; [reflexivity|].
  apply (top_keys_are_the_most_pressed 0 PerMonth (Some 1700000000000) 1 sampleStore
           StatisticsService.create).
  vm_compute. reflexivity.
Defined.

(** X23 after one key. *)
Lemma at_most_one_write_is_in_flight_witness :
  pending (run [Add (keyA 1700000000000)] sampleBuffer)
    = Some ([keyA 1700000000000], 0) /\
  [keyA 1700000000000] <> [] /\ 0 <= 0 <= maxRetries.
Proof.
  split; [reflexivity|].
  apply (proj1 (proj2 (at_most_one_write_is_in_flight sampleRepository
                         [Add (keyA 1700000000000)]))).
  reflexivity.
Defined.

(** X26 on an idle buffer with two keys queued. *)
Lemma stop_flushes_an_idle_buffer_and_rearms_the_timer_witness :
  flushTimer (stop idleBuffer) = true /\
  saveCalls (core (stop idleBuffer))
    = saveCalls (core idleBuffer) ++ [buffer (core idleBuffer)] /\
  let s' := settle None (core (stop idleBuffer)) in
  buffer s' = [] /\
  pending s' = None /\
  isFlushingInProgress s' = false /\
  flushed s' = flushed (core idleBuffer) ++ [Z.of_nat (length (buffer (core idleBuffer)))] /\
  exists rows,
    keystrokes (current (repository s'))
      = keystrokes (current (repository (core idleBuffer))) ++ rows /\
    map rowLogical rows = map logical (buffer (core idleBuffer)).
Proof.
  apply (proj2 (stop_flushes_an_idle_buffer_and_rearms_the_timer idleBuffer)).
  - reflexivity.
  - discriminate.
  - reflexivity.
  - repeat constructor; unfold validTime, JSDate.maxTimeValue; cbn [timestamp keyA keyB]; lia.
Defined.

(** X29 on a key name without quotes. *)
Lemma escapeCSV_doubles_quotes_and_loses_nothing_witness :
  quotes "Shift" = O /\ escapeCSV "Shift" = "Shift"%string.
Proof.
  split; [reflexivity|].
  apply (proj1 (proj2 escapeCSV_doubles_quotes_and_loses_nothing)). reflexivity.
Defined.

(** X30 on a range query of the sample store. *)
Lemma filterByDateRange_keeps_the_records_in_range_witness :
  exists found,
    getByDateRange (Some 1700000000000) (Some 1700003600000) sampleStore = Ok found /\
    length found = 2%nat /\
    filterByDateRange found (Some (Some 1700000000000)) (Some (Some 1700003600000)) = found.
Proof.
  eexists. split; [vm_compute; reflexivity|]. split; [reflexivity|].
  apply (proj2 (proj2 (proj2 (proj2 (proj2
           (filterByDateRange_keeps_the_records_in_range [])))))
           sampleStore 1700000000000 1700003600000).
  vm_compute. reflexivity.
Defined.

(** X1 on a day of the sample store. *)
Lemma total_is_sum_of_breakdown_witness :
  exists v,
    fst (getDailyStats 0 0 (Some 1700000000000) sampleStore StatisticsService.create) = Ok v /\
    ds_totalKeystrokes v = 2 /\
    ds_totalKeystrokes v = countsTotal (ds_keyBreakdown v).
Proof.
  eexists. split; [vm_compute; reflexivity|]. split; [reflexivity|].
  apply (proj1 (total_is_sum_of_breakdown StatisticsService.create (reach_create _))
           0 0 (Some 1700000000000) sampleStore).
  vm_compute. reflexivity.
Defined.

(** X17: a day asked of a store that is not initialized, then of the
    sample store. *)
Lemma failed_calls_cache_nothing_witness :
  exists s1,
    getDailyStats 0 0 (Some 1700000000000)
      (KeystrokeRepository.create "./keyboard-stats.db" ∅) StatisticsService.create
      = (Err NotInitialized, s1) /\
    fst (getDailyStats 0 1 (Some 1700000000000) sampleStore s1)
    = fst (getDailyStats 0 1 (Some 1700000000000) sampleStore StatisticsService.create).
Proof.
  eexists. split; [vm_compute; reflexivity|].
  apply (proj1 (failed_calls_cache_nothing StatisticsService.create (reach_create _))
           0 0 (Some 1700000000000) (KeystrokeRepository.create "./keyboard-stats.db" ∅)
           NotInitialized).
  vm_compute. reflexivity.
Defined.

(** X21 on the sample store. *)
Lemma day_breakdown_lists_each_key_once_with_its_count_witness :
  exists stats,
    getStatsByPeriod utcMinus5 PerDay (Some 1700000000000) sampleStore = Ok stats /\
    List.NoDup (map stat_keyName stats) /\
    forall name c,
      In {| stat_keyName := name; count := c |} stats <->
      0 < c /\
      c = countRows (fun r => (JSDate.Day (row_timestamp r) =? JSDate.Day 1700000000000)
                              && String.eqb (key_name r) name) sampleStore.
Proof.
  apply day_breakdown_lists_each_key_once_with_its_count.
  - reflexivity.
  - exact (proj1 sample_stores_derived).
  - vm_compute. split; discriminate.
Defined.

(** X28: the key A twice, 100 ms apart. *)
Lemma listener_emits_a_key_unless_it_repeats_within_200_ms_witness :
  KeyboardListener.emitted
    (KeyboardListener.run
       ([KeyboardListener.KeyDown 1700000000000 30]
        ++ [KeyboardListener.KeyDown 1700000000100 30]) KeyboardListener.create)
  = [{| event_keyCode := 30; event_keyName := "A"; event_timestamp := 1700000000000 |}].
Proof.
  apply (proj1 (listener_emits_a_key_unless_it_repeats_within_200_ms
                  [KeyboardListener.KeyDown 1700000000000 30] 1700000000100 30
                  ltac:(cbn; lia))).
Defined.

(** X24 on two keys, the first written at the second attempt, the first
    attempt having left no row. *)
Lemma buffer_loses_no_key_and_writes_them_in_order_witness :
  let events := [Add (keyA 1700000000000); SaveSettles (Some []);
                 Add (keyB 1700007200000); SaveSettles None] in
  let s := run events (KeystrokeBuffer.create sampleRepository) in
  exists written rows,
    map logical (added events)
      = written ++ map logical (pendingBatch s) ++ map logical (buffer s) /\
    keystrokes (current (repository s)) = keystrokes (current sampleRepository) ++ rows /\
    map rowLogical rows = written.
Proof.
  intros events s.
  destruct (buffer_loses_no_key_and_writes_them_in_order sampleRepository events)
    as (written & rows & A & B & _ & E).
  exists written, rows. split; [exact A|]. split; [exact B|].
  apply E; [reflexivity|].
  repeat constructor; unfold validTime, JSDate.maxTimeValue; cbn [timestamp keyA keyB]; lia.
Defined.

(** X25 on the same events. *)
Lemma flushed_events_count_the_keys_written_witness :
  let events := [Add (keyA 1700000000000); SaveSettles (Some []);
                 Add (keyB 1700007200000); SaveSettles None] in
  let s := run events (KeystrokeBuffer.create sampleRepository) in
  Z.of_nat (length (keystrokes (current (repository s))))
  = Z.of_nat (length (keystrokes (current sampleRepository))) + flushedTotal s.
Proof.
  intros events s.
  apply (proj2 (proj2 (proj2
           (flushed_events_count_the_keys_written sampleRepository events))));
    [reflexivity|].
  repeat constructor; unfold validTime, JSDate.maxTimeValue; cbn [timestamp keyA keyB]; lia.
Defined.

(** X27: a day asked after the month was computed on the sample store. *)
Lemma cached_statistics_equal_recomputation_on_an_unchanged_store_witness :
  fst (getDailyStats 0 1700010001000 (Some 1700000000000) sampleStore
         (snd (getMonthlyStats 0 1700010000000 2023 11 sampleStore StatisticsService.create)))
  = fst (getDailyStats 0 1700010001000 (Some 1700000000000) sampleStore
           StatisticsService.create).
Proof.
  apply (proj1 (cached_statistics_equal_recomputation_on_an_unchanged_store 0 sampleStore _
                  (reach_getMonthlyStats _ 0 1700010000000 2023 11 sampleStore _
                     (conj eq_refl eq_refl) (reach_create _)))).
Defined.

End Witnesses.

